(** * Wallet tracker: synchronisation and activity classification

  A shallow embedding of the parts of the wallet tracker that decide its
  specification: the transfer classifier ([parseTokenTransfer]), the
  ledger gateway ([getWalletTransactions], [batchGetBalances]), the
  persisted data cache ([cacheWalletBalances], [cacheTransactions]), the
  activity status deriver ([getActivityStatus]) and the watch set
  ([addWallets]). Further parts cover the response cache of the gateway,
  the reads of the persisted caches, the tracker hook, the saved projects,
  the market data and the address checks.

  Conventions of the embedding.
  - Integers of the ledger (raw token amounts, lamports, block times) are
    [Z]; amounts shown to the user are rationals [Q], so that a division
    such as [solChange / 1e9] is exact.
  - An ISO-8601 timestamp string is represented by the number of
    milliseconds it denotes ([new Date(s).getTime()]); such a string is
    never empty, hence always truthy.
  - A JavaScript [Map] is an association list that keeps insertion order;
    a plain object used as a dictionary is a [gmap].
  - Remote services are oracles: functions handed to the code under
    verification, one answer per request. *)

From Stdlib Require Import Ascii QArith.
From stdpp Require Import gmap strings list.

Local Open Scope Z_scope.

(** ** JavaScript helpers *)

Module Js.

(** [String.prototype.toLowerCase] on the ASCII range. *)
Definition lowerChar (c : ascii) : ascii :=
  let n := nat_of_ascii c in
  if ((65 <=? n)%nat && (n <=? 90)%nat)%bool then ascii_of_nat (n + 32) else c.

Fixpoint toLowerCase (s : string) : string :=
  match s with
  | EmptyString => EmptyString
  | String c r => String (lowerChar c) (toLowerCase r)
  end.

(** [String.prototype.trim] for the ASCII white space characters. *)
Definition isSpace (c : ascii) : bool :=
  let n := nat_of_ascii c in
  ((n =? 32) || (n =? 9) || (n =? 10) || (n =? 11) || (n =? 12) || (n =? 13))%nat%bool.

Fixpoint trimStart (s : string) : string :=
  match s with
  | String c r => if isSpace c then trimStart r else s
  | EmptyString => EmptyString
  end.

Fixpoint trimEnd (s : string) : string :=
  match s with
  | EmptyString => EmptyString
  | String c r =>
      match trimEnd r with
      | EmptyString => if isSpace c then EmptyString else String c EmptyString
      | r' => String c r'
      end
  end.

Definition trim (s : string) : string := trimEnd (trimStart s).

(** An ISO-8601 timestamp, as the milliseconds it denotes. *)
Definition Timestamp := Z.

(** Truthiness of a string and of a number. *)
Definition truthyStr (s : string) : bool := negb (String.eqb s "").
Definition truthyZ (n : Z) : bool := negb (n =? 0).

(** [a || d] where [a] is a number. *)
Definition orZ (a d : Z) : Z := if truthyZ a then a else d.
Definition orNat (a d : nat) : nat := if (a =? 0)%nat then d else a.

(** Strict comparisons of rationals, as booleans. *)
Definition Qltb (x y : Q) : bool := negb (Qle_bool y x).
Definition Qgtb (x y : Q) : bool := Qltb y x.

(** A [Map] with string keys: [set] on a key that is present replaces the
    value in place, [set] on a fresh key appends, iteration follows the
    order of first insertion. *)
Section JsMap.
Context {V : Type}.

Fixpoint mapGet (k : string) (m : list (string * V)) : option V :=
  match m with
  | [] => None
  | (k', v) :: r => if String.eqb k k' then Some v else mapGet k r
  end.

Fixpoint mapSet (k : string) (v : V) (m : list (string * V)) : list (string * V) :=
  match m with
  | [] => [(k, v)]
  | (k', v') :: r =>
      if String.eqb k k' then (k, v) :: r else (k', v') :: mapSet k v r
  end.

Definition mapValues (m : list (string * V)) : list V := m.*2.

(** [new Map(entries)] *)
Definition mapOf (entries : list (string * V)) : list (string * V) :=
  fold_left (fun m e => mapSet e.1 e.2 m) entries [].
End JsMap.

(** The slices [l.slice(i, i + n)] for [i = 0, n, 2n, ...] below
    [l.length], as visited by [for (i = 0; i < l.length; i += n)]. *)
Fixpoint slicesFrom {A : Type} (fuel n : nat) (l : list A) : list (list A) :=
  match fuel with
  | O => []
  | S fuel' =>
      match l with
      | [] => []
      | _ => take n l :: slicesFrom fuel' n (drop n l)
      end
  end.

Definition slices {A : Type} (n : nat) (l : list A) : list (list A) :=
  slicesFrom (length l) n l.

End Js.

(** ** Transfer classifier (solanaApi.js, [parseTokenTransfer]) *)

Module Classifier.
Import Js.

Record UiTokenAmount := {
  uta_amount : Z;        (* [Number(amount)], the raw amount *)
  uta_decimals : nat }.

Record TokenBalance := {
  tb_mint : string;      (* empty when absent *)
  tb_owner : string;     (* empty when absent *)
  tb_uiTokenAmount : option UiTokenAmount }.

(** The fields of a parsed transaction that the classifier reads;
    [accountKeys] holds the key strings ([keyStr]) of the account keys. *)
Record RawTransaction := {
  preTokenBalances : list TokenBalance;
  postTokenBalances : list TokenBalance;
  accountKeys : list string;
  preBalances : list Z;
  postBalances : list Z }.

(** The [type] string of a transfer. The classifier produces the first
    four; [LEGACY] stands for any other string, which only transfers stored
    by earlier versions carry. *)
Inductive TxType := BUY | SELL | TRANSFER_OUT | TRANSFER_IN | LEGACY.

Record TokenTransfer := {
  tt_type : TxType;
  tt_amount : Q;
  tt_rawAmount : Z;
  tt_decimals : nat;
  tt_toWallet : option string;
  tt_fromWallet : option string;
  tt_solChange : Q }.

Record WalletChange := {
  wc_pre : Z;
  wc_post : Z;
  wc_decimals : nat;
  wc_address : string }.

(** The variables the two balance loops update. *)
Record Scan := {
  preAmount : Z;
  postAmount : Z;
  decimals : nat;
  foundWallet : bool;
  foundMint : bool;
  walletChanges : list (string * WalletChange) }.

Definition scan0 : Scan :=
  {| preAmount := 0; postAmount := 0; decimals := 9;
     foundWallet := false; foundMint := false; walletChanges := [] |}.

Definition amountOf (bal : TokenBalance) : Z :=
  match tb_uiTokenAmount bal with
  | Some u => orZ (uta_amount u) 0
  | None => 0
  end.

Definition decimalsOf (bal : TokenBalance) : nat :=
  match tb_uiTokenAmount bal with
  | Some u => orNat (uta_decimals u) 9
  | None => 9
  end.

Definition mintMatches (mintNormalized : string) (bal : TokenBalance) : bool :=
  truthyStr (tb_mint bal)
  && String.eqb (toLowerCase (tb_mint bal)) (toLowerCase mintNormalized)
  && truthyStr (tb_owner bal).

Definition isOurWallet (walletNormalized : string) (bal : TokenBalance) : bool :=
  String.eqb (toLowerCase (tb_owner bal)) (toLowerCase walletNormalized).

(** Body of [for (const bal of preTokenBalances)]. *)
Definition preStep (walletNormalized mintNormalized : string)
    (s : Scan) (bal : TokenBalance) : Scan :=
  if mintMatches mintNormalized bal then
    let ownerKey := toLowerCase (tb_owner bal) in
    let amount := amountOf bal in
    let changes :=
      mapSet ownerKey
        {| wc_pre := amount;
           wc_post := match mapGet ownerKey (walletChanges s) with
                      | Some e => orZ (wc_post e) 0
                      | None => 0
                      end;
           wc_decimals := decimalsOf bal;
           wc_address := tb_owner bal |}
        (walletChanges s) in
    if isOurWallet walletNormalized bal then
      {| preAmount := amount; postAmount := postAmount s;
         decimals := decimalsOf bal; foundWallet := true; foundMint := true;
         walletChanges := changes |}
    else
      {| preAmount := preAmount s; postAmount := postAmount s;
         decimals := decimals s; foundWallet := foundWallet s; foundMint := true;
         walletChanges := changes |}
  else s.

(** Body of [for (const bal of postTokenBalances)]. *)
Definition postStep (walletNormalized mintNormalized : string)
    (s : Scan) (bal : TokenBalance) : Scan :=
  if mintMatches mintNormalized bal then
    let ownerKey := toLowerCase (tb_owner bal) in
    let amount := amountOf bal in
    let existing :=
      match mapGet ownerKey (walletChanges s) with
      | Some e => e
      | None => {| wc_pre := 0; wc_post := 0; wc_decimals := 9;
                   wc_address := tb_owner bal |}
      end in
    let changes :=
      mapSet ownerKey
        {| wc_pre := wc_pre existing; wc_post := amount;
           wc_decimals := wc_decimals existing;
           wc_address := wc_address existing |}
        (walletChanges s) in
    if isOurWallet walletNormalized bal then
      {| preAmount := preAmount s; postAmount := amount;
         decimals := decimalsOf bal; foundWallet := true; foundMint := true;
         walletChanges := changes |}
    else
      {| preAmount := preAmount s; postAmount := postAmount s;
         decimals := decimals s; foundWallet := foundWallet s; foundMint := true;
         walletChanges := changes |}
  else s.

Definition scanBalances (tx : RawTransaction) (walletNormalized mintNormalized : string) : Scan :=
  fold_left (postStep walletNormalized mintNormalized) (postTokenBalances tx)
    (fold_left (preStep walletNormalized mintNormalized) (preTokenBalances tx) scan0).

(** The loop over [accountKeys]: the lamport change of the first key equal
    to the wallet. *)
Fixpoint solChangeFrom (walletNormalized : string) (keys : list string)
    (pre post : list Z) : Z :=
  match keys with
  | [] => 0
  | keyStr :: keys' =>
      if truthyStr keyStr
         && String.eqb (toLowerCase keyStr) (toLowerCase walletNormalized)
      then orZ (hd 0 post) 0 - orZ (hd 0 pre) 0
      else solChangeFrom walletNormalized keys' (tl pre) (tl post)
  end.

(** [solChange / 1e9] *)
Definition lamportsToSol (solChange : Z) : Q :=
  (inject_Z solChange / inject_Z 1000000000)%Q.

(** The first other party whose balance moved in the given direction. *)
Fixpoint counterparty (walletKey : string) (incoming : bool)
    (changes : list (string * WalletChange)) : option string :=
  match changes with
  | [] => None
  | (ownerKey, data) :: r =>
      if negb (String.eqb ownerKey walletKey)
         && (if incoming then 0 <? wc_post data - wc_pre data
             else wc_post data - wc_pre data <? 0)
      then Some (wc_address data)
      else counterparty walletKey incoming r
  end.

(** The watched wallet's token delta and native delta, as the classifier
    computes them. *)
Definition tokenChangeOf (tx : RawTransaction) (walletAddress tokenMint : string) : Z :=
  let s := scanBalances tx (trim walletAddress) (trim tokenMint) in
  postAmount s - preAmount s.

Definition solChangeInSolOf (tx : RawTransaction) (walletAddress : string) : Q :=
  lamportsToSol
    (solChangeFrom (trim walletAddress) (accountKeys tx) (preBalances tx) (postBalances tx)).

Definition parseTokenTransfer (tx : RawTransaction) (walletAddress tokenMint : string)
    : option TokenTransfer :=
  match preTokenBalances tx, postTokenBalances tx with
  | [], [] => None
  | _, _ =>
      let walletNormalized := trim walletAddress in
      let mintNormalized := trim tokenMint in
      let s := scanBalances tx walletNormalized mintNormalized in
      if negb (foundMint s) then None
      else
        let tokenChange := postAmount s - preAmount s in
        if tokenChange =? 0 then None
        else
          let solChangeInSol := solChangeInSolOf tx walletAddress in
          let walletKey := toLowerCase walletNormalized in
          let amount :=
            (inject_Z (Z.abs tokenChange) / inject_Z (10 ^ Z.of_nat (decimals s)))%Q in
          if tokenChange <? 0 then
            Some {| tt_type := if Qgtb solChangeInSol (1 # 1000) then SELL else TRANSFER_OUT;
                    tt_amount := amount;
                    tt_rawAmount := Z.abs tokenChange;
                    tt_decimals := decimals s;
                    tt_toWallet := counterparty walletKey true (walletChanges s);
                    tt_fromWallet := None;
                    tt_solChange := solChangeInSol |}
          else
            Some {| tt_type := if Qltb solChangeInSol (- (1 # 100)) then BUY else TRANSFER_IN;
                    tt_amount := amount;
                    tt_rawAmount := Z.abs tokenChange;
                    tt_decimals := decimals s;
                    tt_toWallet := None;
                    tt_fromWallet := counterparty walletKey false (walletChanges s);
                    tt_solChange := solChangeInSol |}
  end.

End Classifier.

(** ** Ledger gateway: transaction history (solanaApi.js,
    [getWalletTransactions]) *)

Module History.
Import Js Classifier.

(** An entry of a signature page; [blockTime] is in seconds and may be
    [null]. *)
Record SigInfo := {
  signature : string;
  blockTime : option Z }.

(** What a fetch relies on. [new PublicKey(s)] throws on a string it does
    not accept. The page request is answered per call (first argument:
    number of page requests made before; then [before] and [limit]) and may
    reject ([None]); a detail request that rejects or answers [null] is
    [None]. *)
Record Connection := {
  acceptsPublicKey : string -> bool;
  getSignaturesForAddress : nat -> option string -> nat -> option (list SigInfo);
  getParsedTransaction : string -> option RawTransaction }.

(** [{signature, timestamp, walletAddress, ...tokenTransfer}] *)
Record Transaction := {
  tx_signature : string;
  tx_timestamp : option Timestamp;
  tx_walletAddress : string;
  tx_transfer : TokenTransfer }.

(** What the function does, in order. *)
Inductive Event :=
| PageRequested (before : option string)
| DetailFetched (sig : string)
| Examined (sig : string).

Record Fetch := {
  transactions : list Transaction;
  lastSignature : option string;
  pagesSearched : nat;
  reachedKnownData : bool;
  trace : list Event }.

Definition fetch0 : Fetch :=
  {| transactions := []; lastSignature := None; pagesSearched := 0;
     reachedKnownData := false; trace := [] |}.

Definition SIGS_PER_PAGE : nat := 100.
Definition PARALLEL_BATCH_SIZE : nat := 15.

Definition isBase58 (c : ascii) : bool :=
  let n := nat_of_ascii c in
  (((49 <=? n) && (n <=? 57))          (* 1-9 *)
   || ((65 <=? n) && (n <=? 72))       (* A-H *)
   || ((74 <=? n) && (n <=? 78))       (* J-N *)
   || ((80 <=? n) && (n <=? 90))       (* P-Z *)
   || ((97 <=? n) && (n <=? 107))      (* a-k *)
   || ((109 <=? n) && (n <=? 122)))%nat%bool.  (* m-z *)

(** [/^[1-9A-HJ-NP-Za-km-z]{32,44}$/.test(address.trim())] *)
Definition isValidAddress (address : string) : bool :=
  let trimmed := String.list_ascii_of_string (trim address) in
  ((32 <=? length trimmed) && (length trimmed <=? 44))%nat && forallb isBase58 trimmed.

(** [sig.blockTime] as a condition: neither [null] nor zero. *)
Definition timeOf (sig : SigInfo) : option Z :=
  match blockTime sig with
  | Some t => if truthyZ t then Some t else None
  | None => None
  end.

(** [sig.blockTime ? new Date(sig.blockTime * 1000).toISOString() : null] *)
Definition timestampOf (sig : SigInfo) : option Timestamp :=
  match timeOf sig with
  | Some t => Some (t * 1000)
  | None => None
  end.

Section Fetching.
Variable connection : Connection.
Variables walletAddress tokenMint : string.
Variables targetCount maxPages : nat.
Variable deepFetch : bool.
Variable sinceTimestamp : option Timestamp.
Variable knownSignatures : option (gset string).

Definition log (e : list Event) (f : Fetch) : Fetch :=
  {| transactions := transactions f; lastSignature := lastSignature f;
     pagesSearched := pagesSearched f; reachedKnownData := reachedKnownData f;
     trace := trace f ++ e |}.

Definition push (t : Transaction) (f : Fetch) : Fetch :=
  {| transactions := transactions f ++ [t]; lastSignature := lastSignature f;
     pagesSearched := pagesSearched f; reachedKnownData := reachedKnownData f;
     trace := trace f |}.

(** [for (let j = 0; j < txResults.length; j++)]; the flag tells that the
    function returned from inside the loop. *)
Fixpoint processResults (f : Fetch) (txResults : list (SigInfo * option RawTransaction))
    : Fetch * bool :=
  match txResults with
  | [] => (f, false)
  | (_, None) :: rest => processResults f rest
  | (sig, Some tx) :: rest =>
      let f1 := log [Examined (signature sig)] f in
      match parseTokenTransfer tx walletAddress tokenMint with
      | None => processResults f1 rest
      | Some tokenTransfer =>
          let f2 :=
            push {| tx_signature := signature sig;
                    tx_timestamp := timestampOf sig;
                    tx_walletAddress := walletAddress;
                    tx_transfer := tokenTransfer |} f1 in
          if negb deepFetch && (targetCount <=? length (transactions f2))%nat
          then (f2, true)
          else processResults f2 rest
      end
  end.

Definition isKnown (sig : SigInfo) : bool :=
  match knownSignatures with
  | Some known => bool_decide (signature sig ∈ known)
  | None => false
  end.

(** [for (let i = 0; i < signatures.length; i += PARALLEL_BATCH_SIZE)],
    over the slices it visits. *)
Fixpoint processBatches (f : Fetch) (batches : list (list SigInfo)) : Fetch * bool :=
  match batches with
  | [] => (f, false)
  | batch :: rest =>
      let filteredBatch := List.filter (fun sig => negb (isKnown sig)) batch in
      match filteredBatch with
      | [] => processBatches f rest
      | _ =>
          let f1 := log (map (fun sig => DetailFetched (signature sig)) filteredBatch) f in
          let txResults :=
            map (fun sig => (sig, getParsedTransaction connection (signature sig)))
              filteredBatch in
          match processResults f1 txResults with
          | (f2, true) => (f2, true)
          | (f2, false) => processBatches f2 rest
          end
      end
  end.

(** The incremental cut applied to a page: [None] when every signature is
    older than [sinceDate], otherwise the signatures to process and the new
    value of [reachedKnownData]. *)
Definition sinceCut (reached : bool) (signatures : list SigInfo)
    : option (list SigInfo * bool) :=
  match sinceTimestamp with
  | None => Some (signatures, reached)
  | Some sinceDate =>
      match last signatures with
      | None => Some (signatures, reached)
      | Some oldest =>
          match timeOf oldest with
          | Some oldestSigTime =>
              if oldestSigTime * 1000 <? sinceDate then
                let newSigs :=
                  List.filter
                    (fun sig => match timeOf sig with
                                | Some t => sinceDate <=? t * 1000
                                | None => false
                                end) signatures in
                match newSigs with
                | [] => None
                | _ => Some (newSigs, true)
                end
              else Some (signatures, reached)
          | None => Some (signatures, reached)
          end
      end
  end.

(** [options.before], set when [lastSignature] is truthy. *)
Definition beforeOf (f : Fetch) : option string :=
  match lastSignature f with
  | Some sig => if truthyStr sig then Some sig else None
  | None => None
  end.

Inductive Outcome :=
| Completed (f : Fetch)
| Threw
| OutOfFuel.

Definition whileCondition (f : Fetch) : bool :=
  ((pagesSearched f <? maxPages)%nat || deepFetch) && negb (reachedKnownData f).

(** The [while] loop, one page per iteration. *)
Fixpoint pages (fuel : nat) (f : Fetch) : Outcome :=
  if negb (whileCondition f) then Completed f
  else
    match fuel with
    | O => OutOfFuel
    | S fuel' =>
        let requested := log [PageRequested (beforeOf f)] f in
        match getSignaturesForAddress connection
                (pagesSearched f) (beforeOf f) SIGS_PER_PAGE with
        | None => Threw
        | Some [] => Completed requested
        | Some signatures =>
            let searched := S (pagesSearched f) in
            match sinceCut (reachedKnownData f) signatures with
            | None =>
                Completed
                  {| transactions := transactions f; lastSignature := lastSignature f;
                     pagesSearched := searched; reachedKnownData := true;
                     trace := trace requested |}
            | Some (sigs, reached) =>
                let f1 :=
                  {| transactions := transactions f; lastSignature := lastSignature f;
                     pagesSearched := searched; reachedKnownData := reached;
                     trace := trace requested |} in
                match processBatches f1 (slices PARALLEL_BATCH_SIZE sigs) with
                | (f2, true) => Completed f2
                | (f2, false) =>
                    let f3 :=
                      {| transactions := transactions f2;
                         lastSignature := signature <$> last sigs;
                         pagesSearched := searched; reachedKnownData := reached;
                         trace := trace f2 |} in
                    if deepFetch && (15 <=? searched)%nat then Completed f3
                    else if negb deepFetch && (maxPages <=? searched)%nat then Completed f3
                    else pages fuel' f3
                end
            end
        end
    end.

(** No more iterations than this are ever made. *)
Definition pageBound : nat := if deepFetch then 15 else maxPages.

Definition run : Outcome :=
  if negb (isValidAddress walletAddress) || negb (isValidAddress tokenMint)
  then Completed fetch0
  else if negb (acceptsPublicKey connection (trim walletAddress)) then Threw
  else pages pageBound fetch0.

(** The list the function returns; an exception inside [try] gives [[]]. *)
Definition getWalletTransactions : list Transaction :=
  match run with
  | Completed f => transactions f
  | Threw | OutOfFuel => []
  end.

End Fetching.

(** *** Notions used to state the properties *)

(** A page is newest first when no dated entry is older than a dated entry
    after it, and its last entry, the oldest, is dated. An entry is dated
    when its block time is neither [null] nor zero. *)
Definition newestFirstPage (page : list SigInfo) : Prop :=
  (forall (i j : nat) (si sj : SigInfo) (ti tj : Z),
     (i <= j)%nat -> page !! i = Some si -> page !! j = Some sj ->
     timeOf si = Some ti -> timeOf sj = Some tj -> tj <= ti) /\
  (forall oldest, last page = Some oldest -> is_Some (timeOf oldest)).

Definition newestFirstProvider (connection : Connection) : Prop :=
  forall (n : nat) (before : option string) (limit : nat) (page : list SigInfo),
    getSignaturesForAddress connection n before limit = Some page ->
    newestFirstPage page.

(** The signatures for which a detail request was made. *)
Definition detailRequests (events : list Event) : list string :=
  omap (fun e => match e with DetailFetched sig => Some sig | _ => None end) events.

(** The function returned on reaching the target: the list holds exactly
    [targetCount] transfers and the last thing done was to examine the
    signature of the last of them. *)
Definition returnedAtTarget (targetCount : nat) (f : Fetch) : Prop :=
  length (transactions f) = targetCount /\
  exists t, last (transactions f) = Some t /\
            last (trace f) = Some (Examined (tx_signature t)).

(** A signature, a transfer, not dated before [since]. *)
Definition sigSince (since : Timestamp) (sig : SigInfo) : Prop :=
  forall t, timestampOf sig = Some t -> since <= t.

Definition txSince (since : Timestamp) (tx : Transaction) : Prop :=
  forall t, tx_timestamp tx = Some t -> since <= t.

(** What the loop keeps true of the transfers collected and of the detail
    requests made, for a since-timestamp and a set of known signatures. *)
Definition cutoffKept (since : Timestamp) (known : gset string) (f : Fetch) : Prop :=
  Forall (fun tx => txSince since tx /\ tx_signature tx ∉ known) (transactions f) /\
  Forall (fun sig => sig ∉ known) (detailRequests (trace f)).

End History.

(** ** Ledger gateway: balances (solanaApi.js, [getTokenBalance],
    [batchGetBalances], [fetchBalancesBatchHelius]) *)

Module Balances.
Import Js.

(** A watched account, as imported from a wallet file. *)
Record Wallet := {
  w_id : string;
  w_name : string;
  w_address : string;
  w_group : string;
  w_addedAt : Timestamp }.

(** What [getTokenBalance] resolves to. *)
Record BalanceResult := {
  br_balance : Z;
  br_decimals : nat;
  br_uiBalance : Q;
  br_error : option string }.

(** An element of the array [batchGetBalances] returns: the wallet's own
    fields ([...wallet]), then the fields written over them. A result built
    on a failure has no [decimals]. *)
Record WalletBalance := {
  wb_wallet : Wallet;
  wb_id : string;
  wb_balance : Z;
  wb_decimals : option nat;
  wb_uiBalance : Q;
  wb_error : option string;
  wb_lastUpdated : Timestamp }.

Definition wb_address (b : WalletBalance) : string := w_address (wb_wallet b).

(** [balance / Math.pow(10, decimals)] *)
Definition uiAmount (balance : Z) (decimals : nat) : Q :=
  (inject_Z balance / inject_Z (10 ^ Z.of_nat decimals))%Q.

(** A token account returned by [getParsedTokenAccountsByOwner]. *)
Record TokenAccount := {
  ta_amount : Z;
  ta_decimals : nat }.

(** The answer of the RPC node to [getTokenBalance]'s request;
    [RpcRejected] stands for any exception raised inside its [try] block
    ([new PublicKey] refusing the address included). *)
Inductive RpcReply :=
| RpcRejected (message : string)
| RpcAccounts (value : list TokenAccount).

(** An item of the answer to [getAssetsByOwner]. *)
Record TokenInfo := {
  ti_mint : option string;
  ti_balance : Z;
  ti_decimals : nat }.

Record Asset := {
  a_id : option string;
  a_token_info : option TokenInfo }.

(** The privileged endpoint either fails ([fetch] rejects, or the body is
    not JSON) or answers a JSON document, whose [result.items] may be
    missing. *)
Inductive HeliusReply :=
| HeliusFailed (message : string)
| HeliusJson (items : option (list Asset)).

(** The collaborators of a balance fetch, one answer per wallet address:
    the hit of the short-lived response cache when there is one, the RPC
    node, the privileged endpoint, and the clock read when the result for
    that address is built. *)
Record Environment := {
  cachedBalance : string -> option BalanceResult;
  getParsedTokenAccountsByOwner : string -> RpcReply;
  getAssetsByOwner : string -> HeliusReply;
  clock : string -> Timestamp }.

Definition failedBalance (message : string) : BalanceResult :=
  {| br_balance := 0; br_decimals := 9; br_uiBalance := 0; br_error := Some message |}.

(** The loop [for (const account of tokenAccounts.value)]. *)
Definition sumAccounts (accounts : list TokenAccount) : Z * nat :=
  fold_left (fun acc account => (acc.1 + ta_amount account, ta_decimals account))
    accounts (0, 9%nat).

Definition getTokenBalance (env : Environment) (walletAddress tokenMint : string)
    : BalanceResult :=
  if negb (History.isValidAddress walletAddress)
  then failedBalance "Invalid wallet address format"
  else if negb (History.isValidAddress tokenMint)
  then failedBalance "Invalid token mint format"
  else
    match cachedBalance env walletAddress with
    | Some cached => cached
    | None =>
        match getParsedTokenAccountsByOwner env walletAddress with
        | RpcRejected message =>
            failedBalance (if truthyStr message then message else "RPC request failed")
        | RpcAccounts [] =>
            {| br_balance := 0; br_decimals := 9; br_uiBalance := 0; br_error := None |}
        | RpcAccounts value =>
            let total := sumAccounts value in
            {| br_balance := total.1; br_decimals := total.2;
               br_uiBalance := uiAmount total.1 total.2; br_error := None |}
        end
    end.

(** The element built from a fulfilled [getTokenBalance]:
    [{...batch[idx], ...result.value, id, lastUpdated}]. The promise of
    [getTokenBalance] is never rejected, its body catching every exception,
    so that the branch for a rejected one is not taken. *)
Definition rpcBalance (env : Environment) (tokenMint : string) (wallet : Wallet)
    : WalletBalance :=
  let value := getTokenBalance env (w_address wallet) tokenMint in
  {| wb_wallet := wallet;
     wb_id := w_address wallet;
     wb_balance := br_balance value;
     wb_decimals := Some (br_decimals value);
     wb_uiBalance := br_uiBalance value;
     wb_error := br_error value;
     wb_lastUpdated := clock env (w_address wallet) |}.

Definition matchesMint (tokenMint : string) (a : Asset) : bool :=
  match a_id a with
  | Some id => String.eqb (toLowerCase id) (toLowerCase tokenMint)
  | None => false
  end
  || match a_token_info a with
     | Some {| ti_mint := Some mint |} =>
         String.eqb (toLowerCase mint) (toLowerCase tokenMint)
     | _ => false
     end.

(** The callback of [wallets.map] in [fetchBalancesBatchHelius]. *)
Definition heliusBalance (env : Environment) (tokenMint : string) (wallet : Wallet)
    : WalletBalance :=
  match getAssetsByOwner env (w_address wallet) with
  | HeliusFailed message =>
      {| wb_wallet := wallet; wb_id := w_address wallet;
         wb_balance := 0; wb_decimals := None; wb_uiBalance := 0;
         wb_error := Some message;
         wb_lastUpdated := clock env (w_address wallet) |}
  | HeliusJson items =>
      let assets := default [] items in
      match List.find (matchesMint tokenMint) assets with
      | Some tokenAsset =>
          let balance :=
            match a_token_info tokenAsset with
            | Some info => orZ (ti_balance info) 0
            | None => 0
            end in
          let decimals :=
            match a_token_info tokenAsset with
            | Some info => orNat (ti_decimals info) 9
            | None => 9%nat
            end in
          {| wb_wallet := wallet; wb_id := w_address wallet;
             wb_balance := balance; wb_decimals := Some decimals;
             wb_uiBalance := uiAmount balance decimals;
             wb_error := None;
             wb_lastUpdated := clock env (w_address wallet) |}
      | None =>
          {| wb_wallet := wallet; wb_id := w_address wallet;
             wb_balance := 0; wb_decimals := Some 9%nat; wb_uiBalance := 0;
             wb_error := None;
             wb_lastUpdated := clock env (w_address wallet) |}
      end
  end.

Definition fetchBalancesBatchHelius (env : Environment) (wallets : list Wallet)
    (tokenMint : string) : list WalletBalance :=
  map (heliusBalance env tokenMint) wallets.

Definition usesHelius (hasApiKey : bool) (apiKey : option string) : bool :=
  hasApiKey && match apiKey with Some key => truthyStr key | None => false end.

(** [batchGetBalances] without a progress callback: the batches are
    processed in order and their results appended. *)
Definition batchGetBalances (env : Environment) (wallets : list Wallet)
    (tokenMint : string) (hasApiKey : bool) (apiKey : option string)
    : list WalletBalance :=
  let BATCH_SIZE := if hasApiKey then 5%nat else 3%nat in
  fold_left
    (fun results batch =>
       let batchResults :=
         if usesHelius hasApiKey apiKey
         then fetchBalancesBatchHelius env batch tokenMint
         else map (rpcBalance env tokenMint) batch in
       results ++ batchResults)
    (slices BATCH_SIZE wallets) [].

(** A fetch fails for an address when the endpoint in use rejects the
    request made for it. *)
Definition fetchFails (env : Environment) (hasApiKey : bool) (apiKey : option string)
    (address : string) : Prop :=
  if usesHelius hasApiKey apiKey
  then exists message, getAssetsByOwner env address = HeliusFailed message
  else cachedBalance env address = None /\
       exists message, getParsedTokenAccountsByOwner env address = RpcRejected message.

(** The element of the result built for one wallet. *)
Definition balanceOf (env : Environment) (tokenMint : string) (hasApiKey : bool)
    (apiKey : option string) (wallet : Wallet) : WalletBalance :=
  if usesHelius hasApiKey apiKey
  then heliusBalance env tokenMint wallet
  else rpcBalance env tokenMint wallet.

(** Two environments that answer alike for an address. *)
Definition sameAnswers (env env' : Environment) (address : string) : Prop :=
  cachedBalance env address = cachedBalance env' address /\
  getParsedTokenAccountsByOwner env address = getParsedTokenAccountsByOwner env' address /\
  getAssetsByOwner env address = getAssetsByOwner env' address /\
  clock env address = clock env' address.

End Balances.

(** ** Persisted data cache (solanaApi.js, DataCache service) *)

Module DataCache.
Import Js Balances History.

Record HistoryPoint := {
  hp_balance : Q;
  hp_timestamp : Timestamp }.

(** A stored wallet: the fields of the incoming balance ([...wallet]) and
    the four fields the merge writes over them. *)
Record CachedWallet := {
  cw_data : WalletBalance;
  previousBalance : option Q;
  balanceHistory : list HistoryPoint;
  firstSeen : Timestamp;
  lastUpdated : Timestamp }.

Definition cw_address (w : CachedWallet) : string := wb_address (cw_data w).
Definition cw_uiBalance (w : CachedWallet) : Q := wb_uiBalance (cw_data w).

Record BalanceCacheEntry := {
  bc_wallets : list CachedWallet;
  bc_lastSync : Timestamp }.

Record TransactionCacheEntry := {
  tc_transactions : list Transaction;
  tc_lastSync : Timestamp;
  newestSignature : option string;
  oldestSignature : option string }.

(** The three records kept in local storage, each a dictionary from token
    mint to that token's entry. Reads and writes of the storage succeed. *)
Record Storage := {
  balanceCache : gmap string BalanceCacheEntry;
  transactionCache : gmap string TransactionCacheEntry;
  syncState : gmap string (gmap string Timestamp) }.

(** [l.slice(-n)] *)
Definition sliceLast {A : Type} (n : nat) (l : list A) : list A :=
  drop (length l - n) l.

Definition updateSyncState (state : gmap string (gmap string Timestamp))
    (tokenMint dataType : string) (timestamp : Timestamp)
    : gmap string (gmap string Timestamp) :=
  <[tokenMint := <[dataType := timestamp]> (default ∅ (state !! tokenMint))]> state.

(** The callback of [walletData.forEach]. A stored history is a list and a
    stored first-seen time a timestamp, both truthy, so that
    [prev?.balanceHistory || []] and [prev?.firstSeen || now] take the
    stored value whenever there is an entry. *)
Definition mergeWallet (now : Timestamp) (existingMap : list (string * CachedWallet))
    (wallet : WalletBalance) : list (string * CachedWallet) :=
  let prev := mapGet (wb_address wallet) existingMap in
  mapSet (wb_address wallet)
    {| cw_data := wallet;
       previousBalance := cw_uiBalance <$> prev;
       balanceHistory :=
         sliceLast 9 (default [] (balanceHistory <$> prev))
         ++ [ {| hp_balance := wb_uiBalance wallet; hp_timestamp := now |} ];
       firstSeen := default now (firstSeen <$> prev);
       lastUpdated := now |}
    existingMap.

(** [cache[tokenMint]?.wallets || []] *)
Definition existingWallets (cache : gmap string BalanceCacheEntry) (tokenMint : string)
    : list CachedWallet :=
  default [] (bc_wallets <$> cache !! tokenMint).

(** The map of stored wallets by address, before and after the incoming
    balances are merged into it. *)
Definition existingMapOf (cache : gmap string BalanceCacheEntry) (tokenMint : string)
    : list (string * CachedWallet) :=
  mapOf (map (fun w => (cw_address w, w)) (existingWallets cache tokenMint)).

Definition mergeBalances (now : Timestamp) (existingMap : list (string * CachedWallet))
    (walletData : list WalletBalance) : list (string * CachedWallet) :=
  fold_left (mergeWallet now) walletData existingMap.

Definition cacheWalletBalances (now : Timestamp) (st : Storage) (tokenMint : string)
    (walletData : list WalletBalance) : Storage * list CachedWallet :=
  let existingMap := existingMapOf (balanceCache st) tokenMint in
  let wallets := mapValues (mergeBalances now existingMap walletData) in
  ({| balanceCache :=
        <[tokenMint := {| bc_wallets := wallets; bc_lastSync := now |}]> (balanceCache st);
      transactionCache := transactionCache st;
      syncState := updateSyncState (syncState st) tokenMint "balances" now |},
   wallets).

(** [new Date(tx.timestamp).getTime()]; a [null] timestamp is the epoch. *)
Definition timeKey (tx : Transaction) : Z := default 0 (tx_timestamp tx).

(** [Array.prototype.sort] with the comparator
    [(a, b) => new Date(b.timestamp) - new Date(a.timestamp)]: the stable
    sort, newest first. *)
Fixpoint insertByTime (tx : Transaction) (sorted : list Transaction) : list Transaction :=
  match sorted with
  | [] => [tx]
  | y :: rest =>
      if timeKey y <=? timeKey tx then tx :: y :: rest
      else y :: insertByTime tx rest
  end.

Definition sortNewestFirst (txs : list Transaction) : list Transaction :=
  foldr insertByTime [] txs.

(** Newest first: every transfer is at least as recent as the next. *)
Inductive newestFirst : list Transaction -> Prop :=
| newestFirst_nil : newestFirst []
| newestFirst_one tx : newestFirst [tx]
| newestFirst_cons tx y rest :
    timeKey y <= timeKey tx -> newestFirst (y :: rest) -> newestFirst (tx :: y :: rest).

(** [cache[tokenMint]?.transactions || []] *)
Definition existingTransactions (cache : gmap string TransactionCacheEntry)
    (tokenMint : string) : list Transaction :=
  default [] (tc_transactions <$> cache !! tokenMint).

(** [tx?.signature || null] *)
Definition signatureOrNull (tx : option Transaction) : option string :=
  match tx with
  | Some t => if truthyStr (tx_signature t) then Some (tx_signature t) else None
  | None => None
  end.

Record MergeReport := {
  added : nat;
  total : nat }.

Definition cacheTransactions (now : Timestamp) (st : Storage) (tokenMint : string)
    (newTransactions : list Transaction) : Storage * MergeReport :=
  let existing := existingTransactions (transactionCache st) tokenMint in
  let existingSignatures : gset string := list_to_set (map tx_signature existing) in
  let uniqueNew :=
    List.filter (fun tx => negb (bool_decide (tx_signature tx ∈ existingSignatures)))
      newTransactions in
  let merged := sortNewestFirst (uniqueNew ++ existing) in
  ({| balanceCache := balanceCache st;
      transactionCache :=
        <[tokenMint := {| tc_transactions := merged; tc_lastSync := now;
                          newestSignature := signatureOrNull (head merged);
                          oldestSignature := signatureOrNull (last merged) |}]>
          (transactionCache st);
      syncState := updateSyncState (syncState st) tokenMint "transactions" now |},
   {| added := length uniqueNew; total := length merged |}).

(** The set of cached transfers of a token, keyed by signature. *)
Definition cachedSignatures (st : Storage) (tokenMint : string) : gset string :=
  list_to_set (map tx_signature (existingTransactions (transactionCache st) tokenMint)).

End DataCache.

(** ** Activity status (HoldingsTable.jsx, [walletTransactionsMap],
    [getActivityStatus]) *)

Module Status.
Import Js History.

Definition FIFTEEN_MINS_MS : Z := 15 * 60 * 1000.
Definition TWENTY_FOUR_HOURS_MS : Z := 24 * 60 * 60 * 1000.

(** A transfer with the category the table gives it. *)
Record ProcessedTx := {
  ptx : Transaction;
  category : Classifier.TxType }.

Definition amountOf (tx : Transaction) : Q := Classifier.tt_amount (tx_transfer tx).
Definition typeOf (tx : Transaction) : Classifier.TxType := Classifier.tt_type (tx_transfer tx).

(** The value of [walletTransactionsMap] at a wallet (the record of
    connected wallets, which no status depends on, is left out). *)
Record WalletStats := {
  ws_transactions : list ProcessedTx;
  totalBought : Q;
  totalSold : Q;
  totalTransferredOut : Q;
  totalTransferredIn : Q }.

Definition stats0 : WalletStats :=
  {| ws_transactions := []; totalBought := 0; totalSold := 0;
     totalTransferredOut := 0; totalTransferredIn := 0 |}.

Definition isTracked (trackedAddresses : gset string) (address : option string) : bool :=
  match address with
  | Some a => truthyStr a && bool_decide (toLowerCase a ∈ trackedAddresses)
  | None => false
  end.

(** The category of a transfer; a type other than the four known ones is
    legacy data, read as a transfer out when it went to a tracked wallet and
    as a sale otherwise. *)
Definition categorize (trackedAddresses : gset string) (tx : Transaction)
    : Classifier.TxType :=
  match typeOf tx with
  | Classifier.BUY => Classifier.BUY
  | Classifier.TRANSFER_IN => Classifier.TRANSFER_IN
  | Classifier.TRANSFER_OUT => Classifier.TRANSFER_OUT
  | Classifier.SELL => Classifier.SELL
  | Classifier.LEGACY =>
      if isTracked trackedAddresses (Classifier.tt_toWallet (tx_transfer tx))
      then Classifier.TRANSFER_OUT else Classifier.SELL
  end.

(** The update of a wallet's record for one of its transfers. *)
Definition addTx (trackedAddresses : gset string) (walletData : WalletStats)
    (tx : Transaction) : WalletStats :=
  let processed := {| ptx := tx; category := categorize trackedAddresses tx |} in
  let amount := amountOf tx in
  match typeOf tx, category processed with
  | Classifier.BUY, _ =>
      {| ws_transactions := ws_transactions walletData ++ [processed];
         totalBought := (totalBought walletData + amount)%Q;
         totalSold := totalSold walletData;
         totalTransferredOut := totalTransferredOut walletData;
         totalTransferredIn := totalTransferredIn walletData |}
  | Classifier.TRANSFER_IN, _ =>
      {| ws_transactions := ws_transactions walletData ++ [processed];
         totalBought := (totalBought walletData + amount)%Q;
         totalSold := totalSold walletData;
         totalTransferredOut := totalTransferredOut walletData;
         totalTransferredIn := (totalTransferredIn walletData + amount)%Q |}
  | _, Classifier.TRANSFER_OUT =>
      {| ws_transactions := ws_transactions walletData ++ [processed];
         totalBought := totalBought walletData;
         totalSold := totalSold walletData;
         totalTransferredOut := (totalTransferredOut walletData + amount)%Q;
         totalTransferredIn := totalTransferredIn walletData |}
  | _, _ =>
      {| ws_transactions := ws_transactions walletData ++ [processed];
         totalBought := totalBought walletData;
         totalSold := (totalSold walletData + amount)%Q;
         totalTransferredOut := totalTransferredOut walletData;
         totalTransferredIn := totalTransferredIn walletData |}
  end.

(** The callback of [transactions.forEach]. *)
Definition groupTx (trackedAddresses : gset string) (map : gmap string WalletStats)
    (tx : Transaction) : gmap string WalletStats :=
  let walletKey := toLowerCase (tx_walletAddress tx) in
  if negb (truthyStr walletKey) then map
  else
    <[walletKey := addTx trackedAddresses (default stats0 (map !! walletKey)) tx]> map.

Definition walletTransactionsMap (transactions : list Transaction)
    (trackedAddresses : gset string) : gmap string WalletStats :=
  fold_left (groupTx trackedAddresses) transactions ∅.

Inductive ActivityStatus :=
| OUT | UNKNOWN | SELLING | SOLD | TRANSFERRED | RECEIVED | BUY | BOUGHT_MORE | HOLDING.

(** The variables of the single pass over a wallet's transfers. *)
Record Pass := {
  sellsIn15Mins : bool;
  sellsIn24Hours : bool;
  sellAmountIn24Hours : Q;
  transfersOutIn24Hours : bool;
  transfersInIn24Hours : bool;
  buysIn24Hours : bool;
  totalBuys : nat;
  totalTransfersIn : nat }.

Definition pass0 : Pass :=
  {| sellsIn15Mins := false; sellsIn24Hours := false; sellAmountIn24Hours := 0;
     transfersOutIn24Hours := false; transfersInIn24Hours := false;
     buysIn24Hours := false; totalBuys := 0; totalTransfersIn := 0 |}.

Definition isCategory (c : Classifier.TxType) (tx : ProcessedTx) : bool :=
  match c, category tx with
  | Classifier.BUY, Classifier.BUY
  | Classifier.SELL, Classifier.SELL
  | Classifier.TRANSFER_OUT, Classifier.TRANSFER_OUT
  | Classifier.TRANSFER_IN, Classifier.TRANSFER_IN
  | Classifier.LEGACY, Classifier.LEGACY => true
  | _, _ => false
  end.

(** The two counters, updated before the time window is looked at. *)
Definition count (p : Pass) (tx : ProcessedTx) : Pass :=
  {| sellsIn15Mins := sellsIn15Mins p; sellsIn24Hours := sellsIn24Hours p;
     sellAmountIn24Hours := sellAmountIn24Hours p;
     transfersOutIn24Hours := transfersOutIn24Hours p;
     transfersInIn24Hours := transfersInIn24Hours p;
     buysIn24Hours := buysIn24Hours p;
     totalBuys := if isCategory Classifier.BUY tx then S (totalBuys p) else totalBuys p;
     totalTransfersIn :=
       if isCategory Classifier.TRANSFER_IN tx then S (totalTransfersIn p)
       else totalTransfersIn p |}.

(** The two window checks for a transfer of age [txAge]. *)
Definition windows (p : Pass) (tx : ProcessedTx) (txAge : Z) : Pass :=
  let in24 := txAge <=? TWENTY_FOUR_HOURS_MS in
  {| sellsIn15Mins :=
       sellsIn15Mins p || ((txAge <=? FIFTEEN_MINS_MS) && isCategory Classifier.SELL tx);
     sellsIn24Hours := sellsIn24Hours p || (in24 && isCategory Classifier.SELL tx);
     sellAmountIn24Hours :=
       if in24 && isCategory Classifier.SELL tx
       then (sellAmountIn24Hours p + amountOf (ptx tx))%Q
       else sellAmountIn24Hours p;
     transfersOutIn24Hours :=
       transfersOutIn24Hours p || (in24 && isCategory Classifier.TRANSFER_OUT tx);
     transfersInIn24Hours :=
       transfersInIn24Hours p || (in24 && isCategory Classifier.TRANSFER_IN tx);
     buysIn24Hours := buysIn24Hours p || (in24 && isCategory Classifier.BUY tx);
     totalBuys := totalBuys p;
     totalTransfersIn := totalTransfersIn p |}.

(** [for (const tx of walletTxs)], with its [continue] and its [break]. *)
Fixpoint scanTxs (now : Timestamp) (p : Pass) (walletTxs : list ProcessedTx) : Pass :=
  match walletTxs with
  | [] => p
  | tx :: rest =>
      let p1 := count p tx in
      match tx_timestamp (ptx tx) with
      | None => scanTxs now p1 rest
      | Some timestamp =>
          let p2 := windows p1 tx (now - timestamp) in
          if sellsIn15Mins p2 then p2 else scanTxs now p2 rest
      end
  end.

Definition hasSignificantSell (totalAcquired : Q) (p : Pass) : bool :=
  if Qgtb totalAcquired 0
  then Qgtb (sellAmountIn24Hours p / totalAcquired) (5 # 100)
  else Qgtb (sellAmountIn24Hours p) 0.

(** The rules below SOLD, in their order. *)
Definition lowerPriority (p : Pass) : ActivityStatus :=
  if transfersOutIn24Hours p then TRANSFERRED
  else if transfersInIn24Hours p then RECEIVED
  else if buysIn24Hours p then
    (if (totalBuys p =? 1)%nat && (totalTransfersIn p =? 0)%nat then BUY else BOUGHT_MORE)
  else HOLDING.

Definition getActivityStatus (now : Timestamp) (transactions : list Transaction)
    (trackedAddresses : gset string) (walletAddress : string) (currentBalance : option Q)
    : ActivityStatus :=
  match currentBalance with
  | None => OUT
  | Some balance =>
      if Qle_bool balance 0 then OUT
      else
        let walletStats :=
          walletTransactionsMap transactions trackedAddresses !! toLowerCase walletAddress in
        let walletTxs := default [] (ws_transactions <$> walletStats) in
        match walletTxs with
        | [] => UNKNOWN
        | _ =>
            let p := scanTxs now pass0 walletTxs in
            let totalAcquired := default 0%Q (totalBought <$> walletStats) in
            if sellsIn15Mins p then SELLING
            else if sellsIn24Hours p && hasSignificantSell totalAcquired p then SOLD
            else lowerPriority p
        end
  end.

(** One iteration of the pass, up to its [break]. *)
Definition step (now : Timestamp) (p : Pass) (tx : ProcessedTx) : Pass :=
  match tx_timestamp (ptx tx) with
  | None => count p tx
  | Some timestamp => windows (count p tx) tx (now - timestamp)
  end.

(** *** Notions used to state the rules *)

(** The transfers that the grouping files under a wallet key, and a
    transfer with its category. *)
Definition ownTxs (walletKey : string) (transactions : list Transaction)
    : list Transaction :=
  List.filter
    (fun tx => truthyStr (toLowerCase (tx_walletAddress tx))
               && String.eqb (toLowerCase (tx_walletAddress tx)) walletKey)
    transactions.

Definition processed (trackedAddresses : gset string) (tx : Transaction) : ProcessedTx :=
  {| ptx := tx; category := categorize trackedAddresses tx |}.


(** The transfers the table holds for a wallet ([getWalletTransactions] of
    the table). *)
Definition walletTxsOf (transactions : list Transaction) (trackedAddresses : gset string)
    (walletAddress : string) : list ProcessedTx :=
  default []
    (ws_transactions <$>
       walletTransactionsMap transactions trackedAddresses !! toLowerCase walletAddress).

(** A transfer is within a window when it has a timestamp and its age is
    at most the window. *)
Definition within (now : Timestamp) (window : Z) (tx : ProcessedTx) : bool :=
  match tx_timestamp (ptx tx) with
  | Some timestamp => now - timestamp <=? window
  | None => false
  end.

Definition recent (c : Classifier.TxType) (now : Timestamp) (window : Z)
    (tx : ProcessedTx) : bool :=
  isCategory c tx && within now window tx.

Definition sumAmounts (txs : list ProcessedTx) : Q :=
  fold_left Qplus (map (fun tx => amountOf (ptx tx)) txs) 0%Q.

(** The amount disposed of within 24 hours. *)
Definition disposedIn24Hours (now : Timestamp) (walletTxs : list ProcessedTx) : Q :=
  sumAmounts (List.filter (recent Classifier.SELL now TWENTY_FOUR_HOURS_MS) walletTxs).

(** The total of the purchases alone (category BUY, the ACQUIRE of the
    specification). *)
Definition purchasedTotal (walletTxs : list ProcessedTx) : Q :=
  sumAmounts (List.filter (isCategory Classifier.BUY) walletTxs).

(** The total the table counts as acquired: purchases and received
    transfers. *)
Definition isAcquisition (tx : ProcessedTx) : bool :=
  isCategory Classifier.BUY tx || isCategory Classifier.TRANSFER_IN tx.

Definition acquiredTotal (walletTxs : list ProcessedTx) : Q :=
  sumAmounts (List.filter isAcquisition walletTxs).

(** The disposed amount exceeds 5% of a total, or is positive when no total
    is known. *)
Definition exceedsShare (disposed total : Q) : Prop :=
  (0 < total /\ (5 # 100) * total < disposed)%Q \/ (~ (0 < total) /\ 0 < disposed)%Q.

(** The SOLD rule as the specification words it, with the share taken of
    the purchases alone. *)
Definition soldRuleOfPurchases (now : Timestamp) (transactions : list Transaction)
    (trackedAddresses : gset string) (walletAddress : string) (balance : Q) : Prop :=
  let walletTxs := walletTxsOf transactions trackedAddresses walletAddress in
  (0 < balance)%Q ->
  walletTxs <> [] ->
  (exists tx, tx ∈ walletTxs /\ recent Classifier.SELL now TWENTY_FOUR_HOURS_MS tx = true) ->
  (forall tx, tx ∈ walletTxs -> recent Classifier.SELL now FIFTEEN_MINS_MS tx = false) ->
  (getActivityStatus now transactions trackedAddresses walletAddress (Some balance) = SOLD
   <-> exceedsShare (disposedIn24Hours now walletTxs) (purchasedTotal walletTxs)).

(** The outcome of the rules below SOLD, from what the wallet's transfers
    hold. *)
Definition lowerRules (now : Timestamp) (walletTxs : list ProcessedTx) : ActivityStatus :=
  if existsb (recent Classifier.TRANSFER_OUT now TWENTY_FOUR_HOURS_MS) walletTxs
  then TRANSFERRED
  else if existsb (recent Classifier.TRANSFER_IN now TWENTY_FOUR_HOURS_MS) walletTxs
  then RECEIVED
  else if existsb (recent Classifier.BUY now TWENTY_FOUR_HOURS_MS) walletTxs then
    (if (length (List.filter (isCategory Classifier.BUY) walletTxs) =? 1)%nat
        && (length (List.filter (isCategory Classifier.TRANSFER_IN) walletTxs) =? 0)%nat
     then BUY else BOUGHT_MORE)
  else HOLDING.

End Status.

(** ** Watch set (fetch-holders.js, [addWallets]) *)

Module WatchSet.
Import Js Balances.

(** The state update of [addWallets]: the new value of the wallet list. *)
Definition addWallets (prev newWallets : list Wallet) : list Wallet :=
  let existingAddresses : gset string :=
    list_to_set (map (fun w => toLowerCase (w_address w)) prev) in
  let uniqueNew :=
    List.filter
      (fun w => negb (bool_decide (toLowerCase (w_address w) ∈ existingAddresses)))
      newWallets in
  prev ++ uniqueNew.

(** Addresses pairwise distinct after case normalisation. *)
Definition uniqueAddresses (wallets : list Wallet) : Prop :=
  NoDup (map (fun w => toLowerCase (w_address w)) wallets).

End WatchSet.

(** ** Concrete inputs used by the examples *)

Module Fixtures.
Import Js Classifier History Balances.

Definition walletA : string := "7xKXtg2CW87d97TXJSDpbD5jBkheTqA83TZRuJosgAsU".
Definition walletB : string := "9WzDXwBbmkg8ZTbNMqUxvQRAyrZzDsGYdLVL9zYtAWWM".
Definition mintM : string := "So11111111111111111111111111111111111111112".

Definition tokens (owner : string) (amount : Z) : TokenBalance :=
  {| tb_mint := mintM; tb_owner := owner;
     tb_uiTokenAmount := Some {| uta_amount := amount; uta_decimals := 6 |} |}.

(** [walletA] sends 60 units of the token to [walletB] while its native
    balance moves by [lamports]. *)
Definition sends (lamports : Z) : RawTransaction :=
  {| preTokenBalances := [tokens walletA 100_000_000; tokens walletB 0];
     postTokenBalances := [tokens walletA 40_000_000; tokens walletB 60_000_000];
     accountKeys := [walletA; walletB];
     preBalances := [5_000_000_000; 1_000_000_000];
     postBalances := [5_000_000_000 + lamports; 1_000_000_000] |}.

Definition wallet (name address : string) : Wallet :=
  {| w_id := name; w_name := name; w_address := address; w_group := "";
     w_addedAt := 0 |}.

(** *** A wallet history and a clock for the status rules *)

Definition hour : Z := 60 * 60 * 1000.
Definition clockNow : Z := 1_700_000_000_000.

Definition transfer (type : TxType) (amount : Q) : TokenTransfer :=
  {| tt_type := type; tt_amount := amount; tt_rawAmount := 0; tt_decimals := 6;
     tt_toWallet := None; tt_fromWallet := None; tt_solChange := 0 |}.

Definition transferAt (sig : string) (hoursAgo : Z) (type : TxType) (amount : Q)
    : Transaction :=
  {| tx_signature := sig; tx_timestamp := Some (clockNow - hoursAgo * hour);
     tx_walletAddress := walletA; tx_transfer := transfer type amount |}.

(** A purchase of 10 and a received transfer of 1000 two days ago, a sale
    of 1 an hour ago. *)
Definition smallSale : list Transaction :=
  [ transferAt "sale" 1 SELL 1;
    transferAt "gift" 48 TRANSFER_IN 1000;
    transferAt "purchase" 48 BUY 10 ].

(** A sale of 1 an hour ago and a received transfer of 1000 two hours
    ago. *)
Definition saleAndGift : list Transaction :=
  [ transferAt "sale" 1 SELL 1;
    transferAt "gift" 2 TRANSFER_IN 1000 ].

(** *** Balances and a cache *)

Definition holding (address : string) (uiBalance : Q) : WalletBalance :=
  {| wb_wallet := wallet address address; wb_id := address; wb_balance := 0;
     wb_decimals := Some 6%nat; wb_uiBalance := uiBalance; wb_error := None;
     wb_lastUpdated := 0 |}.

Definition emptyStorage : DataCache.Storage :=
  {| DataCache.balanceCache := ∅; DataCache.transactionCache := ∅;
     DataCache.syncState := ∅ |}.

(** A cache that holds a balance and the transfers of [smallSale] under
    the key [mintM]. *)
Definition someStorage : DataCache.Storage :=
  (DataCache.cacheTransactions 5
     (DataCache.cacheWalletBalances 5 emptyStorage mintM [holding walletA 7]).1
     mintM smallSale).1.

(** An environment in which the privileged endpoint fails for [walletA]
    and knows of no asset for the others. *)
Definition flakyEnvironment : Environment :=
  {| cachedBalance := fun _ => None;
     getParsedTokenAccountsByOwner := fun _ => RpcAccounts [];
     getAssetsByOwner := fun address =>
       if String.eqb address walletA then HeliusFailed "fetch failed"
       else HeliusJson (Some []);
     clock := fun _ => clockNow |}.

(** *** A ledger *)

(** One page of three signatures, newest first; the details of the oldest
    cannot be fetched, the other two are transfers out of [walletA]. *)
Definition ledgerPage : list SigInfo :=
  [ {| signature := "s3"; blockTime := Some 1_700_000_300 |};
    {| signature := "s2"; blockTime := Some 1_700_000_200 |};
    {| signature := "s1"; blockTime := Some 1_700_000_100 |} ].

Definition ledger : Connection :=
  {| acceptsPublicKey := fun _ => true;
     getSignaturesForAddress := fun n _ _ =>
       match n with
       | O => Some ledgerPage
       | S _ => Some []
       end;
     getParsedTransaction := fun sig =>
       if String.eqb sig "s1" then None else Some (sends 0) |}.

End Fixtures.

(** * Further parts of the code *)

(** ** Notions about the classifier *)

Module ClassifierNotions.
Import Js Classifier.

(** Every record of [walletChanges] is filed under the lower-cased address
    it carries. *)
Definition keyed (changes : list (string * WalletChange)) : Prop :=
  Forall (fun e => e.1 = toLowerCase (wc_address e.2)) changes.

End ClassifierNotions.

(** ** Transaction history: the deep fetch and what a run leaves behind *)

Module HistoryMore.
Import Js Classifier History.

(** [deepFetchWalletTransactions]: a deep fetch for up to 100 transfers
    and 20 pages. *)
Definition deepFetchWalletTransactions (connection : Connection)
    (walletAddress tokenMint : string) : list Transaction :=
  getWalletTransactions connection walletAddress tokenMint 100 20 true None None.

(** The number of page requests among the events of a run, and the
    signatures examined. *)
Definition pageRequests (events : list Event) : nat :=
  length (List.filter (fun e => match e with PageRequested _ => true | _ => false end)
            events).

Definition examinations (events : list Event) : list string :=
  omap (fun e => match e with Examined sig => Some sig | _ => None end) events.

(** The details of a signature can be fetched; they classify as a transfer
    of the wallet. *)
Definition available (connection : Connection) (sig : string) : bool :=
  match getParsedTransaction connection sig with
  | Some _ => true
  | None => false
  end.

Definition classifies (connection : Connection) (walletAddress tokenMint : string)
    (sig : string) : bool :=
  match getParsedTransaction connection sig with
  | Some raw =>
      match parseTokenTransfer raw walletAddress tokenMint with
      | Some _ => true
      | None => false
      end
  | None => false
  end.

(** A returned transfer is the classification, for the queried wallet, of
    the details fetched for its signature. *)
Definition genuine (connection : Connection) (walletAddress tokenMint : string)
    (events : list Event) (tx : Transaction) : Prop :=
  tx_walletAddress tx = walletAddress /\
  tx_signature tx ∈ detailRequests events /\
  tx_signature tx ∈ examinations events /\
  exists raw, getParsedTransaction connection (tx_signature tx) = Some raw /\
              parseTokenTransfer raw walletAddress tokenMint = Some (tx_transfer tx).

(** What a deep fetch keeps true: it has examined every signature whose
    details it could fetch, and collected every one that classifies. *)
Definition exhaustive (connection : Connection) (walletAddress tokenMint : string)
    (f : Fetch) : Prop :=
  examinations (trace f) = List.filter (available connection) (detailRequests (trace f)) /\
  map tx_signature (transactions f)
    = List.filter (classifies connection walletAddress tokenMint)
        (detailRequests (trace f)).

End HistoryMore.

(** ** The response cache of the gateway (solanaApi.js, [getCached],
    [setCache], [getTokenBalance]) *)

Module Memo.
Import Js Balances.

(** The entries of the in-memory cache that hold balances:
    [{ data, timestamp }] by key. *)
Record Entry := {
  data : BalanceResult;
  timestamp : Timestamp }.

Definition CACHE_TTL_walletBalance : Z := 15 * 1000.

Definition getCached (now : Timestamp) (cache : gmap string Entry) (key : string) (ttl : Z)
    : option BalanceResult :=
  match cache !! key with
  | Some cached => if now - timestamp cached <? ttl then Some (data cached) else None
  | None => None
  end.

Definition setCache (now : Timestamp) (cache : gmap string Entry) (key : string)
    (result : BalanceResult) : gmap string Entry :=
  <[key := {| data := result; timestamp := now |}]> cache.

(** [`balance:${walletAddress}:${tokenMint}`] *)
Definition balanceKey (walletAddress tokenMint : string) : string :=
  "balance:" +:+ walletAddress +:+ ":" +:+ tokenMint.

(** [getTokenBalance] with the cache it reads and writes, on its own (no
    request for the same key in flight): the clock is read at [now] when
    the cache is looked up and at [later] when the answer of the node is
    stored. *)
Definition getTokenBalance (rpc : string -> RpcReply) (now later : Timestamp)
    (cache : gmap string Entry) (walletAddress tokenMint : string)
    : BalanceResult * gmap string Entry :=
  if negb (History.isValidAddress walletAddress)
  then (failedBalance "Invalid wallet address format", cache)
  else if negb (History.isValidAddress tokenMint)
  then (failedBalance "Invalid token mint format", cache)
  else
    let cacheKey := balanceKey walletAddress tokenMint in
    match getCached now cache cacheKey CACHE_TTL_walletBalance with
    | Some cached => (cached, cache)
    | None =>
        match rpc walletAddress with
        | RpcRejected message =>
            (failedBalance (if truthyStr message then message else "RPC request failed"),
             cache)
        | RpcAccounts [] =>
            let result :=
              {| br_balance := 0; br_decimals := 9; br_uiBalance := 0;
                 br_error := None |} in
            (result, setCache later cache cacheKey result)
        | RpcAccounts value =>
            let total := sumAccounts value in
            let result :=
              {| br_balance := total.1; br_decimals := total.2;
                 br_uiBalance := uiAmount total.1 total.2; br_error := None |} in
            (result, setCache later cache cacheKey result)
        end
    end.

(** The environment a cache stands for in a batch of balance fetches. *)
Definition environmentOf (rpc : string -> RpcReply) (now : Timestamp)
    (cache : gmap string Entry) (tokenMint : string) : Environment :=
  {| cachedBalance := fun address =>
       getCached now cache (balanceKey address tokenMint) CACHE_TTL_walletBalance;
     getParsedTokenAccountsByOwner := rpc;
     getAssetsByOwner := fun _ => HeliusJson None;
     clock := fun _ => now |}.

End Memo.

(** ** Reading the persistent caches (solanaApi.js, [isStale],
    [getCachedBalances], [getStaleWallets], [getCachedTransactions],
    [getNewestTransactionTime], the metadata and price caches,
    [getSyncNeeds], [clearTokenCache]) *)

Module CacheReads.
Import Js Balances History DataCache.

Definition TTL_TOKEN_METADATA : Z := 24 * 60 * 60 * 1000.
Definition TTL_TOKEN_PRICE : Z := 60 * 1000.
Definition TTL_WALLET_BALANCE : Z := 2 * 60 * 1000.
Definition TTL_TRANSACTIONS : Z := 30 * 1000.

(** [state[tokenMint]?.[dataType] || null] *)
Definition getLastSyncTime (st : Storage) (tokenMint dataType : string)
    : option Timestamp :=
  syncState st !! tokenMint ≫= fun times => times !! dataType.

(** [isStale(lastSync, ttl)] when [Date.now()] reads [clock]. *)
Definition isStale (clock : Timestamp) (lastSync : option Timestamp) (ttl : Z) : bool :=
  match lastSync with
  | None => true
  | Some t => let age := clock - t in ttl <? age
  end.

(** [{ wallets, lastSync, hasData, isStale }]; [isStale] is absent when
    nothing is cached for the token. *)
Record CachedBalances := {
  cb_wallets : list CachedWallet;
  cb_lastSync : option Timestamp;
  cb_hasData : bool;
  cb_isStale : option bool }.

Definition getCachedBalances (clock : Timestamp) (st : Storage) (tokenMint : string)
    : CachedBalances :=
  match balanceCache st !! tokenMint with
  | None =>
      {| cb_wallets := []; cb_lastSync := None; cb_hasData := false; cb_isStale := None |}
  | Some tokenCache =>
      {| cb_wallets := bc_wallets tokenCache;
         cb_lastSync := Some (bc_lastSync tokenCache);
         cb_hasData := (0 <? length (bc_wallets tokenCache))%nat;
         cb_isStale :=
           Some (isStale clock (Some (bc_lastSync tokenCache)) TTL_WALLET_BALANCE) |}
  end.

(** The callback of [allWallets.filter] in [getStaleWallets]. *)
Definition needsRefresh (clock : Timestamp) (cachedMap : list (string * CachedWallet))
    (maxAge : Z) (wallet : Wallet) : bool :=
  match mapGet (w_address wallet) cachedMap with
  | None => true
  | Some cachedWallet => let age := clock - lastUpdated cachedWallet in maxAge <? age
  end.

Definition getStaleWallets (clock : Timestamp) (st : Storage) (tokenMint : string)
    (allWallets : list Wallet) (maxAge : Z) : list Wallet :=
  let cached := getCachedBalances clock st tokenMint in
  let cachedMap := mapOf (map (fun w => (cw_address w, w)) (cb_wallets cached)) in
  List.filter (needsRefresh clock cachedMap maxAge) allWallets.

Record CachedTransactions := {
  ct_transactions : list Transaction;
  ct_lastSync : option Timestamp;
  ct_hasData : bool;
  ct_newestSignature : option string;
  ct_oldestSignature : option string }.

Definition getCachedTransactions (st : Storage) (tokenMint : string) : CachedTransactions :=
  match transactionCache st !! tokenMint with
  | None =>
      {| ct_transactions := []; ct_lastSync := None; ct_hasData := false;
         ct_newestSignature := None; ct_oldestSignature := None |}
  | Some tokenCache =>
      {| ct_transactions := tc_transactions tokenCache;
         ct_lastSync := Some (tc_lastSync tokenCache);
         ct_hasData := (0 <? length (tc_transactions tokenCache))%nat;
         ct_newestSignature := newestSignature tokenCache;
         ct_oldestSignature := oldestSignature tokenCache |}
  end.

(** [cached.transactions[0]?.timestamp || null] *)
Definition getNewestTransactionTime (st : Storage) (tokenMint : string)
    : option Timestamp :=
  let cached := getCachedTransactions st tokenMint in
  if negb (ct_hasData cached) then None
  else head (ct_transactions cached) ≫= tx_timestamp.

(** The token metadata and price caches. The metadata of a token is an
    object the cache stores as it is, with the time of caching added. *)
Section Tokens.
Variable Metadata : Type.

Record MetadataEntry := {
  me_metadata : Metadata;
  cachedAt : Timestamp;
  me_lastSync : Timestamp }.

(** [{ price, timestamp }] *)
Record PricePoint := {
  pp_price : option Q;
  pp_timestamp : Timestamp }.

Record PriceEntry := {
  currentPrice : option Q;
  priceChange24h : Q;
  priceHistory : list PricePoint;
  pe_lastSync : Timestamp }.

(** All five records kept in local storage. *)
Record Caches := {
  storage : Storage;
  metadataCache : gmap string MetadataEntry;
  priceCache : gmap string PriceEntry }.

Record CachedMetadata := {
  cm_metadata : option (Metadata * Timestamp);
  cm_lastSync : option Timestamp;
  cm_hasData : bool;
  cm_isStale : option bool }.

Definition getCachedTokenMetadata (clock : Timestamp) (caches : Caches)
    (tokenMint : string) : CachedMetadata :=
  match metadataCache caches !! tokenMint with
  | None =>
      {| cm_metadata := None; cm_lastSync := None; cm_hasData := false;
         cm_isStale := None |}
  | Some tokenCache =>
      {| cm_metadata := Some (me_metadata tokenCache, cachedAt tokenCache);
         cm_lastSync := Some (me_lastSync tokenCache);
         cm_hasData := true;
         cm_isStale :=
           Some (isStale clock (Some (me_lastSync tokenCache)) TTL_TOKEN_METADATA) |}
  end.

Definition cacheTokenMetadata (now : Timestamp) (caches : Caches) (tokenMint : string)
    (metadata : Metadata) : Caches :=
  {| storage := storage caches;
     metadataCache :=
       <[tokenMint := {| me_metadata := metadata; cachedAt := now; me_lastSync := now |}]>
         (metadataCache caches);
     priceCache := priceCache caches |}.

Record CachedPrice := {
  cp_price : option Q;
  cp_priceHistory : option (list PricePoint);
  cp_lastSync : option Timestamp;
  cp_hasData : bool;
  cp_isStale : option bool }.

Definition getCachedTokenPrice (clock : Timestamp) (caches : Caches) (tokenMint : string)
    : CachedPrice :=
  match priceCache caches !! tokenMint with
  | None =>
      {| cp_price := None; cp_priceHistory := None; cp_lastSync := None;
         cp_hasData := false; cp_isStale := None |}
  | Some tokenCache =>
      {| cp_price := currentPrice tokenCache;
         cp_priceHistory := Some (priceHistory tokenCache);
         cp_lastSync := Some (pe_lastSync tokenCache);
         cp_hasData := bool_decide (is_Some (currentPrice tokenCache));
         cp_isStale :=
           Some (isStale clock (Some (pe_lastSync tokenCache)) TTL_TOKEN_PRICE) |}
  end.

(** [cache[tokenMint] || { priceHistory: [] }], of which only the history
    is read. *)
Definition existingHistory (cache : gmap string PriceEntry) (tokenMint : string)
    : list PricePoint :=
  default [] (priceHistory <$> cache !! tokenMint).

Definition cacheTokenPrice (now : Timestamp) (caches : Caches) (tokenMint : string)
    (price : option Q) (change24h : Q) : Caches :=
  let existing := existingHistory (priceCache caches) tokenMint in
  {| storage := storage caches;
     metadataCache := metadataCache caches;
     priceCache :=
       <[tokenMint :=
           {| currentPrice := price;
              priceChange24h := change24h;
              priceHistory :=
                sliceLast 99 existing ++ [ {| pp_price := price; pp_timestamp := now |} ];
              pe_lastSync := now |}]>
         (priceCache caches) |}.

Record SyncNeeds := {
  needsMetadata : bool;
  needsPrice : bool;
  needsBalances : bool;
  staleWallets : list Wallet;
  freshWallets : list Wallet;
  needsTransactions : bool;
  newestTxTime : option Timestamp }.

(** [!x.hasData || x.isStale]; without an entry [hasData] is false. *)
Definition needs (hasData : bool) (stale : option bool) : bool :=
  negb hasData || default false stale.

Definition getSyncNeeds (clock : Timestamp) (caches : Caches) (tokenMint : string)
    (wallets : list Wallet) : SyncNeeds :=
  let transactions := getCachedTransactions (storage caches) tokenMint in
  let metadata := getCachedTokenMetadata clock caches tokenMint in
  let price := getCachedTokenPrice clock caches tokenMint in
  let stale := getStaleWallets clock (storage caches) tokenMint wallets TTL_WALLET_BALANCE in
  {| needsMetadata := needs (cm_hasData metadata) (cm_isStale metadata);
     needsPrice := needs (cp_hasData price) (cp_isStale price);
     needsBalances := (0 <? length stale)%nat;
     staleWallets := stale;
     freshWallets :=
       List.filter
         (fun w => negb (existsb (fun s => String.eqb (w_address s) (w_address w)) stale))
         wallets;
     needsTransactions := isStale clock (ct_lastSync transactions) TTL_TRANSACTIONS;
     newestTxTime := getNewestTransactionTime (storage caches) tokenMint |}.

Definition clearTokenCache (caches : Caches) (tokenMint : string) : Caches :=
  {| storage :=
       {| balanceCache := delete tokenMint (balanceCache (storage caches));
          transactionCache := delete tokenMint (transactionCache (storage caches));
          syncState := delete tokenMint (syncState (storage caches)) |};
     metadataCache := delete tokenMint (metadataCache caches);
     priceCache := delete tokenMint (priceCache caches) |}.

End Tokens.

Arguments me_metadata {Metadata} _.
Arguments cachedAt {Metadata} _.
Arguments me_lastSync {Metadata} _.
Arguments storage {Metadata} _.
Arguments metadataCache {Metadata} _.
Arguments priceCache {Metadata} _.
Arguments cm_metadata {Metadata} _.
Arguments cm_lastSync {Metadata} _.
Arguments cm_hasData {Metadata} _.
Arguments cm_isStale {Metadata} _.
Arguments getCachedTokenMetadata {Metadata} _ _ _.
Arguments cacheTokenMetadata {Metadata} _ _ _ _.
Arguments getCachedTokenPrice {Metadata} _ _ _.
Arguments cacheTokenPrice {Metadata} _ _ _ _ _.
Arguments getSyncNeeds {Metadata} _ _ _ _.
Arguments clearTokenCache {Metadata} _ _.

End CacheReads.

(** ** The tracker hook (fetch-holders.js, [removeWallet],
    [replaceWallets], the initial balances and the transaction part of
    [fetchData]; storage.js, [loadInitialBalances], [saveInitialBalances]) *)

Module Tracker.
Import Js Classifier History Balances DataCache CacheReads WatchSet.

(** [removeWallet]: the new value of the wallet list. *)
Definition removeWallet (prev : list Wallet) (walletId : string) : list Wallet :=
  List.filter (fun w => negb (String.eqb (w_id w) walletId)) prev.

(** The edits of the wallet list that the hook offers: [addWallets],
    [replaceWallets] and [removeWallet]. *)
Inductive Edit :=
| AddWallets (newWallets : list Wallet)
| ReplaceWallets (newWallets : list Wallet)
| RemoveWallet (walletId : string).

Definition edit (wallets : list Wallet) (e : Edit) : list Wallet :=
  match e with
  | AddWallets newWallets => addWallets wallets newWallets
  | ReplaceWallets newWallets => newWallets
  | RemoveWallet walletId => removeWallet wallets walletId
  end.

(** The wallets an edit brings in. *)
Definition imported (e : Edit) : list Wallet :=
  match e with
  | AddWallets newWallets | ReplaceWallets newWallets => newWallets
  | RemoveWallet _ => []
  end.

(** *** Initial balances *)

(** [all[tokenMint] || {}] *)
Definition loadInitialBalances (all : gmap string (gmap string Q)) (tokenMint : string)
    : gmap string Q :=
  default ∅ (all !! tokenMint).

(** [{ ...all[tokenMint], ...balances }]: the incoming entries win. *)
Definition saveInitialBalances (all : gmap string (gmap string Q)) (tokenMint : string)
    (balances : gmap string Q) : gmap string (gmap string Q) :=
  <[tokenMint := balances ∪ default ∅ (all !! tokenMint)]> all.

(** The callback of [balances.forEach] in [fetchData], on the pair of
    [newInitials] and [hasNewInitials]. *)
Definition noteInitial (currentInitials : gmap string Q) (acc : gmap string Q * bool)
    (wallet : WalletBalance) : gmap string Q * bool :=
  let address := wb_address wallet in
  if bool_decide (currentInitials !! address = None) && Qgtb (wb_uiBalance wallet) 0
  then (<[address := wb_uiBalance wallet]> acc.1, true)
  else acc.

(** What [fetchData] does to the stored initial balances once the balances
    of a round are in. *)
Definition trackInitialBalances (all : gmap string (gmap string Q)) (tokenMint : string)
    (balances : list WalletBalance) : gmap string (gmap string Q) :=
  let currentInitials := loadInitialBalances all tokenMint in
  let noted := fold_left (noteInitial currentInitials) balances (∅, false) in
  if noted.2 then saveInitialBalances all tokenMint noted.1 else all.

(** *** The transfers of a round *)

Record Plan := {
  isIncremental : bool;
  sinceTimestamp : option Timestamp;
  TX_PER_WALLET : nat;
  MAX_PAGES : nat }.

(** Full or incremental, and since when. *)
Definition planTransactions (showLoading needsForceFullFetch : bool)
    (existingTxs : list Transaction) : Plan :=
  let shouldDoFullFetch :=
    showLoading || (length existingTxs =? 0)%nat || needsForceFullFetch in
  let since :=
    if negb shouldDoFullFetch && (0 <? length existingTxs)%nat
    then head (sortNewestFirst existingTxs) ≫= tx_timestamp
    else None in
  let incremental := negb shouldDoFullFetch in
  {| isIncremental := incremental;
     sinceTimestamp := since;
     TX_PER_WALLET := if incremental then 10 else 20;
     MAX_PAGES := if incremental then 1 else 3 |}.

(** The transfers in legacy storage ([cwt_transactions], also the state
    shown), the data cache, and the flag that forces a full fetch. *)
Record Store := {
  legacyTransactions : list Transaction;
  dataCache : Storage;
  forceFullFetch : bool }.

(** What all wallets of a round return, in the order of the wallets; the
    ledger answers each wallet as [ledgerOf] tells. *)
Definition fetchAll (ledgerOf : string -> Connection) (tokenMint : string) (plan : Plan)
    (knownSignatures : gset string) (validWallets : list Wallet) : list Transaction :=
  flat_map
    (fun wallet =>
       getWalletTransactions (ledgerOf (w_address wallet)) (w_address wallet) tokenMint
         (TX_PER_WALLET plan) (MAX_PAGES plan) false (sinceTimestamp plan)
         (Some knownSignatures))
    validWallets.

(** The transaction part of [fetchData] for a round that is not
    cancelled: [fetchData] returns before it when no wallet is valid. *)
Definition fetchTransactions (ledgerOf : string -> Connection) (now : Timestamp)
    (showLoading : bool) (store : Store) (tokenMint : string) (validWallets : list Wallet)
    : Store :=
  match validWallets with
  | [] => store
  | _ =>
      let existingTxs := legacyTransactions store in
      let knownSignatures : gset string := list_to_set (map tx_signature existingTxs) in
      let plan := planTransactions showLoading (forceFullFetch store) existingTxs in
      match fetchAll ledgerOf tokenMint plan knownSignatures validWallets with
      | [] =>
          {| legacyTransactions := if isIncremental plan then existingTxs else [];
             dataCache := dataCache store;
             forceFullFetch := false |}
      | newTxs =>
          let merged := (cacheTransactions now (dataCache store) tokenMint newTxs).1 in
          {| legacyTransactions := ct_transactions (getCachedTransactions merged tokenMint);
             dataCache := merged;
             forceFullFetch := false |}
      end
  end.

(** Nothing new on a ledger: every signature it serves is known already or
    has details that do not classify as a transfer of the wallet. *)
Definition nothingNew (connection : Connection) (walletAddress tokenMint : string)
    (known : gset string) : Prop :=
  forall n before limit page sig,
    getSignaturesForAddress connection n before limit = Some page ->
    sig ∈ page ->
    signature sig ∈ known
    \/ HistoryMore.classifies connection walletAddress tokenMint (signature sig) = false.

End Tracker.

(** ** Saved projects (projectStorage.js, [saveProject], [deleteProject]) *)

Module Projects.
Import Js Balances History.

(** [l.findIndex(p)], with [None] for -1. *)
Fixpoint findIndex {A : Type} (p : A -> bool) (l : list A) : option nat :=
  match l with
  | [] => None
  | x :: rest => if p x then Some O else S <$> findIndex p rest
  end.

(** [s || fallback] for a string that may be missing. *)
Definition orString (s : option string) (fallback : string) : string :=
  match s with
  | Some v => if truthyStr v then v else fallback
  | None => fallback
  end.

(** [s || null] *)
Definition orNull (s : option string) : option string :=
  match s with
  | Some v => if truthyStr v then Some v else None
  | None => None
  end.

Section Stored.
(** The token info cached with a project is stored as it is. *)
Variable TokenInfo : Type.

Record Project := {
  p_id : string;
  p_tokenMint : string;
  p_tokenName : string;
  p_tokenSymbol : string;
  p_tokenImage : option string;
  p_marketCap : Q;
  p_wallets : list Wallet;
  p_cachedWalletData : option (list WalletBalance);
  p_cachedTransactions : option (list Transaction);
  p_cachedTokenInfo : option TokenInfo;
  p_cachedInitialBalances : option (gmap string Q);
  p_createdAt : Timestamp;
  p_lastScanned : Timestamp }.

(** The argument of [saveProject]: apart from the token mint, every field
    may be missing. *)
Record ProjectInput := {
  in_id : option string;
  in_tokenMint : string;
  in_tokenName : option string;
  in_tokenSymbol : option string;
  in_tokenImage : option string;
  in_marketCap : option Q;
  in_wallets : option (list Wallet);
  in_cachedWalletData : option (list WalletBalance);
  in_cachedTransactions : option (list Transaction);
  in_cachedTokenInfo : option TokenInfo;
  in_cachedInitialBalances : option (gmap string Q);
  in_createdAt : option Timestamp }.

Definition sameToken (tokenMint : string) (p : Project) : bool :=
  String.eqb (toLowerCase (p_tokenMint p)) (toLowerCase tokenMint).

(** [{ ...p, createdAt }] *)
Definition withCreatedAt (p : Project) (createdAt : Timestamp) : Project :=
  {| p_id := p_id p; p_tokenMint := p_tokenMint p; p_tokenName := p_tokenName p;
     p_tokenSymbol := p_tokenSymbol p; p_tokenImage := p_tokenImage p;
     p_marketCap := p_marketCap p; p_wallets := p_wallets p;
     p_cachedWalletData := p_cachedWalletData p;
     p_cachedTransactions := p_cachedTransactions p;
     p_cachedTokenInfo := p_cachedTokenInfo p;
     p_cachedInitialBalances := p_cachedInitialBalances p;
     p_createdAt := createdAt; p_lastScanned := p_lastScanned p |}.

(** [saveProject]: the new list of projects and the project returned. The
    clock reads [now] for the creation date and [later] for the date of the
    last scan; [generated] is the id [generateId()] gives when it is
    called. *)
Definition saveProject (now later : Timestamp) (generated : string)
    (projects : list Project) (project : ProjectInput) : list Project * Project :=
  let existingIndex := findIndex (sameToken (in_tokenMint project)) projects in
  let projectData :=
    {| p_id := orString (in_id project) generated;
       p_tokenMint := in_tokenMint project;
       p_tokenName := orString (in_tokenName project) "Unknown";
       p_tokenSymbol := orString (in_tokenSymbol project) "???";
       p_tokenImage := orNull (in_tokenImage project);
       p_marketCap := default 0%Q (in_marketCap project);
       p_wallets := default [] (in_wallets project);
       p_cachedWalletData := in_cachedWalletData project;
       p_cachedTransactions := in_cachedTransactions project;
       p_cachedTokenInfo := in_cachedTokenInfo project;
       p_cachedInitialBalances := in_cachedInitialBalances project;
       p_createdAt := default now (in_createdAt project);
       p_lastScanned := later |} in
  match existingIndex with
  | Some index =>
      match projects !! index with
      | Some existing =>
          (<[index := withCreatedAt projectData (p_createdAt existing)]> projects,
           projectData)
      | None => (projects, projectData)
      end
  | None => (projectData :: projects, projectData)
  end.

(** [deleteProject]: the list of projects that is stored back. *)
Definition deleteProject (projects : list Project) (projectId : string) : list Project :=
  List.filter (fun p => negb (String.eqb (p_id p) projectId)) projects.

(** The token mints of the saved projects, in lower case. *)
Definition mintsOf (projects : list Project) : list string :=
  map (fun p => toLowerCase (p_tokenMint p)) projects.

End Stored.

Arguments p_id {TokenInfo} _.
Arguments p_tokenMint {TokenInfo} _.
Arguments p_createdAt {TokenInfo} _.
Arguments p_lastScanned {TokenInfo} _.
Arguments p_wallets {TokenInfo} _.
Arguments in_tokenMint {TokenInfo} _.
Arguments sameToken {TokenInfo} _ _.
Arguments withCreatedAt {TokenInfo} _ _.
Arguments saveProject {TokenInfo} _ _ _ _ _.
Arguments deleteProject {TokenInfo} _ _.
Arguments mintsOf {TokenInfo} _.

End Projects.

(** ** Market data (solanaApi.js, [fetchDexScreenerData],
    [getTokenPriceOnly]) *)

Module Market.
Import Js.

(** A trading pair as the market service reports it; a figure that is
    missing or not a number is [None]. *)
Record Pair := {
  pairAddress : string;
  liquidityUsd : option Q;
  priceUsd : option Q;
  priceChangeH24 : option Q;
  pairMarketCap : option Q;
  volumeH24 : option Q }.

(** [x || 0] *)
Definition orZero (x : option Q) : Q := default 0%Q x.

(** [pairs.sort((a, b) => (b.liquidity?.usd || 0) - (a.liquidity?.usd || 0))]:
    the stable sort, highest liquidity first. *)
Fixpoint insertByLiquidity (p : Pair) (sorted : list Pair) : list Pair :=
  match sorted with
  | [] => [p]
  | y :: rest =>
      if Qle_bool (orZero (liquidityUsd y)) (orZero (liquidityUsd p))
      then p :: y :: rest
      else y :: insertByLiquidity p rest
  end.

Definition sortByLiquidity (pairs : list Pair) : list Pair :=
  foldr insertByLiquidity [] pairs.

(** What [fetchDexScreenerData] resolves to when the cache holds nothing:
    [data.pairs] may be missing. *)
Definition bestPairOf (pairs : option (list Pair)) : option Pair :=
  match pairs with
  | Some (p :: rest) => head (sortByLiquidity (p :: rest))
  | _ => None
  end.

Record PriceOnly := {
  po_price : Q;
  po_priceChange24h : Q;
  po_marketCap : option Q;
  po_volume24h : option Q }.

(** [getTokenPriceOnly] on the answer of the market service. *)
Definition getTokenPriceOnly (pairs : option (list Pair)) : PriceOnly :=
  match bestPairOf pairs with
  | None =>
      {| po_price := 0; po_priceChange24h := 0; po_marketCap := None;
         po_volume24h := None |}
  | Some bestPair =>
      {| po_price := orZero (priceUsd bestPair);
         po_priceChange24h := orZero (priceChangeH24 bestPair);
         po_marketCap := Some (orZero (pairMarketCap bestPair));
         po_volume24h := Some (orZero (volumeH24 bestPair)) |}
  end.

End Market.

(** ** Address checks (fileParser.js, [isValidSolanaAddress]) *)

Module FileParser.
Import Js History.

(** [/^[1-9A-HJ-NP-Za-km-z]{32,44}$/.test(address)]: no trimming here. *)
Definition isValidSolanaAddress (address : string) : bool :=
  let chars := String.list_ascii_of_string address in
  ((32 <=? length chars) && (length chars <=? 44))%nat && forallb isBase58 chars.

End FileParser.

(** * Properties *)

Section JsFacts.
Import Js.

Lemma Qltb_lt (x y : Q) : Qltb x y = true <-> (x < y)%Q.
Proof.
unfold Qltb. rewrite negb_true_iff. split.
- intros H. apply Qnot_le_lt. intros Hle.
  apply Qle_bool_iff in Hle. congruence.
- intros H. destruct (Qle_bool y x) eqn:E; [|reflexivity].
  apply Qle_bool_iff in E. exfalso. exact (Qlt_not_le _ _ H E).
Qed.

Lemma Qgtb_gt (x y : Q) : Qgtb x y = true <-> (y < x)%Q.
Proof. unfold Qgtb. apply Qltb_lt. Qed.

End JsFacts.

(** ** The classifier *)

Section ClassifierFacts.
Import Js Classifier.

Variables walletNormalized mintNormalized : string.

Lemma preStep_unfound (s : Scan) (bal : TokenBalance) :
  foundMint (preStep walletNormalized mintNormalized s bal) = false ->
  preStep walletNormalized mintNormalized s bal = s.
Proof.
  unfold preStep. destruct (mintMatches mintNormalized bal); [|reflexivity].
  destruct (isOurWallet walletNormalized bal); simpl; discriminate.
Qed.

Lemma postStep_unfound (s : Scan) (bal : TokenBalance) :
  foundMint (postStep walletNormalized mintNormalized s bal) = false ->
  postStep walletNormalized mintNormalized s bal = s.
Proof.
  unfold postStep. destruct (mintMatches mintNormalized bal); [|reflexivity].
  destruct (isOurWallet walletNormalized bal); simpl; discriminate.
Qed.

(** A loop that never meets the mint leaves every variable as it was. *)
Lemma fold_unfound (step : Scan -> TokenBalance -> Scan) (bals : list TokenBalance) :
  (forall s bal, foundMint (step s bal) = false -> step s bal = s) ->
  forall s, foundMint (fold_left step bals s) = false -> fold_left step bals s = s.
Proof.
  intros Hstep. induction bals as [|bal bals IH]; intros s Hf; simpl in *.
  - reflexivity.
  - rewrite (IH _ Hf) in Hf |- *. now apply Hstep.
Qed.

End ClassifierFacts.

Section ClassifierSpec.
Import Js Classifier.

Lemma scanBalances_unfound (tx : RawTransaction) (w m : string) :
  foundMint (scanBalances tx w m) = false -> scanBalances tx w m = scan0.
Proof.
  unfold scanBalances. intros Hf.
  pose proof (fold_unfound _ _ (postStep_unfound w m) _ Hf) as Hpost.
  rewrite Hpost in Hf |- *.
  exact (fold_unfound _ _ (preStep_unfound w m) _ Hf).
Qed.

Lemma tokenChange_found (tx : RawTransaction) (walletAddress tokenMint : string) :
  tokenChangeOf tx walletAddress tokenMint <> 0 ->
  foundMint (scanBalances tx (trim walletAddress) (trim tokenMint)) = true.
Proof.
  unfold tokenChangeOf. intros Hne.
  destruct (foundMint _) eqn:Hf; [reflexivity|].
  rewrite (scanBalances_unfound _ _ _ Hf) in Hne. now elim Hne.
Qed.

Lemma tokenChange_balances (tx : RawTransaction) (walletAddress tokenMint : string) :
  tokenChangeOf tx walletAddress tokenMint <> 0 ->
  preTokenBalances tx <> [] \/ postTokenBalances tx <> [].
Proof.
  unfold tokenChangeOf, scanBalances. intros Hne.
  destruct (preTokenBalances tx); [|now left].
  destruct (postTokenBalances tx); [|now right].
  now elim Hne.
Qed.

(** The transfer the classifier builds once the wallet's token delta is
    known not to be zero. *)
Lemma parseTokenTransfer_changed (tx : RawTransaction) (walletAddress tokenMint : string) :
  tokenChangeOf tx walletAddress tokenMint <> 0 ->
  exists r, parseTokenTransfer tx walletAddress tokenMint = Some r /\
    tt_solChange r = solChangeInSolOf tx walletAddress /\
    tt_type r =
      if tokenChangeOf tx walletAddress tokenMint <? 0
      then (if Qgtb (solChangeInSolOf tx walletAddress) (1 # 1000) then SELL else TRANSFER_OUT)
      else (if Qltb (solChangeInSolOf tx walletAddress) (- (1 # 100)) then BUY else TRANSFER_IN).
Proof.
  intros Hne.
  pose proof (tokenChange_found _ _ _ Hne) as Hfound.
  pose proof (tokenChange_balances _ _ _ Hne) as Hbal.
  unfold parseTokenTransfer. unfold tokenChangeOf in *.
  set (s := scanBalances tx (trim walletAddress) (trim tokenMint)) in *.
  assert (Hbody : forall X : option TokenTransfer,
    match preTokenBalances tx, postTokenBalances tx with
    | [], [] => None
    | _, _ => X
    end = X).
  { intros X. destruct (preTokenBalances tx), (postTokenBalances tx); try reflexivity.
    destruct Hbal as [H|H]; now elim H. }
  rewrite Hbody, Hfound. simpl.
  apply Z.eqb_neq in Hne. rewrite Hne.
  destruct (postAmount s - preAmount s <? 0); eexists; (split; [reflexivity|]); simpl; auto.
Qed.


End ClassifierSpec.

(** ** The watch set *)

Section WatchSetSpec.
Import Js Balances WatchSet.

Lemma filter_unseen_spec (seen : gset string) (wallets : list Wallet) (w : Wallet) :
  w ∈ List.filter
        (fun w => negb (bool_decide (toLowerCase (w_address w) ∈ seen))) wallets ->
  w ∈ wallets /\ toLowerCase (w_address w) ∉ seen.
Proof.
  rewrite !list_elem_of_In, filter_In, negb_true_iff, bool_decide_eq_false.
  tauto.
Qed.

(** A batch that has no duplicate of its own keeps the watch set free of
    duplicates. *)
Lemma addWallets_unique (prev newWallets : list Wallet) :
  uniqueAddresses prev -> uniqueAddresses newWallets ->
  uniqueAddresses (addWallets prev newWallets).
Proof.
  unfold uniqueAddresses, addWallets. intros Hprev Hnew.
  rewrite map_app. apply NoDup_app. split; [exact Hprev|]. split.
  - intros a Ha Hin.
    apply list_elem_of_fmap in Hin as (w & -> & Hw).
    apply filter_unseen_spec in Hw as [_ Hw].
    apply Hw. now apply elem_of_list_to_set.
  - induction newWallets as [|w ws IH]; simpl; [constructor|].
    apply NoDup_cons in Hnew as [Hw Hws].
    destruct (negb _); [|now apply IH].
    simpl. apply NoDup_cons. split; [|now apply IH].
    intros Hin. apply Hw.
    apply list_elem_of_fmap in Hin as (w' & Heq & Hw').
    apply list_elem_of_fmap. exists w'. split; [exact Heq|].
    apply list_elem_of_In. apply list_elem_of_In in Hw'.
    now apply filter_In in Hw' as [Hw' _].
Qed.

End WatchSetSpec.

Section WatchSetBug.
Import Js Balances WatchSet Fixtures.

(** C9. The watch set is to keep its addresses unique up to case, and
    [addWallets] filters duplicates to that end. It compares the imported
    wallets with the wallets already watched only, not with each other:
    importing a batch that lists one address twice into an empty watch set
    stores the address twice, and the addresses of the result are not
    unique. *)
Theorem addWallets_keeps_batch_duplicates :
  uniqueAddresses [] /\
  addWallets [] [wallet "first" walletA; wallet "second" walletA]
    = [wallet "first" walletA; wallet "second" walletA] /\
  ~ uniqueAddresses (addWallets [] [wallet "first" walletA; wallet "second" walletA]).
Proof.
  split; [constructor|]. split; [reflexivity|].
  unfold uniqueAddresses. intros Hnd.
  apply NoDup_cons in Hnd as [Hnotin _]. apply Hnotin. left.
Qed.

End WatchSetBug.

Section ClassifierExamples.
Import Js Classifier Fixtures.

Example sends_for_payment :
  tt_type <$> parseTokenTransfer (sends 10_000_000) walletA mintM = Some SELL.
Proof. reflexivity. Qed.

Example sends_for_nothing :
  tt_type <$> parseTokenTransfer (sends 100_000) walletA mintM = Some TRANSFER_OUT.
Proof. reflexivity. Qed.

Example receives_for_nothing :
  tt_type <$> parseTokenTransfer (sends 0) walletB mintM = Some TRANSFER_IN.
Proof. reflexivity. Qed.

Example sends_counterparty :
  (parseTokenTransfer (sends 0) walletA mintM ≫= tt_toWallet) = Some walletB.
Proof. reflexivity. Qed.


End ClassifierExamples.

(** ** The data cache *)

Section CacheFrame.
Import Js Balances History DataCache.

Lemma updateSyncState_other (state : gmap string (gmap string Timestamp))
    (A B dataType : string) (timestamp : Timestamp) :
  A <> B -> updateSyncState state A dataType timestamp !! B = state !! B.
Proof. intros Hne. unfold updateSyncState. now rewrite lookup_insert_ne. Qed.

(** C5. Merging balances or transfers under the asset key [A] leaves what
    the cache holds under any other key [B] as it was: its balances, its
    transfers and its sync state. *)
Theorem cache_merge_isolated (now : Timestamp) (st : Storage) (A B : string)
    (walletData : list WalletBalance) (newTransactions : list Transaction) :
  A <> B ->
  let afterBalances := (cacheWalletBalances now st A walletData).1 in
  let afterTransfers := (cacheTransactions now st A newTransactions).1 in
  (balanceCache afterBalances !! B = balanceCache st !! B /\
   transactionCache afterBalances !! B = transactionCache st !! B /\
   syncState afterBalances !! B = syncState st !! B) /\
  (balanceCache afterTransfers !! B = balanceCache st !! B /\
   transactionCache afterTransfers !! B = transactionCache st !! B /\
   syncState afterTransfers !! B = syncState st !! B).
Proof.
  intros Hne. simpl.
  rewrite !lookup_insert_ne by exact Hne.
  rewrite !updateSyncState_other by exact Hne.
  repeat split.
Qed.

End CacheFrame.

Section CacheTransfers.
Import Js Balances History DataCache.

(** The sort only rearranges. *)
Lemma insertByTime_perm (tx : Transaction) (sorted : list Transaction) :
  insertByTime tx sorted ≡ₚ tx :: sorted.
Proof.
  induction sorted as [|y rest IH]; simpl; [reflexivity|].
  destruct (timeKey y <=? timeKey tx); [reflexivity|].
  rewrite IH. apply Permutation_swap.
Qed.

Lemma sortNewestFirst_perm (txs : list Transaction) : sortNewestFirst txs ≡ₚ txs.
Proof.
  induction txs as [|tx txs IH]; simpl; [reflexivity|].
  rewrite insertByTime_perm. now rewrite IH.
Qed.

Lemma insertByTime_sorted (tx : Transaction) (sorted : list Transaction) :
  newestFirst sorted -> newestFirst (insertByTime tx sorted).
Proof.
  induction 1 as [|y|y z rest Hyz Hrest IH]; simpl.
  - constructor.
  - destruct (timeKey y <=? timeKey tx) eqn:E.
    + constructor; [lia|constructor].
    + constructor; [lia|constructor].
  - destruct (timeKey y <=? timeKey tx) eqn:E.
    + constructor; [lia|]. now constructor.
    + simpl in IH. destruct (timeKey z <=? timeKey tx) eqn:E'.
      * constructor; [lia|]. exact IH.
      * constructor; [exact Hyz|]. exact IH.
Qed.

Lemma sortNewestFirst_sorted (txs : list Transaction) : newestFirst (sortNewestFirst txs).
Proof.
  induction txs as [|tx txs IH]; simpl; [constructor|].
  now apply insertByTime_sorted.
Qed.

(** A stable sort leaves a sorted list as it is. *)
Lemma sortNewestFirst_fixed (txs : list Transaction) :
  newestFirst txs -> sortNewestFirst txs = txs.
Proof.
  induction 1 as [|y|y z rest Hyz Hrest IH]; simpl; try reflexivity.
  simpl in IH. rewrite IH. simpl.
  apply Z.leb_le in Hyz. now rewrite Hyz.
Qed.

Lemma existingTransactions_insert (cache : gmap string TransactionCacheEntry)
    (tokenMint : string) (entry : TransactionCacheEntry) :
  existingTransactions (<[tokenMint := entry]> cache) tokenMint = tc_transactions entry.
Proof. unfold existingTransactions. now rewrite lookup_insert_eq. Qed.

Lemma filter_all_known (known : gset string) (txs : list Transaction) :
  (forall tx, tx ∈ txs -> tx_signature tx ∈ known) ->
  List.filter (fun tx => negb (bool_decide (tx_signature tx ∈ known))) txs = [].
Proof.
  induction txs as [|tx txs IH]; intros Hall; simpl; [reflexivity|].
  rewrite bool_decide_eq_true_2 by (apply Hall; left). simpl.
  apply IH. intros tx' Hin. apply Hall. now right.
Qed.

(** After a merge every incoming signature is a cached one. *)
Lemma merged_covers (existing newTransactions : list Transaction) (tx : Transaction) :
  let known : gset string := list_to_set (map tx_signature existing) in
  let uniqueNew :=
    List.filter (fun tx => negb (bool_decide (tx_signature tx ∈ known))) newTransactions in
  tx ∈ newTransactions ->
  tx_signature tx ∈
    (list_to_set (map tx_signature (sortNewestFirst (uniqueNew ++ existing))) : gset string).
Proof.
  intros known uniqueNew Hin.
  apply elem_of_list_to_set. rewrite sortNewestFirst_perm, map_app, elem_of_app.
  destruct (decide (tx_signature tx ∈ known)) as [Hk|Hk].
  - right. now apply elem_of_list_to_set in Hk.
  - left. apply list_elem_of_fmap. exists tx. split; [reflexivity|].
    apply list_elem_of_In, filter_In. split; [now apply list_elem_of_In|].
    now rewrite bool_decide_eq_false_2.
Qed.

(** What a merge stores and what it reports. *)
Lemma cacheTransactions_stored (now : Timestamp) (st : Storage) (tokenMint : string)
    (newTransactions : list Transaction) :
  let existing := existingTransactions (transactionCache st) tokenMint in
  let known : gset string := list_to_set (map tx_signature existing) in
  let uniqueNew :=
    List.filter (fun tx => negb (bool_decide (tx_signature tx ∈ known))) newTransactions in
  existingTransactions
    (transactionCache (cacheTransactions now st tokenMint newTransactions).1) tokenMint
    = sortNewestFirst (uniqueNew ++ existing) /\
  added (cacheTransactions now st tokenMint newTransactions).2 = length uniqueNew /\
  total (cacheTransactions now st tokenMint newTransactions).2
    = length (sortNewestFirst (uniqueNew ++ existing)).
Proof.
  simpl. rewrite existingTransactions_insert. simpl. repeat split.
Qed.

(** C4. Merging a list of transfers and then merging the same list again:
    the second merge adds nothing, reports the same total, and leaves the
    cached transfers of the asset (the list, hence the set of signatures)
    as the first merge left them. *)
Theorem cacheTransactions_idempotent (now1 now2 : Timestamp) (st : Storage)
    (tokenMint : string) (newTransactions : list Transaction) :
  let first := cacheTransactions now1 st tokenMint newTransactions in
  let second := cacheTransactions now2 first.1 tokenMint newTransactions in
  added second.2 = 0%nat /\
  total second.2 = total first.2 /\
  existingTransactions (transactionCache second.1) tokenMint
    = existingTransactions (transactionCache first.1) tokenMint /\
  cachedSignatures second.1 tokenMint = cachedSignatures first.1 tokenMint.
Proof.
  intros first second.
  destruct (cacheTransactions_stored now1 st tokenMint newTransactions)
    as (Hstored1 & _ & Htotal1).
  destruct (cacheTransactions_stored now2 first.1 tokenMint newTransactions)
    as (Hstored2 & Hadded2 & Htotal2).
  fold first in Hstored1, Htotal1, Hstored2, Hadded2, Htotal2.
  fold second in Hstored2, Hadded2, Htotal2.
  cbv zeta in *. clearbody second. clearbody first.
  set (merged := existingTransactions (transactionCache first.1) tokenMint) in *.
  assert (Hnone :
    List.filter
      (fun tx => negb (bool_decide (tx_signature tx ∈
         (list_to_set (map tx_signature merged) : gset string))))
      newTransactions = []).
  { apply filter_all_known. intros tx Hin. rewrite Hstored1.
    now apply merged_covers. }
  rewrite Hnone in Hstored2, Hadded2, Htotal2.
  change ([] ++ merged) with merged in *.
  assert (Hfixed : sortNewestFirst merged = merged).
  { apply sortNewestFirst_fixed. rewrite Hstored1. apply sortNewestFirst_sorted. }
  rewrite Hfixed in Hstored2, Htotal2.
  split; [exact Hadded2|]. split.
  - rewrite Htotal2, Htotal1. now rewrite <- Hstored1.
  - split; [exact Hstored2|].
    unfold cachedSignatures. fold merged. now rewrite Hstored2.
Qed.

End CacheTransfers.

Section JsMapFacts.
Import Js.
Context {V : Type}.
Implicit Types (m : list (string * V)) (k : string) (v : V).

Lemma mapGet_mapSet_eq k v m : mapGet k (mapSet k v m) = Some v.
Proof.
  induction m as [|[k' v'] m IH]; simpl.
  - now rewrite String.eqb_refl.
  - destruct (String.eqb k k') eqn:E; simpl.
    + now rewrite String.eqb_refl.
    + now rewrite E.
Qed.

Lemma mapGet_mapSet_ne k k' v m :
  k <> k' -> mapGet k' (mapSet k v m) = mapGet k' m.
Proof.
  intros Hne. induction m as [|[k0 v0] m IH]; simpl.
  - apply String.eqb_neq in Hne. rewrite String.eqb_sym in Hne. now rewrite Hne.
  - destruct (String.eqb k k0) eqn:E; simpl.
    + apply String.eqb_eq in E. subst k0.
      destruct (String.eqb k' k) eqn:E'; [|reflexivity].
      apply String.eqb_eq in E'. congruence.
    + now rewrite IH.
Qed.

Lemma mapGet_values k v m : mapGet k m = Some v -> v ∈ mapValues m.
Proof.
  unfold mapValues. induction m as [|[k' v'] m IH]; simpl; [discriminate|].
  destruct (String.eqb k k').
  - intros [= ->]. left.
  - intros H. right. now apply IH.
Qed.

End JsMapFacts.

Section CacheBalances.
Import Js Balances History DataCache.

Lemma sliceLast_length {A : Type} (n : nat) (l : list A) :
  (length (sliceLast n l) <= n)%nat.
Proof. unfold sliceLast. rewrite length_drop. lia. Qed.

Lemma mergeBalances_snoc (now : Timestamp) (m : list (string * CachedWallet))
    (pre : list WalletBalance) (wallet : WalletBalance) :
  mergeBalances now m (pre ++ [wallet]) = mergeWallet now (mergeBalances now m pre) wallet.
Proof. unfold mergeBalances. now rewrite fold_left_app. Qed.

(** Merging balances of other addresses does not touch the entry of an
    address. *)
Lemma mergeBalances_other (now : Timestamp) (address : string)
    (walletData : list WalletBalance) :
  address ∉ map wb_address walletData ->
  forall m, mapGet address (mergeBalances now m walletData) = mapGet address m.
Proof.
  unfold mergeBalances.
  induction walletData as [|w ws IH]; intros Hnotin m; simpl; [reflexivity|].
  simpl in Hnotin. apply not_elem_of_cons in Hnotin as [Hne Hnotin].
  rewrite (IH Hnotin). unfold mergeWallet. apply mapGet_mapSet_ne. congruence.
Qed.

(** The entry [mergeWallet] stores for an incoming balance. *)
Lemma mergeWallet_entry (now : Timestamp) (m : list (string * CachedWallet))
    (wallet : WalletBalance) :
  mapGet (wb_address wallet) (mergeWallet now m wallet) =
    Some {| cw_data := wallet;
            previousBalance := cw_uiBalance <$> mapGet (wb_address wallet) m;
            balanceHistory :=
              sliceLast 9 (default [] (balanceHistory <$> mapGet (wb_address wallet) m))
              ++ [ {| hp_balance := wb_uiBalance wallet; hp_timestamp := now |} ];
            firstSeen := default now (firstSeen <$> mapGet (wb_address wallet) m);
            lastUpdated := now |}.
Proof. unfold mergeWallet. apply mapGet_mapSet_eq. Qed.


End CacheBalances.

(** ** Batched balances *)

Section BatchFacts.
Import Js.

Lemma slicesFrom_concat {A : Type} (n : nat) :
  (0 < n)%nat ->
  forall (fuel : nat) (l : list A),
    (length l <= fuel)%nat -> concat (slicesFrom fuel n l) = l.
Proof.
  intros Hn. induction fuel as [|fuel IH]; intros l Hlen.
  - destruct l; [reflexivity|simpl in Hlen; lia].
  - destruct l as [|x l]; [reflexivity|].
    change (take n (x :: l) ++ concat (slicesFrom fuel n (drop n (x :: l))) = x :: l).
    rewrite IH; [apply take_drop|].
    rewrite length_drop. simpl in Hlen. simpl length. lia.
Qed.

Lemma slices_concat {A : Type} (n : nat) (l : list A) :
  (0 < n)%nat -> concat (slices n l) = l.
Proof. intros Hn. now apply slicesFrom_concat. Qed.

(** Appending the result of each batch gives the results of all elements
    in order. *)
Lemma fold_batches {A B : Type} (perBatch : list A -> list B) (f : A -> B) :
  (forall batch, perBatch batch = map f batch) ->
  forall (batches : list (list A)) (results : list B),
    fold_left (fun results batch => results ++ perBatch batch) batches results
      = results ++ map f (concat batches).
Proof.
  intros Hper. induction batches as [|batch batches IH]; intros results; simpl.
  - now rewrite app_nil_r.
  - rewrite IH, Hper, map_app. now rewrite <- app_assoc.
Qed.

End BatchFacts.

Section BatchBalances.
Import Js Balances.

Variables (tokenMint : string) (hasApiKey : bool) (apiKey : option string).

Lemma batchGetBalances_map (env : Environment) (wallets : list Wallet) :
  batchGetBalances env wallets tokenMint hasApiKey apiKey
    = map (balanceOf env tokenMint hasApiKey apiKey) wallets.
Proof.
  unfold batchGetBalances.
  rewrite (fold_batches _ (balanceOf env tokenMint hasApiKey apiKey)).
  - simpl. rewrite slices_concat; [reflexivity|]. destruct hasApiKey; lia.
  - intros batch. unfold balanceOf, fetchBalancesBatchHelius.
    now destruct (usesHelius hasApiKey apiKey).
Qed.

Lemma balanceOf_wallet (env : Environment) (w : Wallet) :
  wb_wallet (balanceOf env tokenMint hasApiKey apiKey w) = w /\
  wb_id (balanceOf env tokenMint hasApiKey apiKey w) = w_address w.
Proof.
  unfold balanceOf, heliusBalance, rpcBalance.
  destruct (usesHelius hasApiKey apiKey); [|now split].
  destruct (getAssetsByOwner env (w_address w)); [now split|].
  destruct (List.find _ _); now split.
Qed.

Lemma balanceOf_failure (env : Environment) (w : Wallet) :
  fetchFails env hasApiKey apiKey (w_address w) ->
  is_Some (wb_error (balanceOf env tokenMint hasApiKey apiKey w)) /\
  wb_balance (balanceOf env tokenMint hasApiKey apiKey w) = 0.
Proof.
  unfold fetchFails, balanceOf, heliusBalance, rpcBalance, getTokenBalance.
  destruct (usesHelius hasApiKey apiKey).
  - intros [message ->]. simpl. eauto.
  - intros [-> [message ->]].
    destruct (negb (History.isValidAddress (w_address w))); [simpl; eauto|].
    destruct (negb (History.isValidAddress tokenMint)); simpl; eauto.
Qed.

Lemma balanceOf_local (env env' : Environment) (w : Wallet) :
  sameAnswers env env' (w_address w) ->
  balanceOf env tokenMint hasApiKey apiKey w = balanceOf env' tokenMint hasApiKey apiKey w.
Proof.
  intros (Hc & Hr & Hh & Ht).
  unfold balanceOf, heliusBalance, rpcBalance, getTokenBalance.
  now rewrite Hc, Hr, Hh, Ht.
Qed.


End BatchBalances.

(** ** The activity status *)

Section StatusGrouping.
Import Js History Status.

Variable trackedAddresses : gset string.

Local Abbreviation processed := (Status.processed trackedAddresses).

Lemma groupTx_fold_lookup (walletKey : string) (transactions : list Transaction) :
  forall m : gmap string WalletStats,
    fold_left (groupTx trackedAddresses) transactions m !! walletKey =
      match ownTxs walletKey transactions with
      | [] => m !! walletKey
      | own => Some (fold_left (addTx trackedAddresses) own (default stats0 (m !! walletKey)))
      end.
Proof.
  induction transactions as [|tx txs IH]; intros m; simpl; [reflexivity|].
  rewrite IH. unfold groupTx.
  destruct (truthyStr (toLowerCase (tx_walletAddress tx))) eqn:Ht; simpl; [|reflexivity].
  destruct (String.eqb (toLowerCase (tx_walletAddress tx)) walletKey) eqn:Hk.
  - apply String.eqb_eq in Hk. subst walletKey.
    rewrite lookup_insert_eq. simpl. now destruct (ownTxs _ txs).
  - apply String.eqb_neq in Hk. now rewrite lookup_insert_ne.
Qed.

Lemma addTx_transactions (s : WalletStats) (tx : Transaction) :
  ws_transactions (addTx trackedAddresses s tx) = ws_transactions s ++ [processed tx].
Proof.
  unfold addTx, processed. simpl.
  destruct (typeOf tx); try reflexivity; now destruct (categorize trackedAddresses tx).
Qed.

Lemma addTx_totalBought (s : WalletStats) (tx : Transaction) :
  totalBought (addTx trackedAddresses s tx) =
    if isAcquisition (processed tx) then (totalBought s + amountOf tx)%Q else totalBought s.
Proof.
  unfold addTx, isAcquisition, isCategory, processed, categorize. simpl.
  destruct (typeOf tx); try reflexivity.
  now destruct (isTracked _ _).
Qed.

Lemma fold_addTx (own : list Transaction) :
  forall s : WalletStats,
    ws_transactions (fold_left (addTx trackedAddresses) own s)
      = ws_transactions s ++ map processed own /\
    totalBought (fold_left (addTx trackedAddresses) own s)
      = fold_left Qplus
          (map (fun tx => amountOf (ptx tx)) (List.filter isAcquisition (map processed own)))
          (totalBought s).
Proof.
  induction own as [|tx own IH]; intros s; simpl.
  - now rewrite app_nil_r.
  - destruct (IH (addTx trackedAddresses s tx)) as [Htxs Htotal].
    rewrite Htxs, Htotal, addTx_transactions, addTx_totalBought.
    split; [now rewrite <- app_assoc|].
    now destruct (isAcquisition (processed tx)).
Qed.

(** What the table holds for a wallet: its transfers in order, each with
    its category, and as acquired total the sum over purchases and received
    transfers. *)
Lemma walletStats_spec (transactions : list Transaction) (walletAddress : string) :
  let walletStats :=
    walletTransactionsMap transactions trackedAddresses !! toLowerCase walletAddress in
  walletTxsOf transactions trackedAddresses walletAddress
    = map processed (ownTxs (toLowerCase walletAddress) transactions) /\
  default 0%Q (totalBought <$> walletStats)
    = acquiredTotal (walletTxsOf transactions trackedAddresses walletAddress).
Proof.
  unfold walletTxsOf, walletTransactionsMap, acquiredTotal, sumAmounts. simpl.
  rewrite groupTx_fold_lookup, lookup_empty.
  destruct (ownTxs _ transactions) as [|tx own] eqn:Hown; simpl; [now split|].
  destruct (fold_addTx own (addTx trackedAddresses stats0 tx)) as [Htxs Htotal].
  rewrite Htxs, Htotal, addTx_transactions, addTx_totalBought. simpl.
  split; [reflexivity|].
  now destruct (isAcquisition (processed tx)).
Qed.

End StatusGrouping.

Section StatusPass.
Import Js History Status.

Variable now : Timestamp.

Lemma scanTxs_cons (p : Pass) (tx : ProcessedTx) (rest : list ProcessedTx) :
  sellsIn15Mins (step now p tx) = false ->
  scanTxs now p (tx :: rest) = scanTxs now (step now p tx) rest.
Proof.
  unfold step. cbn [scanTxs]. destruct (tx_timestamp (ptx tx)); [|reflexivity].
  now intros ->.
Qed.

Lemma within_timestamp (tx : ProcessedTx) (window : Z) (timestamp : Timestamp) :
  tx_timestamp (ptx tx) = Some timestamp ->
  (now - timestamp <=? window) = within now window tx.
Proof. unfold within. now intros ->. Qed.

Lemma recent_untimed (c : Classifier.TxType) (window : Z) (tx : ProcessedTx) :
  tx_timestamp (ptx tx) = None -> recent c now window tx = false.
Proof. unfold recent, within. intros ->. apply andb_false_r. Qed.

(** The effect of one iteration on each variable. *)
Lemma step_spec (p : Pass) (tx : ProcessedTx) :
  sellsIn15Mins (step now p tx)
    = sellsIn15Mins p || recent Classifier.SELL now FIFTEEN_MINS_MS tx /\
  sellsIn24Hours (step now p tx)
    = sellsIn24Hours p || recent Classifier.SELL now TWENTY_FOUR_HOURS_MS tx /\
  sellAmountIn24Hours (step now p tx)
    = (if recent Classifier.SELL now TWENTY_FOUR_HOURS_MS tx
       then (sellAmountIn24Hours p + amountOf (ptx tx))%Q else sellAmountIn24Hours p) /\
  transfersOutIn24Hours (step now p tx)
    = transfersOutIn24Hours p || recent Classifier.TRANSFER_OUT now TWENTY_FOUR_HOURS_MS tx /\
  transfersInIn24Hours (step now p tx)
    = transfersInIn24Hours p || recent Classifier.TRANSFER_IN now TWENTY_FOUR_HOURS_MS tx /\
  buysIn24Hours (step now p tx)
    = buysIn24Hours p || recent Classifier.BUY now TWENTY_FOUR_HOURS_MS tx /\
  totalBuys (step now p tx)
    = (totalBuys p + length (List.filter (isCategory Classifier.BUY) [tx]))%nat /\
  totalTransfersIn (step now p tx)
    = (totalTransfersIn p
       + length (List.filter (isCategory Classifier.TRANSFER_IN) [tx]))%nat.
Proof.
  unfold step, recent, within, isCategory.
  destruct (tx_timestamp (ptx tx)) as [timestamp|]; cbn [count windows
    sellsIn15Mins sellsIn24Hours sellAmountIn24Hours transfersOutIn24Hours
    transfersInIn24Hours buysIn24Hours totalBuys totalTransfersIn
    List.filter length isCategory].
  - set (in15 := now - timestamp <=? FIFTEEN_MINS_MS).
    set (in24 := now - timestamp <=? TWENTY_FOUR_HOURS_MS).
    destruct (category tx), in15, in24; cbn; rewrite ?orb_false_r, ?orb_true_r;
      repeat split; lia.
  - destruct (category tx); cbn; rewrite ?orb_false_r; repeat split; lia.
Qed.

(** The pass over transfers none of which is a sale of the last 15
    minutes runs to the end and leaves in each variable what the transfers
    hold. *)
Lemma scanTxs_quiet (walletTxs : list ProcessedTx) :
  (forall tx, tx ∈ walletTxs -> recent Classifier.SELL now FIFTEEN_MINS_MS tx = false) ->
  forall p : Pass, sellsIn15Mins p = false ->
    let p' := scanTxs now p walletTxs in
    sellsIn15Mins p' = false /\
    sellsIn24Hours p'
      = sellsIn24Hours p
        || existsb (recent Classifier.SELL now TWENTY_FOUR_HOURS_MS) walletTxs /\
    sellAmountIn24Hours p'
      = fold_left Qplus
          (map (fun tx => amountOf (ptx tx))
             (List.filter (recent Classifier.SELL now TWENTY_FOUR_HOURS_MS) walletTxs))
          (sellAmountIn24Hours p) /\
    transfersOutIn24Hours p'
      = transfersOutIn24Hours p
        || existsb (recent Classifier.TRANSFER_OUT now TWENTY_FOUR_HOURS_MS) walletTxs /\
    transfersInIn24Hours p'
      = transfersInIn24Hours p
        || existsb (recent Classifier.TRANSFER_IN now TWENTY_FOUR_HOURS_MS) walletTxs /\
    buysIn24Hours p'
      = buysIn24Hours p
        || existsb (recent Classifier.BUY now TWENTY_FOUR_HOURS_MS) walletTxs /\
    totalBuys p'
      = (totalBuys p + length (List.filter (isCategory Classifier.BUY) walletTxs))%nat /\
    totalTransfersIn p'
      = (totalTransfersIn p
         + length (List.filter (isCategory Classifier.TRANSFER_IN) walletTxs))%nat.
Proof.
  induction walletTxs as [|tx rest IH]; intros Hquiet p Hp.
  - simpl. rewrite !orb_false_r, !Nat.add_0_r. repeat split. exact Hp.
  - destruct (step_spec p tx) as (H15 & H24 & Hamt & Hout & Hin & Hbuy & Hnb & Hnt).
    assert (Hstep : sellsIn15Mins (step now p tx) = false).
    { rewrite H15, Hp. simpl. apply Hquiet. left. }
    cbv zeta. rewrite (scanTxs_cons _ _ _ Hstep).
    destruct (IH (fun tx' Hin' => Hquiet tx' (list_elem_of_further _ _ _ Hin'))
                 (step now p tx) Hstep)
      as (I15 & I24 & Iamt & Iout & Iin & Ibuy & Inb & Int).
    rewrite I15, I24, Iamt, Iout, Iin, Ibuy, Inb, Int.
    rewrite H24, Hamt, Hout, Hin, Hbuy, Hnb, Hnt.
    cbn [existsb List.filter]. rewrite <- !orb_assoc.
    repeat split.
    + now destruct (recent Classifier.SELL now TWENTY_FOUR_HOURS_MS tx).
    + destruct (isCategory Classifier.BUY tx); cbn [length]; lia.
    + destruct (isCategory Classifier.TRANSFER_IN tx); cbn [length]; lia.
Qed.

(** A sale of the last 15 minutes is always found. *)
Lemma scanTxs_selling (walletTxs : list ProcessedTx) :
  (exists tx, tx ∈ walletTxs /\ recent Classifier.SELL now FIFTEEN_MINS_MS tx = true) ->
  forall p : Pass, sellsIn15Mins (scanTxs now p walletTxs) = true.
Proof.
  induction walletTxs as [|tx rest IH]; intros (tx' & Hin & Hrecent) p.
  - now apply elem_of_nil in Hin.
  - destruct (sellsIn15Mins (step now p tx)) eqn:Hstep.
    + unfold step in Hstep. cbn [scanTxs].
      destruct (tx_timestamp (ptx tx)) as [timestamp|] eqn:Ht.
      * now rewrite Hstep.
      * apply elem_of_cons in Hin as [->|Hin].
        -- now rewrite (recent_untimed _ _ _ Ht) in Hrecent.
        -- apply IH. eauto.
    + rewrite (scanTxs_cons _ _ _ Hstep).
      apply elem_of_cons in Hin as [->|Hin].
      * destruct (step_spec p tx) as (H15 & _).
        rewrite H15, Hrecent, orb_true_r in Hstep. discriminate.
      * apply IH. eauto.
Qed.

End StatusPass.

Section StatusRules.
Import Js History Status.

Variables (now : Timestamp) (transactions : list Transaction) (trackedAddresses : gset string).
Variable walletAddress : string.

Local Abbreviation walletTxs := (walletTxsOf transactions trackedAddresses walletAddress).
Local Abbreviation statusOf :=
  (getActivityStatus now transactions trackedAddresses walletAddress).

Lemma hasSignificantSell_spec (total : Q) (p : Pass) :
  hasSignificantSell total p = true <-> exceedsShare (sellAmountIn24Hours p) total.
Proof.
  unfold hasSignificantSell, exceedsShare.
  destruct (Qgtb total 0) eqn:Htotal.
  - apply Qgtb_gt in Htotal. rewrite Qgtb_gt.
    assert (Hnz : ~ (total == 0)%Q).
    { intros Hz. rewrite Hz in Htotal. exact (Qlt_irrefl _ Htotal). }
    split.
    + intros Hratio. left. split; [exact Htotal|].
      apply (Qmult_lt_r _ _ total Htotal) in Hratio.
      unfold Qdiv in Hratio.
      rewrite <- Qmult_assoc, (Qmult_comm (/ total)), Qmult_inv_r, Qmult_1_r in Hratio
        by exact Hnz.
      exact Hratio.
    + intros [[_ Hshare]|[Hneg _]]; [|now elim Hneg].
      now apply Qlt_shift_div_l.
  - assert (Hneg : ~ (0 < total)%Q).
    { intros Hpos. apply Qgtb_gt in Hpos. congruence. }
    rewrite Qgtb_gt. split.
    + intros Hpos. now right.
    + intros [[Hpos _]|[_ Hpos]]; [now elim Hneg|exact Hpos].
Qed.

Lemma exceedsShare_dec (disposed total : Q) :
  {exceedsShare disposed total} + {~ exceedsShare disposed total}.
Proof.
  unfold exceedsShare.
  destruct (Qlt_le_dec 0 total) as [Hpos|Hle].
  - destruct (Qlt_le_dec ((5 # 100) * total) disposed) as [Hlt|Hge].
    + left. now left.
    + right. intros [[_ Hlt]|[Hneg _]]; [exact (Qlt_not_le _ _ Hlt Hge)|now elim Hneg].
  - assert (Hneg : ~ (0 < total)%Q) by (intros Hpos; exact (Qlt_not_le _ _ Hpos Hle)).
    destruct (Qlt_le_dec 0 disposed) as [Hlt|Hge].
    + left. now right.
    + right. intros [[Hpos _]|[_ Hlt]]; [now elim Hneg|exact (Qlt_not_le _ _ Hlt Hge)].
Qed.

(** The rules that remain once the balance is positive and the wallet has
    transfers. *)
Lemma getActivityStatus_rules (balance : Q) :
  (0 < balance)%Q -> walletTxs <> [] ->
  statusOf (Some balance) =
    let p := scanTxs now pass0 walletTxs in
    if sellsIn15Mins p then SELLING
    else if sellsIn24Hours p && hasSignificantSell (acquiredTotal walletTxs) p then SOLD
    else lowerPriority p.
Proof.
  intros Hpos Hsome. unfold getActivityStatus.
  assert (Hle : Qle_bool balance 0 = false).
  { destruct (Qle_bool balance 0) eqn:E; [|reflexivity].
    apply Qle_bool_iff in E. exfalso. exact (Qlt_not_le _ _ Hpos E). }
  rewrite Hle.
  destruct (walletStats_spec trackedAddresses transactions walletAddress) as [_ Htotal].
  cbv zeta in Htotal. rewrite Htotal.
  change (default [] (ws_transactions <$>
            walletTransactionsMap transactions trackedAddresses
              !! toLowerCase walletAddress)) with walletTxs.
  destruct walletTxs; [now elim Hsome|reflexivity].
Qed.

Lemma lowerPriority_quiet (txs : list ProcessedTx) :
  (forall tx, tx ∈ txs -> recent Classifier.SELL now FIFTEEN_MINS_MS tx = false) ->
  lowerPriority (scanTxs now pass0 txs) = lowerRules now txs.
Proof.
  intros Hquiet.
  destruct (scanTxs_quiet now txs Hquiet pass0 eq_refl)
    as (_ & _ & _ & Hout & Hin & Hbuy & Hnb & Hnt).
  unfold lowerPriority, lowerRules. now rewrite Hout, Hin, Hbuy, Hnb, Hnt.
Qed.

Lemma lowerRules_not_sold (txs : list ProcessedTx) : lowerRules now txs <> SOLD.
Proof.
  unfold lowerRules.
  repeat match goal with |- context [if ?b then _ else _] => destruct b end;
    discriminate.
Qed.

Lemma recent_exists (c : Classifier.TxType) (window : Z) (txs : list ProcessedTx) :
  existsb (recent c now window) txs = true <->
  exists tx, tx ∈ txs /\ recent c now window tx = true.
Proof.
  rewrite existsb_exists. split; intros (tx & Hin & Hr); exists tx;
    (split; [now apply list_elem_of_In|exact Hr]).
Qed.

(** The status of a wallet with a positive balance and a sale in the last
    24 hours but none in the last 15 minutes. *)
Lemma status_after_quiet_sale (balance : Q) :
  (0 < balance)%Q ->
  (exists tx, tx ∈ walletTxs /\ recent Classifier.SELL now TWENTY_FOUR_HOURS_MS tx = true) ->
  (forall tx, tx ∈ walletTxs -> recent Classifier.SELL now FIFTEEN_MINS_MS tx = false) ->
  (exceedsShare (disposedIn24Hours now walletTxs) (acquiredTotal walletTxs) ->
     statusOf (Some balance) = SOLD) /\
  (~ exceedsShare (disposedIn24Hours now walletTxs) (acquiredTotal walletTxs) ->
     statusOf (Some balance) = lowerRules now walletTxs).
Proof.
  intros Hpos Hsale Hquiet.
  assert (Hsome : walletTxs <> []).
  { destruct Hsale as (tx & Hin & _). intros Hnil. rewrite Hnil in Hin.
    now apply elem_of_nil in Hin. }
  rewrite (getActivityStatus_rules balance Hpos Hsome). cbv zeta.
  destruct (scanTxs_quiet now walletTxs Hquiet pass0 eq_refl)
    as (H15 & H24 & Hamt & _).
  rewrite H15, H24. simpl sellsIn24Hours. simpl orb.
  apply recent_exists in Hsale. rewrite Hsale. simpl andb.
  pose proof (hasSignificantSell_spec (acquiredTotal walletTxs)
                (scanTxs now pass0 walletTxs)) as Hsig.
  rewrite Hamt in Hsig. simpl sellAmountIn24Hours in Hsig.
  fold (sumAmounts
          (List.filter (recent Classifier.SELL now TWENTY_FOUR_HOURS_MS) walletTxs)) in Hsig.
  fold (disposedIn24Hours now walletTxs) in Hsig.
  destruct (hasSignificantSell _ _).
  - split; [reflexivity|]. intros Hno. elim Hno. now apply Hsig.
  - split.
    + intros Hyes. apply Hsig in Hyes. discriminate.
    + intros _. now apply lowerPriority_quiet.
Qed.



End StatusRules.

Section StatusExamples.
Import Js History Status Fixtures.

Lemma quiet_existsb (c : Classifier.TxType) (now : Timestamp) (window : Z)
    (txs : list ProcessedTx) :
  existsb (recent c now window) txs = false ->
  forall tx, tx ∈ txs -> recent c now window tx = false.
Proof.
  intros Hnone tx Hin. destruct (recent c now window tx) eqn:Hr; [|reflexivity].
  assert (Hex : existsb (recent c now window) txs = true)
    by (apply recent_exists; eauto).
  congruence.
Qed.

Example smallSale_status :
  getActivityStatus clockNow smallSale ∅ walletA (Some 1009%Q) = HOLDING.
Proof. vm_compute. reflexivity. Qed.

Example largeSale_status :
  getActivityStatus clockNow
    (transferAt "large" 3 Classifier.SELL 100 :: smallSale) ∅ walletA (Some 909%Q) = SOLD.
Proof. vm_compute. reflexivity. Qed.

Example saleAndGift_status :
  getActivityStatus clockNow saleAndGift ∅ walletA (Some 999%Q) = RECEIVED.
Proof. vm_compute. reflexivity. Qed.




End StatusExamples.

Section CacheExamples.
Import Js Balances History DataCache Fixtures.

Example someStorage_transfers :
  map tx_signature (existingTransactions (transactionCache someStorage) mintM)
    = ["sale"; "gift"; "purchase"].
Proof. vm_compute. reflexivity. Qed.

Example merge_twice_report :
  (cacheTransactions 9 someStorage mintM smallSale).2 = {| added := 0; total := 3 |}.
Proof. vm_compute. reflexivity. Qed.

Lemma cache_merge_isolated_someStorage :
  let after := (cacheTransactions 9 someStorage walletB [transferAt "new" 0 Classifier.BUY 1]).1 in
  transactionCache after !! mintM = transactionCache someStorage !! mintM /\
  balanceCache after !! mintM = balanceCache someStorage !! mintM.
Proof.
  destruct (cache_merge_isolated 9 someStorage walletB mintM []
              [transferAt "new" 0 Classifier.BUY 1]) as [_ (Hb & Ht & _)].
  - vm_compute. discriminate.
  - split; [exact Ht|exact Hb].
Defined.


End CacheExamples.

Section BatchExamples.
Import Js Balances Fixtures.


Example flaky_other_result :
  wb_error <$> (batchGetBalances flakyEnvironment [wallet "a" walletA; wallet "b" walletB]
                  mintM true (Some "key") !! 1%nat) = Some None.
Proof. vm_compute. reflexivity. Qed.

End BatchExamples.

(** ** Transaction history *)

Section HistoryLoop.
Import Js Classifier History.

Variable connection : Connection.
Variables walletAddress tokenMint : string.
Variables targetCount maxPages : nat.
Variable deepFetch : bool.
Variable sinceTimestamp : option Timestamp.
Variable knownSignatures : option (gset string).

Local Abbreviation processResults' :=
  (processResults walletAddress tokenMint targetCount deepFetch).
Local Abbreviation processBatches' :=
  (processBatches connection walletAddress tokenMint targetCount deepFetch knownSignatures).
Local Abbreviation pages' :=
  (pages connection walletAddress tokenMint targetCount maxPages deepFetch
     sinceTimestamp knownSignatures).
Local Abbreviation run' :=
  (run connection walletAddress tokenMint targetCount maxPages deepFetch
     sinceTimestamp knownSignatures).

(** The loop never runs out of the iterations it is given. *)
Lemma pages_total (fuel : nat) :
  forall f : Fetch,
    (deepFetch = true -> (pagesSearched f < 15)%nat) ->
    (pageBound maxPages deepFetch <= pagesSearched f + fuel)%nat ->
    pages' fuel f <> OutOfFuel.
Proof.
  unfold pageBound.
  induction fuel as [|fuel IH]; intros f Hdeep Hbound; cbn [pages].
  - destruct (whileCondition maxPages deepFetch f) eqn:Hcond; [|discriminate].
    exfalso. unfold whileCondition in Hcond.
    destruct deepFetch.
    + specialize (Hdeep eq_refl). lia.
    + rewrite orb_false_r in Hcond. apply andb_true_iff in Hcond as [Hlt _].
      apply Nat.ltb_lt in Hlt. lia.
  - destruct (negb (whileCondition maxPages deepFetch f)); [discriminate|].
    destruct (getSignaturesForAddress _ _ _ _) as [[|sig sigs]|]; try discriminate.
    destruct (sinceCut _ _ _) as [[cut reached]|]; [|discriminate].
    destruct (processBatches' _ _) as [f2 []]; [discriminate|].
    destruct (deepFetch && (15 <=? S (pagesSearched f))%nat) eqn:Hstop; [discriminate|].
    destruct (negb deepFetch && (maxPages <=? S (pagesSearched f))%nat) eqn:Hmax;
      [discriminate|].
    apply IH; cbn [pagesSearched].
    + intros Htrue. rewrite Htrue, andb_true_l in Hstop.
      apply Nat.leb_gt in Hstop. lia.
    + destruct deepFetch; lia.
Qed.

(** The function always returns: with the list it collected, or with the
    empty list after an exception. *)
Lemma run_total : (exists f, run' = Completed f) \/ run' = Threw.
Proof.
  unfold run.
  destruct (negb (isValidAddress walletAddress) || negb (isValidAddress tokenMint));
    [left; eauto|].
  destruct (negb (acceptsPublicKey connection (trim walletAddress))); [now right|].
  pose proof (pages_total (pageBound maxPages deepFetch) fetch0) as Htotal.
  destruct (pages' _ _) as [f| |]; [left; eauto|now right|].
  exfalso. apply Htotal; [simpl; lia|simpl; lia|reflexivity].
Qed.

(** A property of the collected data that the bookkeeping of the loop
    keeps, and that every batch either keeps ([Inv]) or ends on ([Done],
    when the function returns from inside the batch), holds when the
    function completes. *)
Lemma pages_invariant (Inv Done : Fetch -> Prop) :
  (forall f ls ps r, Inv f ->
     Inv {| transactions := transactions f; lastSignature := ls; pagesSearched := ps;
            reachedKnownData := r; trace := trace f |}) ->
  (forall f before, Inv f -> Inv (log [PageRequested before] f)) ->
  (forall f n before page reached cut reached',
     getSignaturesForAddress connection n before SIGS_PER_PAGE = Some page ->
     sinceCut sinceTimestamp reached page = Some (cut, reached') ->
     Inv f ->
     match processBatches' f (slices PARALLEL_BATCH_SIZE cut) with
     | (f', true) => Done f'
     | (f', false) => Inv f'
     end) ->
  forall (fuel : nat) (f : Fetch), Inv f ->
    match pages' fuel f with
    | Completed f' => Inv f' \/ Done f'
    | Threw | OutOfFuel => True
    end.
Proof.
  intros Hfields Hlog Hbatches.
  induction fuel as [|fuel IH]; intros f Hf; cbn [pages].
  - destruct (negb (whileCondition maxPages deepFetch f)); [now left|exact I].
  - destruct (negb (whileCondition maxPages deepFetch f)); [now left|].
    destruct (getSignaturesForAddress _ _ _ _) as [[|sig sigs]|] eqn:Hpage;
      [left; now apply Hlog| |exact I].
    destruct (sinceCut _ _ _) as [[cut reached]|] eqn:Hcut.
    + pose proof (Hbatches
        {| transactions := transactions f; lastSignature := lastSignature f;
           pagesSearched := S (pagesSearched f); reachedKnownData := reached;
           trace := trace (log [PageRequested (beforeOf f)] f) |}
        _ _ _ _ _ _ Hpage Hcut) as Hstep.
      destruct (processBatches' _ _) as [f2 []].
      * right. apply Hstep.
        apply (Hfields (log [PageRequested (beforeOf f)] f)). now apply Hlog.
      * assert (Hf2 : Inv f2).
        { apply Hstep.
          apply (Hfields (log [PageRequested (beforeOf f)] f)). now apply Hlog. }
        destruct (deepFetch && _); [left; now apply Hfields|].
        destruct (negb deepFetch && _); [left; now apply Hfields|].
        apply IH. now apply Hfields.
    + left. apply (Hfields (log [PageRequested (beforeOf f)] f)). now apply Hlog.
Qed.

End HistoryLoop.

Section HistoryTarget.
Import Js Classifier History.

Variable connection : Connection.
Variables walletAddress tokenMint : string.
Variables targetCount maxPages : nat.
Variable sinceTimestamp : option Timestamp.
Variable knownSignatures : option (gset string).

Local Abbreviation below := (fun f : Fetch => (length (transactions f) < targetCount)%nat).

Lemma processResults_target (txResults : list (SigInfo * option RawTransaction)) :
  forall f : Fetch, below f ->
    match processResults walletAddress tokenMint targetCount false f txResults with
    | (f', true) => returnedAtTarget targetCount f'
    | (f', false) => below f'
    end.
Proof.
  induction txResults as [|[sig [tx|]] rest IH]; intros f Hf; cbn [processResults].
  - exact Hf.
  - destruct (parseTokenTransfer tx walletAddress tokenMint) as [tokenTransfer|].
    + cbn [negb andb].
      destruct (targetCount <=? _)%nat eqn:Hreached.
      * apply Nat.leb_le in Hreached. unfold returnedAtTarget.
        cbn [push log transactions trace] in Hreached |- *.
        rewrite length_app in Hreached |- *. cbn [length] in Hreached |- *.
        split; [lia|]. eexists. split; [apply last_snoc|].
        now rewrite last_snoc.
      * apply IH. apply Nat.leb_gt in Hreached. exact Hreached.
    + apply IH. exact Hf.
  - apply IH. exact Hf.
Qed.

Lemma processBatches_target (batches : list (list SigInfo)) :
  forall f : Fetch, below f ->
    match processBatches connection walletAddress tokenMint targetCount false
            knownSignatures f batches with
    | (f', true) => returnedAtTarget targetCount f'
    | (f', false) => below f'
    end.
Proof.
  induction batches as [|batch rest IH]; intros f Hf; cbn [processBatches].
  - exact Hf.
  - destruct (List.filter _ batch) as [|sig filtered]; [now apply IH|].
    match goal with
    | |- context [processResults _ _ _ _ ?f1 ?rs] =>
        pose proof (processResults_target rs f1 Hf) as Hstep;
        destruct (processResults walletAddress tokenMint targetCount false f1 rs)
          as [f2 []]
    end.
    + exact Hstep.
    + now apply IH.
Qed.

(** C10 (amended). With [deepFetch = false] and a target of at least one
    transfer, the list returned holds at most [targetCount] transfers; and
    when it holds exactly [targetCount], the function returned as soon as
    the last of them was found: the last thing it did was to examine the
    signature of that transfer, no further signature or page after it. *)
Theorem target_count_bound :
  (0 < targetCount)%nat ->
  let result :=
    getWalletTransactions connection walletAddress tokenMint targetCount maxPages false
      sinceTimestamp knownSignatures in
  (length result <= targetCount)%nat /\
  ((length result = targetCount)%nat ->
   exists f,
     run connection walletAddress tokenMint targetCount maxPages false
       sinceTimestamp knownSignatures = Completed f /\
     transactions f = result /\ returnedAtTarget targetCount f).
Proof.
  intros Hpos result. subst result. unfold getWalletTransactions, run.
  destruct (negb (isValidAddress walletAddress) || negb (isValidAddress tokenMint)).
  { simpl. split; [lia|]. intros Hzero. lia. }
  destruct (negb (acceptsPublicKey connection (trim walletAddress))).
  { simpl. split; [lia|]. intros Hzero. lia. }
  pose proof (pages_invariant connection walletAddress tokenMint targetCount maxPages
                false sinceTimestamp knownSignatures below (returnedAtTarget targetCount))
    as Hinv.
  specialize (Hinv (fun f _ _ _ Hf => Hf) (fun f _ Hf => Hf)
                (fun f _ _ _ _ cut _ _ _ Hf =>
                   processBatches_target (slices PARALLEL_BATCH_SIZE cut) f Hf)
                (pageBound maxPages false) fetch0 Hpos).
  destruct (pages _ _ _ _ _ _ _ _ _ _) as [f| |].
  - destruct Hinv as [Hbelow|Hdone].
    + split; [lia|]. intros Heq. lia.
    + split; [destruct Hdone as [-> _]; lia|]. intros _. exists f. auto.
  - simpl. split; [lia|]. intros Hzero. lia.
  - simpl. split; [lia|]. intros Hzero. lia.
Qed.

End HistoryTarget.

Section HistoryCutoff.
Import Js Classifier History.

Variable connection : Connection.
Variables walletAddress tokenMint : string.
Variables targetCount maxPages : nat.
Variable deepFetch : bool.
Variable since : Timestamp.
Variable known : gset string.

Local Abbreviation cutoffKept := (History.cutoffKept since known).

Lemma detailRequests_app (e1 e2 : list Event) :
  detailRequests (e1 ++ e2) = detailRequests e1 ++ detailRequests e2.
Proof. unfold detailRequests. apply omap_app. Qed.

Lemma detailRequests_fetched (sigs : list SigInfo) :
  detailRequests (map (fun sig => DetailFetched (signature sig)) sigs) = map signature sigs.
Proof. induction sigs as [|sig sigs IH]; simpl; [reflexivity|]. now f_equal. Qed.

Lemma processResults_cutoff (txResults : list (SigInfo * option RawTransaction)) :
  Forall (fun r => sigSince since r.1 /\ signature r.1 ∉ known) txResults ->
  forall f : Fetch, cutoffKept f ->
    cutoffKept (processResults walletAddress tokenMint targetCount deepFetch f txResults).1.
Proof.
  induction 1 as [|[sig [tx|]] rest [Hsince Hunknown] Hrest IH]; intros f Hf;
    cbn [processResults]; [exact Hf| |now apply IH].
  assert (Hlogged : cutoffKept (log [Examined (signature sig)] f)).
  { destruct Hf as [Htxs Hreq]. split; [exact Htxs|].
    cbn [log trace]. rewrite detailRequests_app. simpl. now rewrite app_nil_r. }
  destruct (parseTokenTransfer tx walletAddress tokenMint) as [tokenTransfer|];
    [|now apply IH].
  match goal with
  | |- context [push ?t ?f1] => assert (Hpushed : cutoffKept (push t f1))
  end.
  { destruct Hlogged as [Htxs Hreq]. split; [|exact Hreq].
    cbn [push transactions]. apply Forall_app. split; [exact Htxs|].
    constructor; [|constructor]. split; [exact Hsince|exact Hunknown]. }
  destruct (negb deepFetch && _); [exact Hpushed|now apply IH].
Qed.

Lemma filter_unknown (batch : list SigInfo) :
  Forall (fun sig => signature sig ∉ known)
    (List.filter (fun sig => negb (isKnown (Some known) sig)) batch).
Proof.
  apply List.Forall_forall. intros sig Hin.
  apply filter_In in Hin as [_ Hunknown].
  apply negb_true_iff in Hunknown. unfold isKnown in Hunknown.
  now apply bool_decide_eq_false in Hunknown.
Qed.

Lemma processBatches_cutoff (batches : list (list SigInfo)) :
  Forall (Forall (sigSince since)) batches ->
  forall f : Fetch, cutoffKept f ->
    cutoffKept
      (processBatches connection walletAddress tokenMint targetCount deepFetch
         (Some known) f batches).1.
Proof.
  induction 1 as [|batch rest Hbatch Hrest IH]; intros f Hf; cbn [processBatches];
    [exact Hf|].
  pose proof (filter_unknown batch) as Hunknown.
  assert (Hsince : Forall (sigSince since)
                     (List.filter (fun sig => negb (isKnown (Some known) sig)) batch)).
  { apply List.Forall_forall. intros sig Hin. apply filter_In in Hin as [Hin _].
    revert sig Hin. now apply List.Forall_forall. }
  destruct (List.filter _ batch) as [|sig filtered] eqn:Hfiltered; [now apply IH|].
  match goal with
  | |- context [processResults _ _ _ _ ?f1 ?rs] =>
      assert (Hstep : cutoffKept
                (processResults walletAddress tokenMint targetCount deepFetch f1 rs).1);
      [|destruct (processResults walletAddress tokenMint targetCount deepFetch f1 rs)
          as [f2 []]; [exact Hstep|now apply IH]]
  end.
  apply processResults_cutoff.
  - apply Forall_fmap. apply List.Forall_forall. intros s Hin. simpl. split.
    + revert s Hin. now apply List.Forall_forall.
    + revert s Hin. now apply List.Forall_forall.
  - destruct Hf as [Htxs Hreq]. split; [exact Htxs|].
    cbn [log trace]. rewrite detailRequests_app, detailRequests_fetched.
    apply Forall_app. split; [exact Hreq|]. now apply Forall_fmap.
Qed.

Lemma slicesFrom_Forall {A : Type} (P : A -> Prop) (n fuel : nat) :
  forall l : list A, Forall P l -> Forall (Forall P) (slicesFrom fuel n l).
Proof.
  induction fuel as [|fuel IH]; intros l Hl; [constructor|].
  destruct l as [|x l]; [constructor|].
  change (Forall (Forall P) (take n (x :: l) :: slicesFrom fuel n (drop n (x :: l)))).
  constructor; [now apply Forall_take|]. apply IH. now apply Forall_drop.
Qed.

(** On a page that is newest first, nothing left by the cut is dated
    before [since]. *)
Lemma sinceCut_since (page cut : list SigInfo) (reached reached' : bool) :
  newestFirstPage page ->
  sinceCut (Some since) reached page = Some (cut, reached') ->
  Forall (sigSince since) cut.
Proof.
  intros [Horder Hdated]. unfold sinceCut.
  assert (Hfiltered :
    Forall (sigSince since)
      (List.filter (fun sig => match timeOf sig with
                               | Some t => since <=? t * 1000
                               | None => false
                               end) page)).
  { apply List.Forall_forall. intros sig Hin. apply filter_In in Hin as [_ Hnew].
    unfold sigSince, timestampOf. destruct (timeOf sig) as [t|]; [|discriminate].
    intros t' [= <-]. now apply Z.leb_le. }
  destruct (last page) as [oldest|] eqn:Hlast.
  - destruct (Hdated oldest eq_refl) as [t0 Ht0]. rewrite Ht0.
    destruct (t0 * 1000 <? since) eqn:Hold.
    + destruct (List.filter _ page) as [|sig sigs]; [discriminate|].
      now intros [= <- _].
    + intros [= <- _]. apply Z.ltb_ge in Hold.
      apply List.Forall_forall. intros sig Hin.
      apply list_elem_of_In, list_elem_of_lookup in Hin as [i Hi].
      rewrite last_lookup in Hlast.
      assert (Hij : (i <= Init.Nat.pred (length page))%nat).
      { apply lookup_lt_Some in Hi. lia. }
      unfold sigSince, timestampOf.
      destruct (timeOf sig) as [ti|] eqn:Hti; [|discriminate].
      intros t [= <-].
      pose proof (Horder _ _ _ _ _ _ Hij Hi Hlast Hti Ht0). lia.
  - intros [= <- _]. apply last_None in Hlast. subst page. constructor.
Qed.


End HistoryCutoff.

Section HistoryExamples.
Import Js Classifier History Fixtures.

Example ledger_full :
  map tx_signature (getWalletTransactions ledger walletA mintM 15 3 false None None)
    = ["s3"; "s2"].
Proof. vm_compute. reflexivity. Qed.

Example ledger_incremental :
  map tx_signature
    (getWalletTransactions ledger walletA mintM 15 3 false
       (Some 1_700_000_150_000) (Some {["s3"]}))
    = ["s2"].
Proof. vm_compute. reflexivity. Qed.

Example ledger_trace :
  match run ledger walletA mintM 1 3 false None None with
  | Completed f => trace f
  | _ => []
  end = [PageRequested None; DetailFetched "s3"; DetailFetched "s2"; DetailFetched "s1";
         Examined "s3"].
Proof. vm_compute. reflexivity. Qed.

Lemma ledger_newestFirst : newestFirstProvider ledger.
Proof.
  intros n before limit page Hpage.
  destruct n as [|n]; injection Hpage as <-; split.
  - intros i j si sj ti tj Hij Hi Hj Hti Htj.
    destruct i as [|[|[|i]]]; try discriminate Hi;
      destruct j as [|[|[|j]]]; try discriminate Hj; try lia;
      injection Hi as <-; injection Hj as <-;
      injection Hti as <-; injection Htj as <-; lia.
  - intros oldest [= <-]. vm_compute. eauto.
  - intros i j si sj ti tj Hij Hi. discriminate Hi.
  - intros oldest Hlast. discriminate Hlast.
Qed.

(** With a target of zero the first transfer found is still returned: the
    list is longer than the target. *)
Lemma target_zero_returns_one :
  ~ (length (getWalletTransactions ledger walletA mintM 0 3 false None None) <= 0)%nat.
Proof. vm_compute. lia. Qed.

Lemma target_count_bound_ledger :
  (length (getWalletTransactions ledger walletA mintM 1 3 false None None) <= 1)%nat.
Proof.
  apply (target_count_bound ledger walletA mintM 1 3 None None). lia.
Defined.


End HistoryExamples.

(** * Further properties of the code *)

(** ** The classifier: when it answers and what the answer holds *)

Section ClassifierResult.
Import Js Classifier.

Lemma parseTokenTransfer_unchanged (tx : RawTransaction) (walletAddress tokenMint : string) :
  tokenChangeOf tx walletAddress tokenMint = 0 ->
  parseTokenTransfer tx walletAddress tokenMint = None.
Proof.
  unfold tokenChangeOf, parseTokenTransfer. intros Hz.
  destruct (preTokenBalances tx), (postTokenBalances tx); try reflexivity;
    (destruct (negb (foundMint _)); [reflexivity|]);
    apply Z.eqb_eq in Hz; now rewrite Hz.
Qed.


Lemma decimalsOf_nonzero (bal : TokenBalance) : decimalsOf bal <> 0%nat.
Proof.
  unfold decimalsOf, orNat. destruct (tb_uiTokenAmount bal) as [u|]; [|discriminate].
  destruct (uta_decimals u =? 0)%nat eqn:E; [discriminate|].
  now apply Nat.eqb_neq in E.
Qed.

Lemma scan_decimals_nonzero (w m : string) (bals : list TokenBalance)
    (step : string -> string -> Scan -> TokenBalance -> Scan) :
  (forall s bal, decimals s <> 0%nat -> decimals (step w m s bal) <> 0%nat) ->
  forall s, decimals s <> 0%nat -> decimals (fold_left (step w m) bals s) <> 0%nat.
Proof.
  intros Hstep. induction bals as [|bal bals IH]; intros s Hs; simpl; [exact Hs|].
  apply IH. now apply Hstep.
Qed.

Lemma scanBalances_decimals (tx : RawTransaction) (w m : string) :
  decimals (scanBalances tx w m) <> 0%nat.
Proof.
  unfold scanBalances.
  apply (scan_decimals_nonzero w m _ postStep).
  - intros s bal Hs. unfold postStep. destruct (mintMatches m bal); [|exact Hs].
    destruct (isOurWallet w bal); simpl; [apply decimalsOf_nonzero|exact Hs].
  - apply (scan_decimals_nonzero w m _ preStep); [|discriminate].
    intros s bal Hs. unfold preStep. destruct (mintMatches m bal); [|exact Hs].
    destruct (isOurWallet w bal); simpl; [apply decimalsOf_nonzero|exact Hs].
Qed.


End ClassifierResult.

Section ClassifierCounterparty.
Import Js Classifier ClassifierNotions.

Variables walletNormalized mintNormalized : string.

Lemma mapSet_keyed (k : string) (v : WalletChange) (changes : list (string * WalletChange)) :
  k = toLowerCase (wc_address v) -> keyed changes -> keyed (mapSet k v changes).
Proof.
  intros Hk. unfold keyed. induction 1 as [|[k' v'] rest Hhead Hrest IH]; simpl.
  - constructor; [exact Hk|constructor].
  - destruct (String.eqb k k'); constructor; auto.
Qed.

Lemma mapGet_keyed (k : string) (e : WalletChange) (changes : list (string * WalletChange)) :
  keyed changes -> mapGet k changes = Some e -> k = toLowerCase (wc_address e).
Proof.
  unfold keyed. induction 1 as [|[k' v'] rest Hhead Hrest IH]; simpl; [discriminate|].
  destruct (String.eqb k k') eqn:E; [|exact IH].
  apply String.eqb_eq in E. subst k'. now intros [= <-].
Qed.

Lemma preStep_keyed (s : Scan) (bal : TokenBalance) :
  keyed (walletChanges s) ->
  keyed (walletChanges (preStep walletNormalized mintNormalized s bal)).
Proof.
  intros Hs. unfold preStep. destruct (mintMatches mintNormalized bal); [|exact Hs].
  destruct (isOurWallet walletNormalized bal); simpl; now apply mapSet_keyed.
Qed.

Lemma postStep_keyed (s : Scan) (bal : TokenBalance) :
  keyed (walletChanges s) ->
  keyed (walletChanges (postStep walletNormalized mintNormalized s bal)).
Proof.
  intros Hs. unfold postStep. destruct (mintMatches mintNormalized bal); [|exact Hs].
  assert (Hkey : toLowerCase (tb_owner bal) =
    toLowerCase (wc_address
      match mapGet (toLowerCase (tb_owner bal)) (walletChanges s) with
      | Some e => e
      | None => {| wc_pre := 0; wc_post := 0; wc_decimals := 9;
                   wc_address := tb_owner bal |}
      end)).
  { destruct (mapGet _ _) as [e|] eqn:Hget; [|reflexivity].
    now apply (mapGet_keyed _ _ _ Hs). }
  destruct (isOurWallet walletNormalized bal); simpl; now apply mapSet_keyed.
Qed.

Lemma fold_keyed (step : Scan -> TokenBalance -> Scan) (bals : list TokenBalance) :
  (forall s bal, keyed (walletChanges s) -> keyed (walletChanges (step s bal))) ->
  forall s, keyed (walletChanges s) -> keyed (walletChanges (fold_left step bals s)).
Proof.
  intros Hstep. induction bals as [|bal bals IH]; intros s Hs; simpl; auto.
Qed.

Lemma counterparty_found (walletKey : string) (incoming : bool)
    (changes : list (string * WalletChange)) (a : string) :
  counterparty walletKey incoming changes = Some a ->
  exists k d, (k, d) ∈ changes /\ k <> walletKey /\ wc_address d = a /\
    if incoming then wc_pre d < wc_post d else wc_post d < wc_pre d.
Proof.
  induction changes as [|[k d] rest IH]; simpl; [discriminate|].
  destruct (negb (String.eqb k walletKey) && _) eqn:Hhit.
  - intros [= <-]. apply andb_true_iff in Hhit as [Hk Hsign].
    apply negb_true_iff, String.eqb_neq in Hk.
    exists k, d. split; [left|]. split; [exact Hk|]. split; [reflexivity|].
    destruct incoming; apply Z.ltb_lt in Hsign; lia.
  - intros Hrest. destruct (IH Hrest) as (k' & d' & Hin & Hrest').
    exists k', d'. split; [now right|exact Hrest'].
Qed.

End ClassifierCounterparty.

Section ClassifierParties.
Import Js Classifier ClassifierNotions.

Lemma scanBalances_keyed (tx : RawTransaction) (w m : string) :
  keyed (walletChanges (scanBalances tx w m)).
Proof.
  unfold scanBalances.
  apply fold_keyed; [apply postStep_keyed|].
  apply fold_keyed; [apply preStep_keyed|]. constructor.
Qed.

(** X3. The counterparty of a classified transfer is never the watched
    wallet itself, whatever the case of the letters: the destination of an
    outgoing transfer is another owner whose balance of the token rose in
    the transaction, the source of an incoming one another owner whose
    balance fell. A transaction in which no other owner qualifies (a
    transfer to oneself) leaves the counterparty empty. *)
Theorem parseTokenTransfer_counterparty (tx : RawTransaction)
    (walletAddress tokenMint : string) (r : TokenTransfer) :
  parseTokenTransfer tx walletAddress tokenMint = Some r ->
  let changes := walletChanges (scanBalances tx (trim walletAddress) (trim tokenMint)) in
  (forall a, tt_toWallet r = Some a ->
     toLowerCase a <> toLowerCase (trim walletAddress) /\
     exists d, (toLowerCase a, d) ∈ changes /\ wc_address d = a /\ wc_pre d < wc_post d) /\
  (forall a, tt_fromWallet r = Some a ->
     toLowerCase a <> toLowerCase (trim walletAddress) /\
     exists d, (toLowerCase a, d) ∈ changes /\ wc_address d = a /\ wc_post d < wc_pre d).
Proof.
  intros Hr changes.
  pose proof (scanBalances_keyed tx (trim walletAddress) (trim tokenMint)) as Hkeyed.
  fold changes in Hkeyed.
  assert (Hparty : forall incoming a,
    counterparty (toLowerCase (trim walletAddress)) incoming changes = Some a ->
    toLowerCase a <> toLowerCase (trim walletAddress) /\
    exists d, (toLowerCase a, d) ∈ changes /\ wc_address d = a /\
      if incoming then wc_pre d < wc_post d else wc_post d < wc_pre d).
  { intros incoming a Hfound.
    destruct (counterparty_found _ _ _ _ Hfound) as (k & d & Hin & Hk & Ha & Hsign).
    unfold keyed in Hkeyed. rewrite Forall_forall in Hkeyed.
    pose proof (Hkeyed _ Hin) as Hkey. simpl in Hkey. rewrite Ha in Hkey. subst k.
    split; [exact Hk|]. exists d. auto. }
  unfold parseTokenTransfer in Hr. fold changes in Hr.
  destruct (preTokenBalances tx), (postTokenBalances tx); try discriminate;
    (destruct (negb (foundMint _)); [discriminate|]);
    (destruct (_ =? 0); [discriminate|]);
    (destruct (_ <? 0); injection Hr as <-; cbn [tt_toWallet tt_fromWallet];
     split; intros a Ha; try discriminate;
     [apply (Hparty true a Ha)|apply (Hparty false a Ha)]).
Qed.

Lemma preStep_case (w w' m m' : string) (s : Scan) (bal : TokenBalance) :
  toLowerCase w = toLowerCase w' -> toLowerCase m = toLowerCase m' ->
  preStep w m s bal = preStep w' m' s bal.
Proof. intros Hw Hm. unfold preStep, mintMatches, isOurWallet. now rewrite Hw, Hm. Qed.

Lemma postStep_case (w w' m m' : string) (s : Scan) (bal : TokenBalance) :
  toLowerCase w = toLowerCase w' -> toLowerCase m = toLowerCase m' ->
  postStep w m s bal = postStep w' m' s bal.
Proof. intros Hw Hm. unfold postStep, mintMatches, isOurWallet. now rewrite Hw, Hm. Qed.

Lemma fold_left_agree {A B : Type} (f g : A -> B -> A) (l : list B) :
  (forall a b, f a b = g a b) -> forall a, fold_left f l a = fold_left g l a.
Proof.
  intros Hfg. induction l as [|b l IH]; intros a; simpl; [reflexivity|].
  now rewrite Hfg, IH.
Qed.

Lemma solChangeFrom_case (w w' : string) (keys : list string) :
  toLowerCase w = toLowerCase w' ->
  forall pre post, solChangeFrom w keys pre post = solChangeFrom w' keys pre post.
Proof.
  intros Hw. induction keys as [|k keys IH]; intros pre post; simpl; [reflexivity|].
  now rewrite Hw, IH.
Qed.

(** X4. The classifier reads the wallet address and the mint up to case and
    surrounding white space: two spellings that trim and lower-case to the
    same strings give the same answer on every transaction. *)
Theorem parseTokenTransfer_case_insensitive (tx : RawTransaction)
    (wallet wallet' mint mint' : string) :
  toLowerCase (trim wallet) = toLowerCase (trim wallet') ->
  toLowerCase (trim mint) = toLowerCase (trim mint') ->
  parseTokenTransfer tx wallet mint = parseTokenTransfer tx wallet' mint'.
Proof.
  intros Hw Hm.
  assert (Hscan : scanBalances tx (trim wallet) (trim mint)
                  = scanBalances tx (trim wallet') (trim mint')).
  { unfold scanBalances.
    rewrite (fold_left_agree _ _ _ (fun s bal => preStep_case _ _ _ _ s bal Hw Hm)).
    apply fold_left_agree. intros s bal. now apply postStep_case. }
  unfold parseTokenTransfer, solChangeInSolOf.
  now rewrite Hscan, Hw, (solChangeFrom_case _ _ _ Hw).
Qed.

End ClassifierParties.

(** ** Transaction history: page budget, provenance, deep fetch *)

Section HistoryBudget.
Import Js Classifier History HistoryMore.

Variable connection : Connection.
Variables walletAddress tokenMint : string.
Variables targetCount maxPages : nat.
Variable deepFetch : bool.
Variable sinceTimestamp : option Timestamp.
Variable knownSignatures : option (gset string).

Lemma pageRequests_app (e1 e2 : list Event) :
  pageRequests (e1 ++ e2) = (pageRequests e1 + pageRequests e2)%nat.
Proof. unfold pageRequests. now rewrite List.filter_app, length_app. Qed.

Lemma processResults_pages (txResults : list (SigInfo * option RawTransaction)) :
  forall f : Fetch,
    pageRequests
      (trace (processResults walletAddress tokenMint targetCount deepFetch f txResults).1)
      = pageRequests (trace f).
Proof.
  induction txResults as [|[sig [tx|]] rest IH]; intros f; cbn [processResults];
    [reflexivity| |apply IH].
  assert (Hlog : pageRequests (trace (log [Examined (signature sig)] f))
                 = pageRequests (trace f)).
  { cbn [log trace]. rewrite pageRequests_app.
    change (pageRequests [Examined (signature sig)]) with 0%nat. lia. }
  destruct (parseTokenTransfer tx walletAddress tokenMint); [|now rewrite IH].
  destruct (negb deepFetch && _); [exact Hlog|now rewrite IH].
Qed.

Lemma processBatches_pages (batches : list (list SigInfo)) :
  forall f : Fetch,
    pageRequests
      (trace (processBatches connection walletAddress tokenMint targetCount deepFetch
                knownSignatures f batches).1)
      = pageRequests (trace f).
Proof.
  induction batches as [|batch rest IH]; intros f; cbn [processBatches]; [reflexivity|].
  destruct (List.filter _ batch) as [|sig filtered] eqn:Hfiltered; [apply IH|].
  match goal with
  | |- context [processResults _ _ _ _ ?f1 ?rs] =>
      pose proof (processResults_pages rs f1) as Hstep;
      destruct (processResults walletAddress tokenMint targetCount deepFetch f1 rs)
        as [f2 []]
  end; cbn [fst] in Hstep |- *; [|rewrite IH]; rewrite Hstep;
    cbn [log trace]; rewrite pageRequests_app;
    generalize (sig :: filtered); intros l;
    (assert (Hnone : pageRequests (map (fun s => DetailFetched (signature s)) l) = 0%nat)
       by (induction l; [reflexivity|assumption]));
    lia.
Qed.

Lemma pages_budget (fuel : nat) :
  forall f : Fetch,
    pageRequests (trace f) = pagesSearched f ->
    (pagesSearched f <= pageBound maxPages deepFetch)%nat ->
    (deepFetch = true -> (pagesSearched f < 15)%nat) ->
    match pages connection walletAddress tokenMint targetCount maxPages deepFetch
            sinceTimestamp knownSignatures fuel f with
    | Completed f' => (pageRequests (trace f') <= pageBound maxPages deepFetch)%nat
    | Threw | OutOfFuel => True
    end.
Proof.
  induction fuel as [|fuel IH]; intros f Hcount Hbound Hdeep; cbn [pages].
  - destruct (negb (whileCondition maxPages deepFetch f)); [lia|exact I].
  - destruct (whileCondition maxPages deepFetch f) eqn:Hcond; cbn [negb]; [|lia].
    assert (Hroom : (S (pagesSearched f) <= pageBound maxPages deepFetch)%nat).
    { unfold whileCondition in Hcond. unfold pageBound in *.
      destruct deepFetch.
      - specialize (Hdeep eq_refl). lia.
      - rewrite orb_false_r in Hcond. apply andb_true_iff in Hcond as [Hlt _].
        apply Nat.ltb_lt in Hlt. lia. }
    assert (Hrequested :
      pageRequests (trace (log [PageRequested (beforeOf f)] f)) = S (pagesSearched f)).
    { cbn [log trace]. rewrite pageRequests_app, Hcount.
      change (pageRequests [PageRequested (beforeOf f)]) with 1%nat. lia. }
    destruct (getSignaturesForAddress _ _ _ _) as [[|sig sigs]|]; [lia| |exact I].
    destruct (sinceCut _ _ _) as [[cut reached]|]; [|cbn [trace]; lia].
    match goal with
    | |- context [processBatches _ _ _ _ _ _ ?f1 ?bs] =>
        pose proof (processBatches_pages bs f1) as Hstep;
        destruct (processBatches connection walletAddress tokenMint targetCount
                    deepFetch knownSignatures f1 bs) as [f2 []]
    end; cbn [fst trace] in Hstep; [lia|].
    destruct (deepFetch && (15 <=? S (pagesSearched f))%nat) eqn:Hstop;
      [cbn [trace]; lia|].
    destruct (negb deepFetch && (maxPages <=? S (pagesSearched f))%nat) eqn:Hmax;
      [cbn [trace]; lia|].
    apply IH; cbn [trace pagesSearched]; [lia|lia|].
    intros Htrue. rewrite Htrue, andb_true_l in Hstop.
    apply Nat.leb_gt in Hstop. lia.
Qed.

(** X5. A fetch of the transaction history makes at most [maxPages] page
    requests, and at most 15 when it is a deep fetch, however many pages
    the caller allows (the deep fetch of the application allows 20). *)
Theorem page_budget (f : Fetch) :
  run connection walletAddress tokenMint targetCount maxPages deepFetch
    sinceTimestamp knownSignatures = Completed f ->
  (pageRequests (trace f) <= (if deepFetch then 15 else maxPages))%nat.
Proof.
  unfold run.
  destruct (negb (isValidAddress walletAddress) || negb (isValidAddress tokenMint)).
  { intros [= <-]. change (pageRequests (trace fetch0)) with 0%nat. lia. }
  destruct (negb (acceptsPublicKey connection (trim walletAddress))); [discriminate|].
  pose proof (pages_budget (pageBound maxPages deepFetch) fetch0 eq_refl) as Hbudget.
  intros Hrun. rewrite Hrun in Hbudget. unfold pageBound in Hbudget.
  apply Hbudget; cbn [pagesSearched fetch0]; lia.
Qed.

End HistoryBudget.

Section HistoryProvenance.
Import Js Classifier History HistoryMore.

Variable connection : Connection.
Variables walletAddress tokenMint : string.
Variables targetCount maxPages : nat.
Variable deepFetch : bool.
Variable sinceTimestamp : option Timestamp.
Variable knownSignatures : option (gset string).

Local Abbreviation genuine' := (genuine connection walletAddress tokenMint).

Lemma examinations_app (e1 e2 : list Event) :
  examinations (e1 ++ e2) = examinations e1 ++ examinations e2.
Proof. unfold examinations. apply omap_app. Qed.

Lemma examinations_fetched (sigs : list SigInfo) :
  examinations (map (fun sig => DetailFetched (signature sig)) sigs) = [].
Proof. induction sigs as [|sig sigs IH]; [reflexivity|exact IH]. Qed.

Lemma genuine_later (events more : list Event) (tx : Transaction) :
  genuine' events tx -> genuine' (events ++ more) tx.
Proof.
  intros (Hw & Hd & He & Hraw). split; [exact Hw|].
  rewrite detailRequests_app, examinations_app, !elem_of_app. auto.
Qed.

Lemma processResults_genuine (sigs : list SigInfo) :
  forall f : Fetch,
    Forall (fun sig => signature sig ∈ detailRequests (trace f)) sigs ->
    Forall (genuine' (trace f)) (transactions f) ->
    let f' :=
      (processResults walletAddress tokenMint targetCount deepFetch f
         (map (fun sig => (sig, getParsedTransaction connection (signature sig))) sigs)).1 in
    Forall (genuine' (trace f')) (transactions f').
Proof.
  induction sigs as [|sig sigs IH]; intros f Hfetched Hf; [exact Hf|].
  apply Forall_cons in Hfetched as [Hsig Hsigs].
  cbn [map processResults].
  destruct (getParsedTransaction connection (signature sig)) as [raw|] eqn:Hraw;
    [|now apply IH].
  assert (Hlater : forall g : Fetch,
    trace g = trace f ++ [Examined (signature sig)] ->
    Forall (fun s => signature s ∈ detailRequests (trace g)) sigs).
  { intros g ->. eapply Forall_impl; [exact Hsigs|].
    intros s Hs. rewrite detailRequests_app, elem_of_app. now left. }
  assert (Hkept : Forall (genuine' (trace f ++ [Examined (signature sig)]))
                    (transactions f)).
  { eapply Forall_impl; [exact Hf|]. intros tx. apply genuine_later. }
  destruct (parseTokenTransfer raw walletAddress tokenMint) as [tokenTransfer|] eqn:Hparse.
  - match goal with
    | |- context [push ?t ?f1] =>
        assert (Hpushed : Forall (genuine' (trace (push t f1))) (transactions (push t f1)))
    end.
    { cbn [push log transactions trace]. apply Forall_app. split; [exact Hkept|].
      constructor; [|constructor].
      split; [reflexivity|]. cbn [tx_signature tx_transfer].
      split; [rewrite detailRequests_app, elem_of_app; now left|].
      split; [rewrite examinations_app, elem_of_app; right; left|].
      exists raw. auto. }
    destruct (negb deepFetch && _); [exact Hpushed|].
    apply IH; [now apply Hlater|exact Hpushed].
  - apply IH; [now apply Hlater|exact Hkept].
Qed.

Lemma processBatches_genuine (batches : list (list SigInfo)) :
  forall f : Fetch,
    Forall (genuine' (trace f)) (transactions f) ->
    let f' :=
      (processBatches connection walletAddress tokenMint targetCount deepFetch
         knownSignatures f batches).1 in
    Forall (genuine' (trace f')) (transactions f').
Proof.
  induction batches as [|batch rest IH]; intros f Hf; cbn [processBatches]; [exact Hf|].
  destruct (List.filter _ batch) as [|sig filtered] eqn:Hfiltered; [now apply IH|].
  match goal with
  | |- context [processResults _ _ _ _ ?f1 (map _ ?sigs)] =>
      pose proof (processResults_genuine sigs f1) as Hstep
  end.
  cbv zeta in Hstep.
  match type of Hstep with
  | ?A -> ?B -> _ => assert (HA : A); [|assert (HB : B); [|specialize (Hstep HA HB)]]
  end.
  - cbn [log trace]. apply Forall_forall. intros s Hs.
    rewrite detailRequests_app, detailRequests_fetched, elem_of_app. right.
    now apply list_elem_of_fmap_2.
  - cbn [log transactions trace]. eapply Forall_impl; [exact Hf|].
    intros tx. apply genuine_later.
  - destruct (processResults _ _ _ _ _ _) as [f2 []]; [exact Hstep|now apply IH].
Qed.

(** X6. Every transfer a history fetch returns is genuine: it carries the
    wallet address that was queried, its signature is one whose details
    were requested and examined in this fetch, and its classification is
    the classifier's answer on those details for the queried wallet and
    mint. *)
Theorem returned_transfers_genuine (f : Fetch) :
  run connection walletAddress tokenMint targetCount maxPages deepFetch
    sinceTimestamp knownSignatures = Completed f ->
  getWalletTransactions connection walletAddress tokenMint targetCount maxPages deepFetch
    sinceTimestamp knownSignatures = transactions f /\
  Forall (genuine connection walletAddress tokenMint (trace f)) (transactions f).
Proof.
  intros Hrun. split; [unfold getWalletTransactions; now rewrite Hrun|].
  revert Hrun. unfold run.
  destruct (negb (isValidAddress walletAddress) || negb (isValidAddress tokenMint)).
  { intros [= <-]. constructor. }
  destruct (negb (acceptsPublicKey connection (trim walletAddress))); [discriminate|].
  pose proof (pages_invariant connection walletAddress tokenMint targetCount maxPages
                deepFetch sinceTimestamp knownSignatures
                (fun f => Forall (genuine' (trace f)) (transactions f))
                (fun f => Forall (genuine' (trace f)) (transactions f))) as Hinv.
  intros Hrun.
  assert (Hbatches : forall f0 n before page reached cut reached',
    getSignaturesForAddress connection n before SIGS_PER_PAGE = Some page ->
    sinceCut sinceTimestamp reached page = Some (cut, reached') ->
    Forall (genuine' (trace f0)) (transactions f0) ->
    match processBatches connection walletAddress tokenMint targetCount deepFetch
            knownSignatures f0 (slices PARALLEL_BATCH_SIZE cut) with
    | (f', true) => Forall (genuine' (trace f')) (transactions f')
    | (f', false) => Forall (genuine' (trace f')) (transactions f')
    end).
  { intros f0 n before page reached cut reached' _ _ Hf0.
    pose proof (processBatches_genuine (slices PARALLEL_BATCH_SIZE cut) f0 Hf0) as Hstep.
    now destruct (processBatches _ _ _ _ _ _ _ _) as [f' []]. }
  assert (Hlog : forall f0 before,
    Forall (genuine' (trace f0)) (transactions f0) ->
    Forall (genuine' (trace (log [PageRequested before] f0)))
      (transactions (log [PageRequested before] f0))).
  { intros f0 before Hf0. cbn [log transactions trace].
    eapply Forall_impl; [exact Hf0|]. intros tx. apply genuine_later. }
  assert (Hstart : Forall (genuine' (trace fetch0)) (transactions fetch0))
    by constructor.
  specialize (Hinv (fun f0 _ _ _ Hf0 => Hf0) Hlog Hbatches
                (pageBound maxPages deepFetch) fetch0 Hstart).
  rewrite Hrun in Hinv. now destruct Hinv.
Qed.

End HistoryProvenance.

Section HistoryDeep.
Import Js Classifier History HistoryMore.

Variable connection : Connection.
Variables walletAddress tokenMint : string.
Variables targetCount maxPages : nat.
Variable sinceTimestamp : option Timestamp.
Variable knownSignatures : option (gset string).

Local Abbreviation exhaustive' := (exhaustive connection walletAddress tokenMint).

(** In a deep fetch the results of a batch are all processed. *)
Lemma processResults_deep (sigs : list SigInfo) :
  forall f : Fetch,
    let out :=
      processResults walletAddress tokenMint targetCount true f
        (map (fun sig => (sig, getParsedTransaction connection (signature sig))) sigs) in
    out.2 = false /\
    detailRequests (trace out.1) = detailRequests (trace f) /\
    examinations (trace out.1)
      = examinations (trace f)
        ++ List.filter (available connection) (map signature sigs) /\
    map tx_signature (transactions out.1)
      = map tx_signature (transactions f)
        ++ List.filter (classifies connection walletAddress tokenMint)
             (map signature sigs).
Proof.
  induction sigs as [|sig sigs IH]; intros f; cbn [map processResults List.filter].
  - cbn. now rewrite !app_nil_r.
  - unfold available at 1, classifies at 1.
    destruct (getParsedTransaction connection (signature sig)) as [raw|]; [|apply IH].
    destruct (parseTokenTransfer raw walletAddress tokenMint) as [tokenTransfer|];
      cbn [negb andb];
      match goal with
      | |- context [processResults _ _ _ _ ?g _] =>
          destruct (IH g) as (Hflag & Hreq & Hex & Htx)
      end; cbv zeta; rewrite Hflag, Hreq, Hex, Htx;
      cbn [push log transactions trace];
      rewrite detailRequests_app, examinations_app, ?map_app;
      cbn; rewrite ?app_nil_r, <- ?app_assoc; repeat split.
Qed.

Lemma processBatches_deep (batches : list (list SigInfo)) :
  forall f : Fetch, exhaustive' f ->
    let out :=
      processBatches connection walletAddress tokenMint targetCount true
        knownSignatures f batches in
    out.2 = false /\ exhaustive' out.1.
Proof.
  induction batches as [|batch rest IH]; intros f Hf; cbn [processBatches];
    [now split|].
  destruct (List.filter _ batch) as [|sig filtered] eqn:Hfiltered; [now apply IH|].
  match goal with
  | |- context [processResults _ _ _ _ ?f1 (map _ ?sigs)] =>
      destruct (processResults_deep sigs f1) as (Hflag & Hreq & Hex & Htx);
      destruct (processResults walletAddress tokenMint targetCount true f1
                  (map (fun sig => (sig, getParsedTransaction connection (signature sig)))
                     sigs)) as [f2 flag]
  end.
  cbn [fst snd] in Hflag, Hreq, Hex, Htx. subst flag.
  apply IH. destruct Hf as [Hfex Hftx].
  cbn [log transactions trace] in Hreq, Hex, Htx.
  rewrite detailRequests_app, detailRequests_fetched in Hreq.
  rewrite examinations_app, examinations_fetched, app_nil_r in Hex.
  split.
  - now rewrite Hex, Hreq, Hfex, List.filter_app.
  - now rewrite Htx, Hreq, Hftx, List.filter_app.
Qed.

(** X7. A deep fetch is exhaustive on what it fetched: it never returns
    from the middle of a batch, so that it examines every signature whose
    details it could fetch (a failed detail fetch is skipped over) and
    returns, in order, exactly the signatures among those requested whose
    details classify as a transfer of the wallet. *)
Theorem deep_fetch_exhaustive (f : Fetch) :
  run connection walletAddress tokenMint targetCount maxPages true
    sinceTimestamp knownSignatures = Completed f ->
  examinations (trace f) = List.filter (available connection) (detailRequests (trace f)) /\
  map tx_signature
    (getWalletTransactions connection walletAddress tokenMint targetCount maxPages true
       sinceTimestamp knownSignatures)
    = List.filter (classifies connection walletAddress tokenMint)
        (detailRequests (trace f)).
Proof.
  intros Hrun. unfold getWalletTransactions. rewrite Hrun.
  change (exhaustive' f).
  revert Hrun. unfold run.
  destruct (negb (isValidAddress walletAddress) || negb (isValidAddress tokenMint)).
  { intros [= <-]. now split. }
  destruct (negb (acceptsPublicKey connection (trim walletAddress))); [discriminate|].
  intros Hrun.
  pose proof (pages_invariant connection walletAddress tokenMint targetCount maxPages
                true sinceTimestamp knownSignatures exhaustive' exhaustive') as Hinv.
  assert (Hlog : forall f0 before,
    exhaustive' f0 -> exhaustive' (log [PageRequested before] f0)).
  { intros f0 before [Hex Htx]. unfold exhaustive. cbn [log transactions trace].
    rewrite detailRequests_app, examinations_app. cbn. now rewrite !app_nil_r. }
  assert (Hbatches : forall f0 n before page reached cut reached',
    getSignaturesForAddress connection n before SIGS_PER_PAGE = Some page ->
    sinceCut sinceTimestamp reached page = Some (cut, reached') ->
    exhaustive' f0 ->
    match processBatches connection walletAddress tokenMint targetCount true
            knownSignatures f0 (slices PARALLEL_BATCH_SIZE cut) with
    | (f', true) => exhaustive' f'
    | (f', false) => exhaustive' f'
    end).
  { intros f0 n before page reached cut reached' _ _ Hf0.
    destruct (processBatches_deep (slices PARALLEL_BATCH_SIZE cut) f0 Hf0) as [_ Hstep].
    now destruct (processBatches _ _ _ _ _ _ _ _) as [f' []]. }
  assert (Hstart : exhaustive' fetch0) by now split.
  specialize (Hinv (fun f0 _ _ _ Hf0 => Hf0) Hlog Hbatches
                (pageBound maxPages true) fetch0 Hstart).
  rewrite Hrun in Hinv. now destruct Hinv.
Qed.

End HistoryDeep.

(** ** The response cache of the gateway *)

Section MemoFacts.
Import Js Balances Memo.

Lemma getCached_setCache (now later : Timestamp) (cache : gmap string Entry)
    (key : string) (result : BalanceResult) (ttl : Z) :
  getCached now (setCache later cache key result) key ttl
    = if now - later <? ttl then Some result else None.
Proof. unfold getCached, setCache. now rewrite lookup_insert_eq. Qed.

(** The balance returned is the one the batch model computes in the
    environment the cache stands for. *)
Lemma getTokenBalance_value (rpc : string -> RpcReply) (now later : Timestamp)
    (cache : gmap string Entry) (walletAddress tokenMint : string) :
  (Memo.getTokenBalance rpc now later cache walletAddress tokenMint).1
    = Balances.getTokenBalance (environmentOf rpc now cache tokenMint)
        walletAddress tokenMint.
Proof.
  unfold Memo.getTokenBalance, Balances.getTokenBalance, environmentOf. simpl.
  destruct (negb (History.isValidAddress walletAddress)); [reflexivity|].
  destruct (negb (History.isValidAddress tokenMint)); [reflexivity|].
  destruct (getCached _ _ _ _); [reflexivity|].
  destruct (rpc walletAddress) as [message|[|account accounts]]; reflexivity.
Qed.

(** What a call that was answered by the node without error has stored. *)
Lemma getTokenBalance_stored (rpc : string -> RpcReply) (now later : Timestamp)
    (cache : gmap string Entry) (walletAddress tokenMint : string) :
  let first := Memo.getTokenBalance rpc now later cache walletAddress tokenMint in
  getCached now cache (balanceKey walletAddress tokenMint) CACHE_TTL_walletBalance = None ->
  br_error first.1 = None ->
  History.isValidAddress walletAddress = true /\
  History.isValidAddress tokenMint = true /\
  first.2 = setCache later cache (balanceKey walletAddress tokenMint) first.1.
Proof.
  intros first Hmiss. subst first. unfold Memo.getTokenBalance.
  destruct (History.isValidAddress walletAddress); [|discriminate].
  destruct (History.isValidAddress tokenMint); [|discriminate].
  cbn [negb]. rewrite Hmiss.
  destruct (rpc walletAddress) as [message|[|account accounts]];
    [discriminate|now split|now split].
Qed.

(** A hit: the cached result is returned and nothing changes. *)
Lemma getTokenBalance_hit (rpc : string -> RpcReply) (now later : Timestamp)
    (cache : gmap string Entry) (walletAddress tokenMint : string)
    (cached : BalanceResult) :
  History.isValidAddress walletAddress = true ->
  History.isValidAddress tokenMint = true ->
  getCached now cache (balanceKey walletAddress tokenMint) CACHE_TTL_walletBalance
    = Some cached ->
  Memo.getTokenBalance rpc now later cache walletAddress tokenMint = (cached, cache).
Proof.
  intros Hw Hm Hhit. unfold Memo.getTokenBalance.
  now rewrite Hw, Hm, Hhit.
Qed.

(** A miss: the result is the one an empty cache would give. *)
Lemma getTokenBalance_miss (rpc : string -> RpcReply) (now later : Timestamp)
    (cache : gmap string Entry) (walletAddress tokenMint : string) :
  getCached now cache (balanceKey walletAddress tokenMint) CACHE_TTL_walletBalance
    = None ->
  (Memo.getTokenBalance rpc now later cache walletAddress tokenMint).1
    = (Memo.getTokenBalance rpc now later ∅ walletAddress tokenMint).1.
Proof.
  intros Hmiss. unfold Memo.getTokenBalance. rewrite Hmiss.
  unfold getCached at 1. rewrite lookup_empty.
  destruct (negb (History.isValidAddress walletAddress)); [reflexivity|].
  destruct (negb (History.isValidAddress tokenMint)); [reflexivity|].
  destruct (rpc walletAddress) as [message|[|account accounts]]; reflexivity.
Qed.

(** X8. A balance fetched from the node without error is served from the
    cache for the next 15 seconds: a further call for the same wallet and
    mint within that time returns the same result whatever the node would
    answer, and leaves the cache as it is. Once the entry is 15 seconds old
    the node is asked again, as if nothing had been cached. *)
Theorem balance_cached_for_ttl (rpc rpc' : string -> RpcReply)
    (now later now' later' : Timestamp) (cache : gmap string Entry)
    (walletAddress tokenMint : string) :
  let first := Memo.getTokenBalance rpc now later cache walletAddress tokenMint in
  let second := Memo.getTokenBalance rpc' now' later' first.2 walletAddress tokenMint in
  getCached now cache (balanceKey walletAddress tokenMint) CACHE_TTL_walletBalance = None ->
  br_error first.1 = None ->
  (now' - later < 15000 -> second = (first.1, first.2)) /\
  (15000 <= now' - later ->
     second.1 = (Memo.getTokenBalance rpc' now' later' ∅ walletAddress tokenMint).1).
Proof.
  intros first second Hmiss Hok.
  destruct (getTokenBalance_stored rpc now later cache walletAddress tokenMint Hmiss Hok)
    as (Hw & Hm & Hstored).
  fold first in Hstored. subst second. clearbody first.
  rewrite Hstored at 1 3.
  split; intros Hage.
  - rewrite <- Hstored. apply getTokenBalance_hit; [assumption..|].
    rewrite Hstored, getCached_setCache.
    change CACHE_TTL_walletBalance with 15000.
    apply Z.ltb_lt in Hage. now rewrite Hage.
  - apply getTokenBalance_miss. rewrite getCached_setCache.
    change CACHE_TTL_walletBalance with 15000.
    assert (Hold : (now' - later <? 15000) = false) by (apply Z.ltb_ge; lia).
    now rewrite Hold.
Qed.

(** X9. Errors are never cached: whenever the result of a balance fetch
    carries an error (an invalid address, a request the node rejected), the
    cache is left exactly as it was, so that the next call asks again; and
    a request the node rejects does give such a result, with a balance of
    zero. *)
Theorem balance_error_not_cached (rpc : string -> RpcReply) (now later : Timestamp)
    (cache : gmap string Entry) (walletAddress tokenMint : string) :
  let first := Memo.getTokenBalance rpc now later cache walletAddress tokenMint in
  (is_Some (br_error first.1) -> first.2 = cache) /\
  (forall message, History.isValidAddress walletAddress = true ->
     History.isValidAddress tokenMint = true ->
     getCached now cache (balanceKey walletAddress tokenMint) CACHE_TTL_walletBalance = None ->
     rpc walletAddress = RpcRejected message ->
     is_Some (br_error first.1) /\ br_balance first.1 = 0).
Proof.
  intros first. subst first. unfold Memo.getTokenBalance. split.
  - destruct (negb (History.isValidAddress walletAddress)); [reflexivity|].
    destruct (negb (History.isValidAddress tokenMint)); [reflexivity|].
    destruct (getCached _ _ _ _); [reflexivity|].
    destruct (rpc walletAddress) as [message|[|account accounts]]; [reflexivity| |];
      cbn [fst br_error]; intros [e He]; discriminate.
  - intros message Hw Hm Hmiss Hrpc. rewrite Hw, Hm, Hmiss, Hrpc. cbn. eauto.
Qed.

End MemoFacts.

Section FurtherExamples.
Import Js Classifier History HistoryMore Balances Memo Fixtures.


Lemma parseTokenTransfer_counterparty_sends :
  exists r, parseTokenTransfer (sends 0) walletA mintM = Some r /\
            forall a, tt_toWallet r = Some a -> toLowerCase a <> toLowerCase (trim walletA).
Proof.
  destruct (parseTokenTransfer (sends 0) walletA mintM) as [r|] eqn:Hr;
    [|vm_compute in Hr; discriminate].
  destruct (parseTokenTransfer_counterparty (sends 0) walletA mintM r Hr) as [Hto _].
  exists r. split; [reflexivity|]. intros a Ha. now apply Hto.
Defined.

Lemma parseTokenTransfer_case_insensitive_sends :
  parseTokenTransfer (sends 0) walletA mintM
    = parseTokenTransfer (sends 0) " 7XKXtg2CW87d97TXJSDpbD5jBkheTqA83TZRuJosgAsU "
        "so11111111111111111111111111111111111111112".
Proof.
  apply parseTokenTransfer_case_insensitive; vm_compute; reflexivity.
Defined.

Lemma page_budget_ledger :
  exists f, run ledger walletA mintM 15 3 false None None = Completed f /\
            (pageRequests (trace f) <= 3)%nat.
Proof.
  destruct (run ledger walletA mintM 15 3 false None None) as [f| |] eqn:Hrun;
    [|vm_compute in Hrun; discriminate..].
  exists f. split; [reflexivity|].
  apply (page_budget ledger walletA mintM 15 3 false None None f Hrun).
Defined.

Lemma returned_transfers_genuine_ledger :
  exists f, run ledger walletA mintM 15 3 false None None = Completed f /\
            Forall (genuine ledger walletA mintM (trace f)) (transactions f).
Proof.
  destruct (run ledger walletA mintM 15 3 false None None) as [f| |] eqn:Hrun;
    [|vm_compute in Hrun; discriminate..].
  exists f. split; [reflexivity|].
  apply (returned_transfers_genuine ledger walletA mintM 15 3 false None None f Hrun).
Defined.

Lemma deep_fetch_exhaustive_ledger :
  exists f, run ledger walletA mintM 100 20 true None None = Completed f /\
            map tx_signature (deepFetchWalletTransactions ledger walletA mintM)
              = List.filter (classifies ledger walletA mintM) (detailRequests (trace f)).
Proof.
  destruct (run ledger walletA mintM 100 20 true None None) as [f| |] eqn:Hrun;
    [|vm_compute in Hrun; discriminate..].
  exists f. split; [reflexivity|].
  apply (deep_fetch_exhaustive ledger walletA mintM 100 20 None None f Hrun).
Defined.

Lemma balance_cached_for_ttl_empty :
  let first := Memo.getTokenBalance (fun _ => RpcAccounts []) 0 1 ∅ walletA mintM in
  Memo.getTokenBalance (fun _ => RpcRejected "down") 10_000 10_001 first.2 walletA mintM
    = (first.1, first.2).
Proof.
  intros first.
  destruct (balance_cached_for_ttl (fun _ => RpcAccounts []) (fun _ => RpcRejected "down")
              0 1 10_000 10_001 ∅ walletA mintM) as [Hhit _].
  - vm_compute. reflexivity.
  - vm_compute. reflexivity.
  - apply Hhit. lia.
Defined.

Lemma balance_error_not_cached_rejected :
  (Memo.getTokenBalance (fun _ => RpcRejected "down") 0 1 ∅ walletA mintM).2 = ∅.
Proof.
  destruct (balance_error_not_cached (fun _ => RpcRejected "down") 0 1 ∅ walletA mintM)
    as [Hkept Herror].
  apply Hkept.
  apply (Herror "down"); vm_compute; reflexivity.
Defined.

End FurtherExamples.

(** ** The persistent caches: what is read back after a write *)

Section JsMapKeys.
Import Js.
Context {V : Type}.
Implicit Types (m : list (string * V)) (k : string) (v : V).

Lemma mapSet_fresh k v m : k ∉ m.*1 -> mapSet k v m = m ++ [(k, v)].
Proof.
  induction m as [|[k' v'] m IH]; simpl; intros Hk; [reflexivity|].
  apply not_elem_of_cons in Hk as [Hne Hk].
  destruct (String.eqb k k') eqn:E.
  - apply String.eqb_eq in E. congruence.
  - now rewrite IH.
Qed.

Lemma mapSet_keys_elem k k' v m : k' ∈ (mapSet k v m).*1 <-> k' = k \/ k' ∈ m.*1.
Proof.
  induction m as [|[k0 v0] m IH]; simpl.
  - rewrite list_elem_of_singleton. split; [now left|]. intros [H|H]; [exact H|].
    inversion H.
  - destruct (String.eqb k k0) eqn:E; simpl.
    + apply String.eqb_eq in E. subst k0. rewrite !elem_of_cons. tauto.
    + rewrite !elem_of_cons, IH. tauto.
Qed.

Lemma mapSet_keys_NoDup k v m : NoDup m.*1 -> NoDup (mapSet k v m).*1.
Proof.
  induction m as [|[k0 v0] m IH]; simpl; intros Hnd.
  - apply NoDup_singleton.
  - apply NoDup_cons in Hnd as [Hk0 Hnd].
    destruct (String.eqb k k0) eqn:E; simpl.
    + apply String.eqb_eq in E. subst k0. now apply NoDup_cons.
    + apply NoDup_cons. split; [|now apply IH].
      rewrite mapSet_keys_elem. intros [Heq|Hin]; [|contradiction].
      subst k0. rewrite String.eqb_refl in E. discriminate.
Qed.

Lemma mapOf_from (entries acc : list (string * V)) :
  NoDup (acc ++ entries).*1 ->
  fold_left (fun m e => mapSet e.1 e.2 m) entries acc = acc ++ entries.
Proof.
  revert acc. induction entries as [|[k v] es IH]; intros acc Hnd; simpl.
  - now rewrite app_nil_r.
  - rewrite mapSet_fresh.
    + rewrite IH; rewrite <- app_assoc; [reflexivity|exact Hnd].
    + rewrite fmap_app in Hnd. apply NoDup_app in Hnd as (_ & Hdisj & _).
      intros Hin. apply (Hdisj k Hin). simpl. left.
Qed.

Lemma mapOf_id m : NoDup m.*1 -> mapOf m = m.
Proof. intros Hnd. unfold mapOf. now rewrite mapOf_from. Qed.

Lemma mapOf_keys_NoDup (entries : list (string * V)) : NoDup (mapOf entries).*1.
Proof.
  unfold mapOf.
  assert (Hgen : forall acc, NoDup acc.*1 ->
            NoDup (fold_left (fun m e => mapSet e.1 e.2 m) entries acc).*1).
  { induction entries as [|e es IH]; intros acc Hacc; simpl; [exact Hacc|].
    apply IH. now apply mapSet_keys_NoDup. }
  apply Hgen. apply NoDup_nil_2.
Qed.

Lemma mapOf_keys_elem k (entries : list (string * V)) :
  k ∈ (mapOf entries).*1 <-> k ∈ entries.*1.
Proof.
  unfold mapOf.
  assert (Hgen : forall acc,
            k ∈ (fold_left (fun m e => mapSet e.1 e.2 m) entries acc).*1
            <-> k ∈ acc.*1 \/ k ∈ entries.*1).
  { induction entries as [|e es IH]; intros acc; simpl.
    - split; [now left|]. intros [H|H]; [exact H|inversion H].
    - rewrite IH, mapSet_keys_elem, elem_of_cons. tauto. }
  rewrite Hgen. split; [|now right]. intros [H|H]; [inversion H|exact H].
Qed.

Lemma mapGet_None k m : mapGet k m = None <-> k ∉ m.*1.
Proof.
  induction m as [|[k' v'] m IH]; simpl.
  - split; [|reflexivity]. intros _ H. inversion H.
  - rewrite not_elem_of_cons. destruct (String.eqb k k') eqn:E.
    + apply String.eqb_eq in E. split; [discriminate|]. intros [Hne _]. congruence.
    + apply String.eqb_neq in E. rewrite IH. tauto.
Qed.

(** Maps whose values are filed under a key computed from the value. *)
Lemma mapSet_filed (f : V -> string) k v m :
  f v = k -> Forall (fun e => f e.2 = e.1) m ->
  Forall (fun e => f e.2 = e.1) (mapSet k v m).
Proof.
  intros Hk. induction m as [|[k0 v0] m IH]; simpl; intros Hm.
  - now constructor.
  - apply Forall_cons in Hm as [Hhead Hm].
    destruct (String.eqb k k0); constructor; auto.
Qed.

Lemma mapOf_filed (f : V -> string) (l : list V) :
  Forall (fun e => f e.2 = e.1) (mapOf (map (fun v => (f v, v)) l)).
Proof.
  unfold mapOf.
  assert (Hgen : forall acc, Forall (fun e => f e.2 = e.1) acc ->
            Forall (fun e => f e.2 = e.1)
              (fold_left (fun m e => mapSet e.1 e.2 m) (map (fun v => (f v, v)) l) acc)).
  { induction l as [|v l IH]; intros acc Hacc; simpl; [exact Hacc|].
    apply IH. now apply mapSet_filed. }
  apply Hgen. constructor.
Qed.

Lemma filed_values (f : V -> string) m :
  Forall (fun e => f e.2 = e.1) m -> map (fun v => (f v, v)) (mapValues m) = m.
Proof.
  unfold mapValues. induction 1 as [|[k v] m Hk Hm IH]; [reflexivity|].
  simpl in Hk. rewrite fmap_cons. cbn [map snd]. rewrite Hk. f_equal. exact IH.
Qed.

Lemma filed_keys (f : V -> string) m :
  Forall (fun e => f e.2 = e.1) m -> map f (mapValues m) = m.*1.
Proof.
  unfold mapValues. induction 1 as [|[k v] m Hk Hm IH]; [reflexivity|].
  simpl in Hk. rewrite !fmap_cons. cbn [map snd fst]. rewrite Hk. f_equal. exact IH.
Qed.

End JsMapKeys.

Section CachedBalancesFacts.
Import Js Balances History DataCache CacheReads.

Local Abbreviation filed :=
  (Forall (fun e : string * CachedWallet => cw_address e.2 = e.1)).

Lemma mergeBalances_wf (now : Timestamp) (walletData : list WalletBalance) :
  forall m, NoDup m.*1 -> filed m ->
    NoDup (mergeBalances now m walletData).*1 /\ filed (mergeBalances now m walletData).
Proof.
  unfold mergeBalances.
  induction walletData as [|w ws IH]; intros m Hnd Hfiled; simpl; [now split|].
  apply IH; unfold mergeWallet.
  - now apply mapSet_keys_NoDup.
  - now apply mapSet_filed.
Qed.

Lemma mergeBalances_keys (now : Timestamp) (walletData : list WalletBalance) (a : string) :
  forall m, a ∈ (mergeBalances now m walletData).*1
            <-> a ∈ m.*1 \/ a ∈ map wb_address walletData.
Proof.
  unfold mergeBalances.
  induction walletData as [|w ws IH]; intros m; simpl.
  - split; [now left|]. intros [H|H]; [exact H|inversion H].
  - rewrite IH. unfold mergeWallet. rewrite mapSet_keys_elem, elem_of_cons. tauto.
Qed.

Lemma existingMapOf_wf (cache : gmap string BalanceCacheEntry) (tokenMint : string) :
  NoDup (existingMapOf cache tokenMint).*1 /\ filed (existingMapOf cache tokenMint).
Proof.
  unfold existingMapOf. split; [apply mapOf_keys_NoDup|].
  apply (mapOf_filed cw_address).
Qed.

Lemma existingMapOf_keys (cache : gmap string BalanceCacheEntry) (tokenMint a : string) :
  a ∈ (existingMapOf cache tokenMint).*1
  <-> a ∈ map cw_address (existingWallets cache tokenMint).
Proof.
  unfold existingMapOf. rewrite mapOf_keys_elem.
  replace ((map (fun w => (cw_address w, w)) (existingWallets cache tokenMint)).*1)
    with (map cw_address (existingWallets cache tokenMint)); [reflexivity|].
  induction (existingWallets cache tokenMint) as [|w ws IH]; [reflexivity|].
  cbn [map]. rewrite fmap_cons. cbn [fst]. now f_equal.
Qed.

(** The map a later read rebuilds from the stored wallets is the map the
    merge ended with. *)
Lemma stored_map_rebuilt (now : Timestamp) (st : Storage) (tokenMint : string)
    (walletData : list WalletBalance) :
  existingMapOf (balanceCache (cacheWalletBalances now st tokenMint walletData).1) tokenMint
    = mergeBalances now (existingMapOf (balanceCache st) tokenMint) walletData.
Proof.
  unfold existingMapOf at 1, existingWallets at 1, cacheWalletBalances.
  cbn [fst balanceCache]. rewrite lookup_insert_eq. cbn [fmap option_fmap option_map default bc_wallets].
  destruct (existingMapOf_wf (balanceCache st) tokenMint) as [Hnd Hfiled].
  destruct (mergeBalances_wf now walletData _ Hnd Hfiled) as [Hnd' Hfiled'].
  unfold id. rewrite (filed_values cw_address _ Hfiled'). now apply mapOf_id.
Qed.

(** An address of the batch ends with an entry updated at [now]. *)
Lemma mergeBalances_updated (now : Timestamp) (a : string) (walletData : list WalletBalance) :
  a ∈ map wb_address walletData ->
  forall m, exists e, mapGet a (mergeBalances now m walletData) = Some e
                      /\ lastUpdated e = now.
Proof.
  induction walletData as [|w ws IH]; intros Hin m; [inversion Hin|].
  destruct (decide (a ∈ map wb_address ws)) as [Hlater|Hlast].
  - apply (IH Hlater).
  - simpl in Hin. apply elem_of_cons in Hin as [->|Hin]; [|contradiction].
    change (mergeBalances now m (w :: ws))
      with (mergeBalances now (mergeWallet now m w) ws).
    rewrite (mergeBalances_other now _ ws Hlast), mergeWallet_entry.
    eexists. split; reflexivity.
Qed.

(** X10. The wallets a balance merge stores and returns have pairwise
    distinct addresses, whatever the cache held before and however often an
    address occurs in the batch; their addresses are those cached before
    together with those of the batch, so that no cached wallet is ever
    dropped. *)
Theorem cached_addresses_distinct (now : Timestamp) (st : Storage) (tokenMint : string)
    (walletData : list WalletBalance) :
  let wallets := (cacheWalletBalances now st tokenMint walletData).2 in
  NoDup (map cw_address wallets) /\
  forall a, a ∈ map cw_address wallets
            <-> a ∈ map cw_address (existingWallets (balanceCache st) tokenMint)
                \/ a ∈ map wb_address walletData.
Proof.
  cbn [cacheWalletBalances snd].
  destruct (existingMapOf_wf (balanceCache st) tokenMint) as [Hnd Hfiled].
  destruct (mergeBalances_wf now walletData _ Hnd Hfiled) as [Hnd' Hfiled'].
  rewrite (filed_keys cw_address _ Hfiled'). split; [exact Hnd'|].
  intros a. now rewrite mergeBalances_keys, existingMapOf_keys.
Qed.

(** X11. Reading the balances of a token back after a merge at [now] gives
    the wallets the merge returned, with [now] as the time of the last
    sync (also in the sync state); the data is reported stale exactly when
    more than two minutes have passed since, and as present unless both the
    batch and the cache were empty. *)
Theorem cached_balances_read_back (now clock : Timestamp) (st : Storage)
    (tokenMint : string) (walletData : list WalletBalance) :
  let after := cacheWalletBalances now st tokenMint walletData in
  let read := getCachedBalances clock after.1 tokenMint in
  cb_wallets read = after.2 /\
  cb_lastSync read = Some now /\
  getLastSyncTime after.1 tokenMint "balances" = Some now /\
  (cb_isStale read = Some true <-> 120000 < clock - now) /\
  (cb_isStale read = Some false <-> clock - now <= 120000) /\
  (cb_hasData read = false
   <-> walletData = [] /\ existingWallets (balanceCache st) tokenMint = []).
Proof.
  intros after read.
  subst read after. unfold getCachedBalances, getLastSyncTime.
  cbn [cacheWalletBalances fst snd balanceCache syncState].
  unfold updateSyncState. rewrite !lookup_insert_eq.
  cbn [cb_wallets cb_lastSync cb_isStale cb_hasData bc_wallets bc_lastSync mbind option_bind].
  rewrite lookup_insert_eq.
  split; [reflexivity|]. split; [reflexivity|]. split; [reflexivity|].
  unfold isStale. change TTL_WALLET_BALANCE with 120000.
  split; [|split].
  - destruct (Z.ltb_spec 120000 (clock - now)); split; intros H'; try reflexivity;
      try discriminate; try lia; injection H'; discriminate.
  - destruct (Z.ltb_spec 120000 (clock - now)); split; intros H'; try reflexivity;
      try discriminate; try lia; injection H'; discriminate.
  - destruct (existingMapOf_wf (balanceCache st) tokenMint) as [Hnd Hfiled].
    destruct (mergeBalances_wf now walletData _ Hnd Hfiled) as [Hnd' Hfiled'].
    set (merged := mergeBalances now (existingMapOf (balanceCache st) tokenMint) walletData)
      in *.
    assert (Hkeys : forall a, a ∈ map cw_address (mapValues merged)
              <-> a ∈ map cw_address (existingWallets (balanceCache st) tokenMint)
                  \/ a ∈ map wb_address walletData).
    { intros a. rewrite (filed_keys cw_address _ Hfiled'). subst merged.
      now rewrite mergeBalances_keys, existingMapOf_keys. }
    split.
    + intros Hempty. apply Nat.ltb_ge in Hempty.
      destruct (mapValues merged) as [|e es] eqn:Hvalues; [|simpl in Hempty; lia].
      split.
      * destruct walletData as [|w ws]; [reflexivity|].
        exfalso. assert (Hin : wb_address w ∈ map cw_address []).
        { apply Hkeys. right. simpl. left. }
        inversion Hin.
      * destruct (existingWallets (balanceCache st) tokenMint) as [|w ws]; [reflexivity|].
        exfalso. assert (Hin : cw_address w ∈ map cw_address []).
        { apply Hkeys. left. simpl. left. }
        inversion Hin.
    + intros [Hbatch Hcache]. apply Nat.ltb_ge.
      destruct (mapValues merged) as [|e es] eqn:Hvalues; [simpl; lia|].
      exfalso. assert (Hin : cw_address e ∈ map cw_address (e :: es)) by (simpl; left).
      apply Hkeys in Hin. rewrite Hbatch, Hcache in Hin.
      destruct Hin as [Hin|Hin]; inversion Hin.
Qed.

(** The staleness of a wallet is that of the entry found under its address
    in the map rebuilt from the cache. *)
Lemma getStaleWallets_spec (clock : Timestamp) (st : Storage) (tokenMint : string)
    (allWallets : list Wallet) (maxAge : Z) (wallet : Wallet) :
  wallet ∈ getStaleWallets clock st tokenMint allWallets maxAge
  <-> wallet ∈ allWallets /\
      needsRefresh clock (existingMapOf (balanceCache st) tokenMint) maxAge wallet = true.
Proof.
  unfold getStaleWallets, getCachedBalances, existingMapOf, existingWallets.
  rewrite !list_elem_of_In, filter_In.
  destruct (balanceCache st !! tokenMint) as [entry|]; reflexivity.
Qed.

(** X12. After a balance merge at [now], a wallet whose address is in the
    merged batch is reported as needing a refresh exactly when more than
    [maxAge] milliseconds have passed since [now]; for every other wallet
    the answer is what it was before the merge. *)
Theorem stale_wallets_after_caching (now clock : Timestamp) (st : Storage)
    (tokenMint : string) (walletData : list WalletBalance) (allWallets : list Wallet)
    (maxAge : Z) (wallet : Wallet) :
  let after := (cacheWalletBalances now st tokenMint walletData).1 in
  (w_address wallet ∈ map wb_address walletData ->
     (wallet ∈ getStaleWallets clock after tokenMint allWallets maxAge
      <-> wallet ∈ allWallets /\ maxAge < clock - now)) /\
  (w_address wallet ∉ map wb_address walletData ->
     (wallet ∈ getStaleWallets clock after tokenMint allWallets maxAge
      <-> wallet ∈ getStaleWallets clock st tokenMint allWallets maxAge)).
Proof.
  intros after. subst after. rewrite !getStaleWallets_spec, stored_map_rebuilt.
  unfold needsRefresh. split; intros Hbatch.
  - destruct (mergeBalances_updated now _ walletData Hbatch
                (existingMapOf (balanceCache st) tokenMint)) as (e & -> & ->).
    cbv zeta. rewrite Z.ltb_lt. reflexivity.
  - now rewrite (mergeBalances_other now _ walletData Hbatch).
Qed.

End CachedBalancesFacts.

Section CachedTransfersFacts.
Import Js Balances History DataCache CacheReads.

Lemma newestFirst_head (tx : Transaction) (rest : list Transaction) :
  newestFirst (tx :: rest) -> forall y, y ∈ tx :: rest -> timeKey y <= timeKey tx.
Proof.
  revert tx. induction rest as [|z rest IH]; intros tx Hsorted y Hin.
  - apply list_elem_of_singleton in Hin. subst y. lia.
  - inversion Hsorted as [| |? ? ? Hle Hrest]; subst.
    apply elem_of_cons in Hin as [->|Hin]; [lia|].
    specialize (IH z Hrest y Hin). lia.
Qed.

Lemma uniqueNew_spec (known : gset string) (txs : list Transaction) (tx : Transaction) :
  tx ∈ List.filter (fun tx => negb (bool_decide (tx_signature tx ∈ known))) txs
  <-> tx ∈ txs /\ tx_signature tx ∉ known.
Proof.
  rewrite !list_elem_of_In, filter_In, negb_true_iff, bool_decide_eq_false.
  reflexivity.
Qed.

Lemma NoDup_map_filter {A B : Type} (f : A -> B) (p : A -> bool) (l : list A) :
  NoDup (map f l) -> NoDup (map f (List.filter p l)).
Proof.
  induction l as [|x l IH]; simpl; intros Hnd; [exact Hnd|].
  apply NoDup_cons in Hnd as [Hx Hnd].
  destruct (p x); simpl; [|now apply IH].
  apply NoDup_cons. split; [|now apply IH].
  intros Hin. apply Hx.
  apply list_elem_of_In, in_map_iff in Hin as (y & Hy & Hin).
  apply filter_In in Hin as [Hin _].
  apply list_elem_of_In, in_map_iff. eauto.
Qed.

(** X13. What a merge of transfers stores is ordered newest first and holds
    exactly the transfers cached before and the incoming ones whose
    signature was not cached; the reported total is the length of the
    stored list, which is the number reported as added plus the number
    cached before, and no more is added than came in. *)
Theorem cacheTransactions_sorted_counts (now : Timestamp) (st : Storage)
    (tokenMint : string) (newTransactions : list Transaction) :
  let existing := existingTransactions (transactionCache st) tokenMint in
  let after := cacheTransactions now st tokenMint newTransactions in
  let stored := existingTransactions (transactionCache after.1) tokenMint in
  newestFirst stored /\
  (forall tx, tx ∈ stored
     <-> tx ∈ existing
         \/ (tx ∈ newTransactions /\ tx_signature tx ∉ map tx_signature existing)) /\
  total after.2 = length stored /\
  total after.2 = (added after.2 + length existing)%nat /\
  (added after.2 <= length newTransactions)%nat.
Proof.
  intros existing after stored.
  destruct (cacheTransactions_stored now st tokenMint newTransactions)
    as (Hstored & Hadded & Htotal).
  fold existing in Hstored, Hadded, Htotal. fold after in Hstored, Hadded, Htotal.
  fold stored in Hstored. clearbody stored after existing.
  rewrite Hstored, Hadded, Htotal.
  split; [apply sortNewestFirst_sorted|]. split; [|split; [reflexivity|split]].
  - intros tx. rewrite (sortNewestFirst_perm _), elem_of_app, uniqueNew_spec.
    rewrite elem_of_list_to_set. tauto.
  - rewrite (sortNewestFirst_perm _), length_app. reflexivity.
  - apply filter_length_le.
Qed.

(** X14. Signatures stay pairwise distinct in the transfer cache: when they
    are distinct in what is cached and distinct within the incoming list,
    they are distinct in what the merge stores. *)
Theorem cacheTransactions_signatures_distinct (now : Timestamp) (st : Storage)
    (tokenMint : string) (newTransactions : list Transaction) :
  NoDup (map tx_signature (existingTransactions (transactionCache st) tokenMint)) ->
  NoDup (map tx_signature newTransactions) ->
  NoDup (map tx_signature
           (existingTransactions
              (transactionCache (cacheTransactions now st tokenMint newTransactions).1)
              tokenMint)).
Proof.
  intros Hexisting Hnew.
  destruct (cacheTransactions_stored now st tokenMint newTransactions) as (Hstored & _).
  rewrite Hstored.
  rewrite (Permutation_map tx_signature (sortNewestFirst_perm _)).
  rewrite map_app. apply NoDup_app. split; [now apply NoDup_map_filter|].
  split; [|exact Hexisting].
  intros sig Hin Hin'.
  apply list_elem_of_In, in_map_iff in Hin as (tx & <- & Hin).
  apply list_elem_of_In, uniqueNew_spec in Hin as [_ Hunknown].
  apply Hunknown. now apply elem_of_list_to_set.
Qed.

(** X15. After a merge of transfers, the time [getNewestTransactionTime]
    reports for the token is the time of a cached transfer and no cached
    transfer of the token is more recent. *)
Theorem newest_transaction_time_maximal (now : Timestamp) (st : Storage)
    (tokenMint : string) (newTransactions : list Transaction) (t : Timestamp) :
  let after := (cacheTransactions now st tokenMint newTransactions).1 in
  let stored := existingTransactions (transactionCache after) tokenMint in
  getNewestTransactionTime after tokenMint = Some t ->
  (exists tx, tx ∈ stored /\ tx_timestamp tx = Some t) /\
  (forall tx, tx ∈ stored -> timeKey tx <= t).
Proof.
  intros after stored.
  assert (Hsorted : newestFirst stored).
  { subst stored after.
    destruct (cacheTransactions_stored now st tokenMint newTransactions) as (-> & _).
    apply sortNewestFirst_sorted. }
  assert (Hread : ct_transactions (getCachedTransactions after tokenMint) = stored).
  { subst stored. unfold getCachedTransactions, existingTransactions.
    destruct (transactionCache after !! tokenMint); reflexivity. }
  unfold getNewestTransactionTime. rewrite Hread. clearbody stored.
  destruct (negb _); [discriminate|].
  destruct stored as [|tx rest]; [discriminate|]. cbn [head mbind option_bind].
  intros Htime. split.
  - exists tx. split; [left|exact Htime].
  - intros y Hin. pose proof (newestFirst_head tx rest Hsorted y Hin) as Hle.
    unfold timeKey in Hle at 2. rewrite Htime in Hle. exact Hle.
Qed.

End CachedTransfersFacts.

Section TokenCachesFacts.
Import Js Balances History DataCache CacheReads.
Context {Metadata : Type}.
Implicit Types (caches : Caches Metadata).

(** X16. Caching a price appends one point to the price history of the
    token and keeps at most the 99 most recent earlier points, in order: the
    history never exceeds 100 points and ends with the price just cached.
    The price read back is that price, stale exactly when more than a
    minute has passed. *)
Theorem cacheTokenPrice_history (now clock : Timestamp) caches (tokenMint : string)
    (price : option Q) (change24h : Q) :
  let existing := existingHistory (priceCache caches) tokenMint in
  let read := getCachedTokenPrice clock (cacheTokenPrice now caches tokenMint price change24h)
                tokenMint in
  cp_price read = price /\
  (cp_isStale read = Some true <-> 60000 < clock - now) /\
  exists older,
    cp_priceHistory read
      = Some (older ++ [ {| pp_price := price; pp_timestamp := now |} ]) /\
    older `suffix_of` existing /\
    length older = Nat.min (length existing) 99 /\
    (length (older ++ [ {| pp_price := price; pp_timestamp := now |} ]) <= 100)%nat.
Proof.
  intros existing read. subst read.
  unfold getCachedTokenPrice, cacheTokenPrice. cbn [priceCache].
  rewrite lookup_insert_eq.
  cbn [cp_price cp_isStale cp_priceHistory currentPrice priceHistory pe_lastSync].
  fold existing. split; [reflexivity|]. split.
  - unfold isStale. change TTL_TOKEN_PRICE with 60000.
    destruct (Z.ltb_spec 60000 (clock - now)); split; intros H'; try reflexivity;
      try discriminate; try lia; injection H'; discriminate.
  - exists (sliceLast 99 existing). split; [reflexivity|].
    unfold sliceLast. split; [apply suffix_drop|].
    rewrite length_app, length_drop. simpl. lia.
Qed.

(** The wallets found fresh are those the staleness test rejects. *)
Lemma freshWallets_spec (clock : Timestamp) caches (tokenMint : string)
    (wallets : list Wallet) :
  let cachedMap := existingMapOf (balanceCache (storage caches)) tokenMint in
  staleWallets (getSyncNeeds clock caches tokenMint wallets)
    = List.filter (needsRefresh clock cachedMap TTL_WALLET_BALANCE) wallets /\
  freshWallets (getSyncNeeds clock caches tokenMint wallets)
    = List.filter (fun w => negb (needsRefresh clock cachedMap TTL_WALLET_BALANCE w)) wallets.
Proof.
  intros cachedMap.
  assert (Hstale : getStaleWallets clock (storage caches) tokenMint wallets TTL_WALLET_BALANCE
            = List.filter (needsRefresh clock cachedMap TTL_WALLET_BALANCE) wallets).
  { subst cachedMap.
    unfold getStaleWallets, getCachedBalances, existingMapOf, existingWallets.
    destruct (balanceCache (storage caches) !! tokenMint); reflexivity. }
  unfold getSyncNeeds. cbn [staleWallets freshWallets]. rewrite Hstale.
  split; [reflexivity|].
  apply filter_ext_in. intros w Hw. f_equal.
  set (p := needsRefresh clock cachedMap TTL_WALLET_BALANCE).
  destruct (p w) eqn:Hp.
  - apply existsb_exists. exists w. split; [|apply String.eqb_refl].
    apply filter_In. now split.
  - apply not_true_iff_false. intros Hfound.
    apply existsb_exists in Hfound as (s & Hs & Haddress).
    apply filter_In in Hs as [_ Hs]. apply String.eqb_eq in Haddress.
    subst p. unfold needsRefresh in Hs, Hp. rewrite Haddress in Hs. congruence.
Qed.

(** X17. The sync plan splits the watched wallets in two: every wallet is
    either among the stale ones or among the fresh ones and never both, a
    wallet is stale exactly when no balance is cached under its address or
    the cached one is more than two minutes old, and balances need a sync
    exactly when some wallet is stale. *)
Theorem sync_needs_partition (clock : Timestamp) caches (tokenMint : string)
    (wallets : list Wallet) :
  let plan := getSyncNeeds clock caches tokenMint wallets in
  let cachedMap := existingMapOf (balanceCache (storage caches)) tokenMint in
  (forall w, w ∈ staleWallets plan
     <-> w ∈ wallets /\
         match mapGet (w_address w) cachedMap with
         | None => True
         | Some cached => 120000 < clock - lastUpdated cached
         end) /\
  (forall w, w ∈ freshWallets plan
     <-> w ∈ wallets /\ w ∉ staleWallets plan) /\
  (length (staleWallets plan) + length (freshWallets plan)
     = length wallets)%nat /\
  (needsBalances plan = false <-> freshWallets plan = wallets).
Proof.
  intros plan cachedMap.
  destruct (freshWallets_spec clock caches tokenMint wallets) as [Hstale Hfresh].
  fold plan cachedMap in Hstale, Hfresh.
  assert (Hneeds : needsBalances plan
            = (0 <? length (staleWallets plan))%nat) by reflexivity.
  clearbody plan. rewrite Hneeds, Hstale, Hfresh.
  set (p := needsRefresh clock cachedMap TTL_WALLET_BALANCE).
  assert (Hp : forall w, p w = true
            <-> match mapGet (w_address w) cachedMap with
                | None => True
                | Some cached => 120000 < clock - lastUpdated cached
                end).
  { intros w. subst p. unfold needsRefresh.
    destruct (mapGet (w_address w) cachedMap); [apply Z.ltb_lt|tauto]. }
  split; [|split; [|split]].
  - intros w. now rewrite list_elem_of_In, filter_In, Hp, list_elem_of_In.
  - intros w. rewrite !list_elem_of_In, !filter_In, negb_true_iff.
    destruct (p w); intuition congruence.
  - clear Hp Hstale Hfresh. induction wallets as [|w ws IH]; [reflexivity|].
    simpl. destruct (p w); simpl; lia.
  - clear Hp Hstale Hfresh. rewrite Nat.ltb_ge. split.
    + intros Hnone. induction wallets as [|w ws IH]; [reflexivity|].
      simpl in *. destruct (p w); simpl in *; [lia|]. f_equal. now apply IH.
    + intros Hall.
      assert (Hlen : (length (List.filter p wallets)
                      + length (List.filter (fun w => negb (p w)) wallets)
                      = length wallets)%nat).
      { clear Hall. induction wallets as [|w ws IH]; [reflexivity|].
        simpl. destruct (p w); simpl; lia. }
      rewrite Hall in Hlen. lia.
Qed.

(** X18. Clearing the cache of a token leaves nothing of it behind: the
    sync plan then asks for everything, with every watched wallet stale
    and no time of a newest transfer, and no sync time is recorded. The
    plans and sync times of every other token are what they were. *)
Theorem clearTokenCache_forgets (clock : Timestamp) caches (tokenMint other : string)
    (wallets : list Wallet) (dataType : string) :
  let after := clearTokenCache caches tokenMint in
  getSyncNeeds clock after tokenMint wallets
    = {| needsMetadata := true; needsPrice := true;
         needsBalances := (0 <? length wallets)%nat;
         staleWallets := wallets; freshWallets := [];
         needsTransactions := true; newestTxTime := None |} /\
  getLastSyncTime (storage after) tokenMint dataType = None /\
  (other <> tokenMint ->
     getSyncNeeds clock after other wallets = getSyncNeeds clock caches other wallets /\
     getLastSyncTime (storage after) other dataType
       = getLastSyncTime (storage caches) other dataType).
Proof.
  intros after. subst after. split; [|split].
  - unfold getSyncNeeds, getStaleWallets, getNewestTransactionTime, getCachedBalances,
      getCachedTransactions, getCachedTokenMetadata, getCachedTokenPrice, clearTokenCache.
    cbn [storage metadataCache priceCache balanceCache transactionCache].
    rewrite !lookup_delete_eq. cbn.
    assert (Hall : List.filter (needsRefresh clock [] TTL_WALLET_BALANCE) wallets = wallets).
    { clear. induction wallets as [|w ws IH]; [reflexivity|]. simpl. now rewrite IH. }
    rewrite Hall. f_equal.
    assert (Hnone : forall (p : Wallet -> bool) (l : list Wallet),
              (forall x, In x l -> p x = false) -> List.filter p l = []).
    { clear. intros p l. induction l as [|x l IH]; intros Hp; [reflexivity|].
      simpl. rewrite (Hp x) by now left. apply IH. intros y Hy. apply Hp. now right. }
    apply Hnone. intros x Hx. apply negb_false_iff.
    apply existsb_exists. exists x. split; [exact Hx|apply String.eqb_refl].
  - unfold getLastSyncTime, clearTokenCache. cbn [storage syncState].
    now rewrite lookup_delete_eq.
  - intros Hother.
    unfold getSyncNeeds, getStaleWallets, getNewestTransactionTime, getCachedBalances,
      getCachedTransactions, getCachedTokenMetadata, getCachedTokenPrice, getLastSyncTime,
      clearTokenCache.
    cbn [storage metadataCache priceCache balanceCache transactionCache syncState].
    rewrite !lookup_delete_ne by congruence. split; reflexivity.
Qed.

End TokenCachesFacts.

Section CacheReadExamples.
Import Js Classifier History Balances DataCache CacheReads Fixtures.

Lemma stale_wallets_after_caching_someStorage :
  wallet "b" walletB
    ∉ getStaleWallets 100 (cacheWalletBalances 9 someStorage mintM [holding walletB 4]).1
        mintM [wallet "a" walletA; wallet "b" walletB] 120000.
Proof.
  destruct (stale_wallets_after_caching 9 100 someStorage mintM [holding walletB 4]
              [wallet "a" walletA; wallet "b" walletB] 120000 (wallet "b" walletB))
    as [Hbatch _].
  intros Hin. apply Hbatch in Hin as [_ Hage]; [lia|].
  apply list_elem_of_In. left. reflexivity.
Defined.

Lemma cacheTransactions_signatures_distinct_someStorage :
  NoDup (map tx_signature
           (existingTransactions
              (transactionCache
                 (cacheTransactions 9 someStorage mintM
                    [transferAt "new" 0 BUY 1; transferAt "sale" 1 SELL 1]).1)
              mintM)).
Proof.
  apply cacheTransactions_signatures_distinct.
  - apply (bool_decide_unpack _). vm_compute. reflexivity.
  - apply (bool_decide_unpack _). vm_compute. reflexivity.
Defined.

Lemma newest_transaction_time_maximal_someStorage :
  Forall (fun tx => timeKey tx <= clockNow - hour)
    (existingTransactions
       (transactionCache (cacheTransactions 9 someStorage mintM []).1) mintM).
Proof.
  apply Forall_forall.
  apply (newest_transaction_time_maximal 9 someStorage mintM [] (clockNow - hour)).
  vm_compute. reflexivity.
Defined.

Lemma clearTokenCache_forgets_someStorage :
  let caches : Caches string :=
    {| storage := someStorage; metadataCache := ∅; priceCache := ∅ |} in
  getLastSyncTime (storage (clearTokenCache caches mintM)) walletB "balances"
    = getLastSyncTime (storage caches) walletB "balances".
Proof.
  intros caches.
  destruct (clearTokenCache_forgets 0 caches mintM walletB [] "balances")
    as (_ & _ & Hother).
  apply Hother. vm_compute. discriminate.
Defined.

End CacheReadExamples.

(** ** The status of a wallet: the whole decision *)

Section StatusDecision.
Import Js History Status.

Variables (now : Timestamp) (transactions : list Transaction) (trackedAddresses : gset string).
Variable walletAddress : string.

Local Abbreviation walletTxs := (walletTxsOf transactions trackedAddresses walletAddress).
Local Abbreviation statusOf :=
  (getActivityStatus now transactions trackedAddresses walletAddress).

Lemma lowerPriority_range (p : Pass) :
  lowerPriority p = TRANSFERRED \/ lowerPriority p = RECEIVED \/ lowerPriority p = BUY \/
  lowerPriority p = BOUGHT_MORE \/ lowerPriority p = HOLDING.
Proof.
  unfold lowerPriority.
  repeat match goal with |- context [if ?b then _ else _] => destruct b end; tauto.
Qed.

Lemma lowerRules_not_selling (txs : list ProcessedTx) : lowerRules now txs <> SELLING.
Proof.
  unfold lowerRules.
  repeat match goal with |- context [if ?b then _ else _] => destruct b end;
    discriminate.
Qed.

Lemma status_no_transfers (balance : Q) :
  (0 < balance)%Q -> walletTxs = [] -> statusOf (Some balance) = UNKNOWN.
Proof.
  intros Hpos Hnone. unfold getActivityStatus.
  assert (Hle : Qle_bool balance 0 = false).
  { destruct (Qle_bool balance 0) eqn:E; [|reflexivity].
    apply Qle_bool_iff in E. exfalso. exact (Qlt_not_le _ _ Hpos E). }
  rewrite Hle. cbv zeta.
  change (default [] (ws_transactions <$>
            walletTransactionsMap transactions trackedAddresses
              !! toLowerCase walletAddress)) with walletTxs.
  now rewrite Hnone.
Qed.

Lemma status_with_transfers (balance : Q) :
  (0 < balance)%Q -> walletTxs <> [] ->
  statusOf (Some balance) <> OUT /\ statusOf (Some balance) <> UNKNOWN.
Proof.
  intros Hpos Hsome.
  rewrite (getActivityStatus_rules now transactions trackedAddresses walletAddress
             balance Hpos Hsome). cbv zeta.
  destruct (sellsIn15Mins _); [split; discriminate|].
  destruct (_ && _); [split; discriminate|].
  destruct (lowerPriority_range (scanTxs now pass0 walletTxs))
    as [H|[H|[H|[H|H]]]]; rewrite H; split; discriminate.
Qed.

Lemma recent_wider (c : Classifier.TxType) (tx : ProcessedTx) :
  recent c now FIFTEEN_MINS_MS tx = true -> recent c now TWENTY_FOUR_HOURS_MS tx = true.
Proof.
  unfold recent, within. intros Hr. apply andb_true_iff in Hr as [Hc Hw].
  rewrite Hc. destruct (tx_timestamp (ptx tx)); [|discriminate].
  apply Z.leb_le in Hw. apply Z.leb_le.
  unfold FIFTEEN_MINS_MS in Hw. unfold TWENTY_FOUR_HOURS_MS. lia.
Qed.

Lemma existsb_quiet (c : Classifier.TxType) (window : Z) (txs : list ProcessedTx) :
  existsb (recent c now window) txs = false ->
  forall tx, tx ∈ txs -> recent c now window tx = false.
Proof.
  intros Hnone tx Hin. destruct (recent c now window tx) eqn:Hr; [|reflexivity].
  assert (Hex : existsb (recent c now window) txs = true).
  { apply existsb_exists. exists tx. split; [now apply list_elem_of_In|exact Hr]. }
  congruence.
Qed.

(** X19. The two labels that do not depend on what the transfers are: the
    status is OUT exactly when the balance is missing or not positive,
    whatever the transfers; it is UNKNOWN exactly when the balance is
    positive and no transfer is filed under the wallet's address (compared
    in lower case). *)
Theorem status_out_unknown (currentBalance : option Q) :
  (statusOf currentBalance = OUT
   <-> match currentBalance with
       | None => True
       | Some balance => (balance <= 0)%Q
       end) /\
  (statusOf currentBalance = UNKNOWN
   <-> exists balance, currentBalance = Some balance /\ (0 < balance)%Q /\
         ownTxs (toLowerCase walletAddress) transactions = []).
Proof.
  assert (Hown : walletTxs = [] <-> ownTxs (toLowerCase walletAddress) transactions = []).
  { destruct (walletStats_spec trackedAddresses transactions walletAddress) as [-> _].
    destruct (ownTxs _ _); simpl; split; intros H; try reflexivity; discriminate. }
  destruct currentBalance as [balance|].
  - destruct (Qlt_le_dec 0 balance) as [Hpos|Hle].
    + assert (Hnot : ~ (balance <= 0)%Q) by (intros Hle; exact (Qlt_not_le _ _ Hpos Hle)).
      destruct (decide (walletTxs = [])) as [Hnone|Hsome].
      * rewrite (status_no_transfers balance Hpos Hnone). split.
        -- split; [discriminate|]. intros Hle. now elim Hnot.
        -- split; [|reflexivity]. intros _. exists balance.
           split; [reflexivity|]. split; [exact Hpos|]. now apply Hown.
      * destruct (status_with_transfers balance Hpos Hsome) as [Hout Hunknown]. split.
        -- split; [intros H; now elim Hout|intros Hle; now elim Hnot].
        -- split; [intros H; now elim Hunknown|].
           intros (b & [= <-] & _ & Hnone). elim Hsome. now apply Hown.
    + assert (Hout : statusOf (Some balance) = OUT).
      { unfold getActivityStatus. apply Qle_bool_iff in Hle. now rewrite Hle. }
      rewrite Hout. split; [tauto|].
      split; [discriminate|].
      intros (b & [= <-] & Hpos & _). exfalso. exact (Qlt_not_le _ _ Hpos Hle).
  - split; [simpl; tauto|]. simpl. split; [discriminate|].
    intros (b & Hb & _). discriminate.
Qed.


End StatusDecision.

Section StatusTotals.
Import Js History Status.

Variable trackedAddresses : gset string.

Local Abbreviation processed := (Status.processed trackedAddresses).

Lemma sumAmounts_snoc (txs : list ProcessedTx) (tx : ProcessedTx) :
  sumAmounts (txs ++ [tx]) = (sumAmounts txs + amountOf (ptx tx))%Q.
Proof. unfold sumAmounts. now rewrite map_app, fold_left_app. Qed.

Lemma sumAmounts_filter_snoc (keep : ProcessedTx -> bool) (txs : list ProcessedTx)
    (tx : ProcessedTx) :
  sumAmounts (List.filter keep (txs ++ [tx]))
    = if keep tx then (sumAmounts (List.filter keep txs) + amountOf (ptx tx))%Q
      else sumAmounts (List.filter keep txs).
Proof.
  rewrite List.filter_app. simpl. destruct (keep tx).
  - apply sumAmounts_snoc.
  - now rewrite app_nil_r.
Qed.

(** What the totals of a record hold, in terms of the transfers it lists. *)
Local Abbreviation balanced := (fun s : WalletStats =>
  (totalBought s + totalSold s + totalTransferredOut s == sumAmounts (ws_transactions s) /\
   totalBought s
     == purchasedTotal (ws_transactions s) + totalTransferredIn s /\
   totalSold s == sumAmounts (List.filter (isCategory Classifier.SELL) (ws_transactions s)) /\
   totalTransferredOut s
     == sumAmounts (List.filter (isCategory Classifier.TRANSFER_OUT) (ws_transactions s)) /\
   totalTransferredIn s
     == sumAmounts (List.filter (isCategory Classifier.TRANSFER_IN) (ws_transactions s)))%Q).

Lemma addTx_balanced (s : WalletStats) (tx : Transaction) :
  balanced s -> balanced (addTx trackedAddresses s tx).
Proof.
  intros (Hall & Hbought & Hsold & Hout & Hin).
  rewrite addTx_transactions. unfold purchasedTotal in *.
  rewrite sumAmounts_snoc, !sumAmounts_filter_snoc.
  set (bought := sumAmounts (List.filter (isCategory Classifier.BUY) (ws_transactions s)))
    in *.
  set (sold := sumAmounts (List.filter (isCategory Classifier.SELL) (ws_transactions s)))
    in *.
  set (sent :=
         sumAmounts (List.filter (isCategory Classifier.TRANSFER_OUT) (ws_transactions s)))
    in *.
  set (received :=
         sumAmounts (List.filter (isCategory Classifier.TRANSFER_IN) (ws_transactions s)))
    in *.
  set (all := sumAmounts (ws_transactions s)) in *.
  clearbody bought sold sent received all.
  unfold addTx, isCategory, Status.processed, categorize. cbn [category ptx].
  destruct (typeOf tx) eqn:Htype; cbn [totalBought totalSold totalTransferredOut
    totalTransferredIn]; try destruct (isTracked _ _);
    cbn [totalBought totalSold totalTransferredOut totalTransferredIn];
    repeat split; unfold amountOf in *;
    try rewrite <- Hall; try rewrite Hbought; try rewrite Hsold; try rewrite Hout;
    try rewrite Hin; try ring; try reflexivity.
Qed.


End StatusTotals.

(** ** Transaction history: known signatures *)

Section HistoryKnown.
Import Js Classifier History HistoryMore.

Variable connection : Connection.
Variables walletAddress tokenMint : string.
Variables targetCount maxPages : nat.
Variable deepFetch : bool.
Variable sinceTimestamp : option Timestamp.
Variable known : gset string.

Local Abbreviation unknownOnly := (fun f : Fetch =>
  Forall (fun sig => sig ∉ known) (detailRequests (trace f)) /\
  Forall (fun tx => tx_signature tx ∉ known) (transactions f)).

Lemma processResults_unknown (txResults : list (SigInfo * option RawTransaction)) :
  Forall (fun r => signature r.1 ∉ known) txResults ->
  forall f : Fetch, unknownOnly f ->
    unknownOnly (processResults walletAddress tokenMint targetCount deepFetch f txResults).1.
Proof.
  induction 1 as [|[sig [tx|]] rest Hunknown Hrest IH]; intros f Hf;
    cbn [processResults]; [exact Hf| |now apply IH].
  assert (Hlogged : unknownOnly (log [Examined (signature sig)] f)).
  { destruct Hf as [Hreq Htxs]. split; [|exact Htxs].
    cbn [log trace]. rewrite detailRequests_app. simpl. now rewrite app_nil_r. }
  destruct (parseTokenTransfer tx walletAddress tokenMint) as [tokenTransfer|];
    [|now apply IH].
  match goal with
  | |- context [push ?t ?f1] => assert (Hpushed : unknownOnly (push t f1))
  end.
  { destruct Hlogged as [Hreq Htxs]. split; [exact Hreq|].
    cbn [push transactions]. apply Forall_app. split; [exact Htxs|].
    constructor; [exact Hunknown|constructor]. }
  destruct (negb deepFetch && _); [exact Hpushed|now apply IH].
Qed.

Lemma processBatches_unknown (batches : list (list SigInfo)) :
  forall f : Fetch, unknownOnly f ->
    unknownOnly
      (processBatches connection walletAddress tokenMint targetCount deepFetch
         (Some known) f batches).1.
Proof.
  induction batches as [|batch rest IH]; intros f Hf; cbn [processBatches]; [exact Hf|].
  pose proof (filter_unknown known batch) as Hfiltered.
  destruct (List.filter _ batch) as [|sig filtered]; [now apply IH|].
  match goal with
  | |- context [processResults _ _ _ _ ?f1 ?results] =>
      pose proof (processResults_unknown results) as Hstep;
      assert (Hresults : Forall (fun r => signature r.1 ∉ known) results);
      [|assert (Hf1 : unknownOnly f1); [|specialize (Hstep Hresults f1 Hf1)]]
  end.
  - apply Forall_fmap. exact Hfiltered.
  - destruct Hf as [Hreq Htxs]. split; [|exact Htxs].
    cbn [log trace]. rewrite detailRequests_app, detailRequests_fetched.
    apply Forall_app. split; [exact Hreq|]. apply Forall_fmap. exact Hfiltered.
  - destruct (processResults _ _ _ _ _ _) as [f2 []]; [exact Hstep|now apply IH].
Qed.

(** The signatures that stay after the incremental cut are signatures of
    the page. *)
Lemma sinceCut_page (page cut : list SigInfo) (reached reached' : bool) :
  sinceCut sinceTimestamp reached page = Some (cut, reached') ->
  forall sig, sig ∈ cut -> sig ∈ page.
Proof.
  unfold sinceCut. intros Hcut sig Hin.
  assert (Hfiltered : forall keep : SigInfo -> bool,
            sig ∈ List.filter keep page -> sig ∈ page).
  { intros keep Hsig. apply list_elem_of_In in Hsig. apply filter_In in Hsig as [Hsig _].
    now apply list_elem_of_In. }
  destruct sinceTimestamp as [sinceDate|]; [|injection Hcut as <- _; exact Hin].
  destruct (last page) as [oldest|]; [|injection Hcut as <- _; exact Hin].
  destruct (timeOf oldest) as [oldestSigTime|]; [|injection Hcut as <- _; exact Hin].
  destruct (oldestSigTime * 1000 <? sinceDate); [|injection Hcut as <- _; exact Hin].
  destruct (List.filter _ page) as [|s newSigs] eqn:Hnew; [discriminate|].
  injection Hcut as <- _. eapply Hfiltered. rewrite Hnew. exact Hin.
Qed.

(** Transactions that do not classify add nothing, and the loop over them
    runs to its end. *)
Lemma processResults_nothing (sigs : list SigInfo) :
  Forall (fun sig => classifies connection walletAddress tokenMint (signature sig) = false)
    sigs ->
  forall f : Fetch,
    let after :=
      processResults walletAddress tokenMint targetCount deepFetch f
        (map (fun sig => (sig, getParsedTransaction connection (signature sig))) sigs) in
    after.2 = false /\ transactions after.1 = transactions f.
Proof.
  induction 1 as [|sig sigs Hsig Hsigs IH]; intros f; [now split|].
  cbn [map processResults]. unfold classifies in Hsig.
  destruct (getParsedTransaction connection (signature sig)) as [raw|]; [|apply IH].
  destruct (parseTokenTransfer raw walletAddress tokenMint); [discriminate|].
  destruct (IH (log [Examined (signature sig)] f)) as [Hflag Htxs].
  split; [exact Hflag|]. now rewrite Htxs.
Qed.

Lemma processBatches_nothing (batches : list (list SigInfo)) :
  Forall (Forall (fun sig =>
            signature sig ∈ known
            \/ classifies connection walletAddress tokenMint (signature sig) = false))
    batches ->
  forall f : Fetch,
    let after :=
      processBatches connection walletAddress tokenMint targetCount deepFetch
        (Some known) f batches in
    after.2 = false /\ transactions after.1 = transactions f.
Proof.
  induction 1 as [|batch rest Hbatch Hrest IH]; intros f; [now split|].
  cbn [processBatches].
  assert (Hfiltered :
    Forall (fun sig => classifies connection walletAddress tokenMint (signature sig) = false)
      (List.filter (fun sig => negb (isKnown (Some known) sig)) batch)).
  { apply List.Forall_forall. intros sig Hin. apply filter_In in Hin as [Hin Hunknown].
    apply negb_true_iff in Hunknown. unfold isKnown in Hunknown.
    apply bool_decide_eq_false in Hunknown.
    rewrite List.Forall_forall in Hbatch. destruct (Hbatch sig Hin) as [Hk|Hc];
      [contradiction|exact Hc]. }
  destruct (List.filter _ batch) as [|sig filtered]; [apply IH|].
  match goal with
  | |- context [processResults _ _ _ _ ?f1 (map _ ?sigs)] =>
      destruct (processResults_nothing sigs Hfiltered f1) as [Hflag Htxs]
  end.
  destruct (processResults _ _ _ _ _ _) as [f2 flag]. cbn [fst snd] in Hflag, Htxs.
  subst flag. destruct (IH f2) as [Hflag' Htxs'].
  split; [exact Hflag'|]. now rewrite Htxs', Htxs.
Qed.

Lemma nothing_new_empty :
  Tracker.nothingNew connection walletAddress tokenMint known ->
  getWalletTransactions connection walletAddress tokenMint targetCount maxPages deepFetch
    sinceTimestamp (Some known) = [].
Proof.
  intros Hnothing. unfold getWalletTransactions, run.
  destruct (negb (isValidAddress walletAddress) || negb (isValidAddress tokenMint));
    [reflexivity|].
  destruct (negb (acceptsPublicKey connection (trim walletAddress))); [reflexivity|].
  pose proof (pages_invariant connection walletAddress tokenMint targetCount maxPages
                deepFetch sinceTimestamp (Some known)
                (fun f => transactions f = []) (fun _ => False)) as Hinv.
  assert (Hbatches : forall f0 n before page reached cut reached',
    getSignaturesForAddress connection n before SIGS_PER_PAGE = Some page ->
    sinceCut sinceTimestamp reached page = Some (cut, reached') ->
    transactions f0 = [] ->
    match processBatches connection walletAddress tokenMint targetCount deepFetch
            (Some known) f0 (slices PARALLEL_BATCH_SIZE cut) with
    | (f', true) => False
    | (f', false) => transactions f' = []
    end).
  { intros f0 n before page reached cut reached' Hpage Hcut Hf0.
    assert (Hall : Forall (fun sig =>
              signature sig ∈ known
              \/ classifies connection walletAddress tokenMint (signature sig) = false) cut).
    { apply Forall_forall. intros sig Hin.
      apply (Hnothing n before SIGS_PER_PAGE page sig Hpage).
      now apply (sinceCut_page page cut reached reached' Hcut). }
    destruct (processBatches_nothing (slices PARALLEL_BATCH_SIZE cut)
                (slicesFrom_Forall _ _ _ _ Hall) f0) as [Hflag Htxs].
    destruct (processBatches _ _ _ _ _ _ _ _) as [f' flag]. cbn [fst snd] in Hflag, Htxs.
    subst flag. now rewrite Htxs. }
  specialize (Hinv (fun f0 _ _ _ Hf0 => Hf0) (fun f0 _ Hf0 => Hf0) Hbatches
                (pageBound maxPages deepFetch) fetch0 eq_refl).
  destruct (pages _ _ _ _ _ _ _ _ _ _) as [f| |]; [|reflexivity..].
  now destruct Hinv.
Qed.

(** X22. Whatever the since-timestamp and whatever order the provider
    serves its pages in, a fetch that is given a set of known signatures
    never requests the details of a known signature and never returns a
    transfer with a known signature. *)
Theorem known_signatures_skipped (f : Fetch) :
  run connection walletAddress tokenMint targetCount maxPages deepFetch
    sinceTimestamp (Some known) = Completed f ->
  Forall (fun sig => sig ∉ known) (detailRequests (trace f)) /\
  Forall (fun tx => tx_signature tx ∉ known)
    (getWalletTransactions connection walletAddress tokenMint targetCount maxPages
       deepFetch sinceTimestamp (Some known)).
Proof.
  intros Hrun. unfold getWalletTransactions. rewrite Hrun.
  revert Hrun. unfold run.
  destruct (negb (isValidAddress walletAddress) || negb (isValidAddress tokenMint)).
  { intros [= <-]. split; constructor. }
  destruct (negb (acceptsPublicKey connection (trim walletAddress))); [discriminate|].
  pose proof (pages_invariant connection walletAddress tokenMint targetCount maxPages
                deepFetch sinceTimestamp (Some known) unknownOnly unknownOnly) as Hinv.
  intros Hrun.
  assert (Hbatches : forall f0 n before page reached cut reached',
    getSignaturesForAddress connection n before SIGS_PER_PAGE = Some page ->
    sinceCut sinceTimestamp reached page = Some (cut, reached') ->
    unknownOnly f0 ->
    match processBatches connection walletAddress tokenMint targetCount deepFetch
            (Some known) f0 (slices PARALLEL_BATCH_SIZE cut) with
    | (f', true) => unknownOnly f'
    | (f', false) => unknownOnly f'
    end).
  { intros f0 n before page reached cut reached' _ _ Hf0.
    pose proof (processBatches_unknown (slices PARALLEL_BATCH_SIZE cut) f0 Hf0) as Hstep.
    now destruct (processBatches _ _ _ _ _ _ _ _) as [f' []]. }
  assert (Hlog : forall f0 before,
    unknownOnly f0 -> unknownOnly (log [PageRequested before] f0)).
  { intros f0 before [Hreq Htxs]. split; [|exact Htxs].
    cbn [log trace]. rewrite detailRequests_app. simpl. now rewrite app_nil_r. }
  assert (Hstart : unknownOnly fetch0) by (split; constructor).
  specialize (Hinv (fun f0 _ _ _ Hf0 => Hf0) Hlog Hbatches
                (pageBound maxPages deepFetch) fetch0 Hstart).
  rewrite Hrun in Hinv. now destruct Hinv.
Qed.

End HistoryKnown.

(** ** The tracker: the wallet list, the initial balances, a round of
    transfers *)

Section TrackerWallets.
Import Js Balances WatchSet Tracker.

Local Abbreviation key := (fun w : Wallet => toLowerCase (w_address w)).

Lemma filter_all_known_wallets (watched newWallets : list Wallet) :
  (forall w, w ∈ newWallets -> key w ∈ (list_to_set (map key watched) : gset string)) ->
  List.filter
    (fun w => negb (bool_decide (key w ∈ (list_to_set (map key watched) : gset string))))
    newWallets = [].
Proof.
  induction newWallets as [|w ws IH]; intros Hall; [reflexivity|].
  simpl. rewrite bool_decide_eq_true_2 by (apply Hall; left). simpl.
  apply IH. intros w' Hw'. apply Hall. now right.
Qed.

(** X23. Importing the same wallets a second time changes nothing; an
    import never removes or reorders the wallets already watched, and
    afterwards every imported address is watched (up to letter case). *)
Theorem addWallets_idempotent (prev newWallets : list Wallet) :
  let once := addWallets prev newWallets in
  addWallets once newWallets = once /\
  prev `prefix_of` once /\
  forall w, w ∈ newWallets -> key w ∈ map key once.
Proof.
  intros once.
  assert (Hwatched : forall w, w ∈ newWallets -> key w ∈ map key once).
  { intros w Hw. subst once. unfold addWallets. rewrite map_app, elem_of_app.
    destruct (decide (key w ∈ map key prev)) as [Hold|Hnew]; [now left|right].
    apply list_elem_of_In. apply (in_map key). apply filter_In.
    split; [now apply list_elem_of_In|].
    apply negb_true_iff, bool_decide_eq_false. now rewrite elem_of_list_to_set. }
  split; [|split; [|exact Hwatched]].
  - unfold addWallets at 1.
    rewrite (filter_all_known_wallets once newWallets); [apply app_nil_r|].
    intros w Hw. apply elem_of_list_to_set. now apply Hwatched.
  - subst once. unfold addWallets. now exists
      (List.filter
         (fun w => negb (bool_decide (key w ∈ (list_to_set (map key prev) : gset string))))
         newWallets).
Qed.

Lemma removeWallet_unique (wallets : list Wallet) (walletId : string) :
  uniqueAddresses wallets -> uniqueAddresses (removeWallet wallets walletId).
Proof. unfold uniqueAddresses, removeWallet. apply NoDup_map_filter. Qed.

(** X24. Addresses stay pairwise distinct (up to letter case) in the
    wallet list through every sequence of imports, replacements and
    removals, provided that no imported or replacing batch lists an address
    twice; a removal leaves no wallet with the removed id. *)
Theorem edits_keep_unique (edits : list Edit) (wallets : list Wallet) :
  uniqueAddresses wallets ->
  Forall (fun e => uniqueAddresses (imported e)) edits ->
  uniqueAddresses (fold_left edit edits wallets) /\
  forall walletId, Forall (fun w => w_id w <> walletId)
                     (edit (fold_left edit edits wallets) (RemoveWallet walletId)).
Proof.
  intros Hwallets Hedits. split.
  - revert wallets Hwallets.
    induction Hedits as [|e rest He Hrest IH]; intros wallets Hwallets; [exact Hwallets|].
    simpl. apply IH. destruct e as [newWallets|newWallets|walletId]; simpl in *.
    + now apply addWallets_unique.
    + exact He.
    + now apply removeWallet_unique.
  - intros walletId. simpl. unfold removeWallet. apply List.Forall_forall.
    intros w Hin. apply filter_In in Hin as [_ Hid].
    apply negb_true_iff in Hid. now apply String.eqb_neq in Hid.
Qed.

End TrackerWallets.

Section TrackerInitials.
Import Js Balances Tracker.

Variable currentInitials : gmap string Q.

(** What the pass over the balances of a round has noted. *)
Lemma noteInitial_fold (balances : list WalletBalance) :
  forall acc : gmap string Q * bool,
    (acc.2 = false -> acc.1 = ∅) ->
    (forall a b, acc.1 !! a = Some b -> currentInitials !! a = None /\ (0 < b)%Q) ->
    let noted := fold_left (noteInitial currentInitials) balances acc in
    (noted.2 = false -> noted.1 = ∅) /\
    (forall a b, noted.1 !! a = Some b -> currentInitials !! a = None /\ (0 < b)%Q) /\
    (forall a b, noted.1 !! a = Some b ->
       acc.1 !! a = Some b
       \/ exists w, w ∈ balances /\ wb_address w = a /\ wb_uiBalance w = b) /\
    (forall w, w ∈ balances -> currentInitials !! wb_address w = None ->
       (0 < wb_uiBalance w)%Q -> is_Some (noted.1 !! wb_address w)) /\
    (forall a, is_Some (acc.1 !! a) -> is_Some (noted.1 !! a)).
Proof.
  induction balances as [|w ws IH]; intros acc Hflag Hacc.
  - simpl. split; [exact Hflag|]. split; [exact Hacc|]. split; [now left|].
    split; [|auto]. intros w Hw. inversion Hw.
  - cbn [fold_left].
    assert (Hstep : let acc' := noteInitial currentInitials acc w in
              (acc'.2 = false -> acc'.1 = ∅) /\
              (forall a b, acc'.1 !! a = Some b ->
                 currentInitials !! a = None /\ (0 < b)%Q) /\
              (forall a b, acc'.1 !! a = Some b ->
                 acc.1 !! a = Some b \/ (wb_address w = a /\ wb_uiBalance w = b)) /\
              (currentInitials !! wb_address w = None -> (0 < wb_uiBalance w)%Q ->
                 is_Some (acc'.1 !! wb_address w)) /\
              (forall a, is_Some (acc.1 !! a) -> is_Some (acc'.1 !! a))).
    { unfold noteInitial. cbv zeta.
      destruct (bool_decide (currentInitials !! wb_address w = None)) eqn:Hnew;
        [apply bool_decide_eq_true in Hnew|apply bool_decide_eq_false in Hnew].
      - destruct (Qgtb (wb_uiBalance w) 0) eqn:Hpos; cbn [andb fst snd].
        + apply Qgtb_gt in Hpos. split; [discriminate|]. split; [|split; [|split]].
          * intros a b. destruct (decide (a = wb_address w)) as [->|Hne].
            -- rewrite lookup_insert_eq. intros [= <-]. now split.
            -- rewrite lookup_insert_ne by congruence. apply Hacc.
          * intros a b. destruct (decide (a = wb_address w)) as [->|Hne].
            -- rewrite lookup_insert_eq. intros [= <-]. now right.
            -- rewrite lookup_insert_ne by congruence. now left.
          * intros _ _. rewrite lookup_insert_eq. eauto.
          * intros a Ha. destruct (decide (a = wb_address w)) as [->|Hne].
            -- rewrite lookup_insert_eq. eauto.
            -- now rewrite lookup_insert_ne by congruence.
        + split; [exact Hflag|]. split; [exact Hacc|]. split; [now left|].
          split; [|auto]. intros _ Hgt. apply Qgtb_gt in Hgt. congruence.
      - cbn [andb]. split; [exact Hflag|]. split; [exact Hacc|]. split; [now left|].
        split; [|auto]. intros Hnone. contradiction. }
    cbv zeta in Hstep. destruct Hstep as (Hflag' & Hacc' & Hfrom & Hnoted & Hkept).
    destruct (IH (noteInitial currentInitials acc w) Hflag' Hacc')
      as (H1 & H2 & H3 & H4 & H5).
    split; [exact H1|]. split; [exact H2|]. split; [|split].
    + intros a b Hab. destruct (H3 a b Hab) as [Hprev|(w' & Hw' & Ha & Hb)].
      * destruct (Hfrom a b Hprev) as [Hold|[Ha Hb]]; [now left|].
        right. exists w. split; [left|now split].
      * right. exists w'. split; [now right|now split].
    + intros w' Hw' Hnone Hpos. apply elem_of_cons in Hw' as [->|Hw'].
      * apply H5. now apply Hnoted.
      * now apply H4.
    + intros a Ha. apply H5. now apply Hkept.
Qed.

End TrackerInitials.

Section TrackerInitialBalances.
Import Js Balances Tracker.

(** X25. The initial balance recorded for a wallet is its first positive
    balance and never changes afterwards: a round leaves every recorded
    initial balance of the token as it is, records for an address without
    one a positive balance that the round reported for that address, does
    so for every address reported with a positive balance, and touches no
    other token. *)
Theorem initial_balances_first_seen (all : gmap string (gmap string Q))
    (tokenMint other : string) (balances : list WalletBalance) :
  let before := loadInitialBalances all tokenMint in
  let after := loadInitialBalances (trackInitialBalances all tokenMint balances) tokenMint in
  (forall a b, before !! a = Some b -> after !! a = Some b) /\
  (forall a b, before !! a = None -> after !! a = Some b ->
     (0 < b)%Q /\ exists w, w ∈ balances /\ wb_address w = a /\ wb_uiBalance w = b) /\
  (forall w, w ∈ balances -> (0 < wb_uiBalance w)%Q -> is_Some (after !! wb_address w)) /\
  (other <> tokenMint ->
   loadInitialBalances (trackInitialBalances all tokenMint balances) other
     = loadInitialBalances all other).
Proof.
  intros before after.
  destruct (noteInitial_fold before balances (∅, false)) as (Hflag & Hnew & Hfrom & Hall & _).
  { reflexivity. }
  { intros a b Hab. cbn [fst] in Hab. rewrite lookup_empty in Hab. discriminate. }
  assert (Hafter : forall a,
            after !! a
            = match (fold_left (noteInitial before) balances (∅, false)).1 !! a with
              | Some b => Some b
              | None => before !! a
              end).
  { intros a. subst after. unfold trackInitialBalances. fold before. cbv zeta.
    destruct (fold_left (noteInitial before) balances (∅, false)) as [noted flag] eqn:Hfold.
    cbn [fst snd] in *. destruct flag.
    - unfold loadInitialBalances at 1, saveInitialBalances.
      rewrite lookup_insert_eq. cbn [default].
      fold (loadInitialBalances all tokenMint). fold before.
      unfold id. rewrite lookup_union. destruct (noted !! a), (before !! a); reflexivity.
    - rewrite (Hflag eq_refl), lookup_empty. reflexivity. }
  cbn [fst] in Hfrom.
  set (noted := (fold_left (noteInitial before) balances (∅, false)).1) in *.
  clearbody noted after.
  split; [|split; [|split]].
  - intros a b Hab. rewrite Hafter.
    destruct (noted !! a) as [b'|] eqn:Hnoted; [|exact Hab].
    destruct (Hnew a b' Hnoted) as [Hnone _]. congruence.
  - intros a b Hnone. rewrite Hafter, Hnone.
    destruct (noted !! a) as [b'|] eqn:Hnoted; [|discriminate].
    intros [= <-]. split; [now apply (Hnew a b')|].
    destruct (Hfrom a b' Hnoted) as [Hempty|Hw]; [|exact Hw].
    rewrite lookup_empty in Hempty. discriminate.
  - intros w Hw Hpos. rewrite Hafter.
    destruct (before !! wb_address w) as [b|] eqn:Hold.
    + destruct (noted !! wb_address w); eauto.
    + destruct (Hall w Hw Hold Hpos) as [b Hb]. rewrite Hb. eauto.
  - intros Hother. unfold trackInitialBalances. cbv zeta.
    destruct (fold_left _ balances (∅, false)) as [found []]; [|reflexivity].
    cbn [fst snd]. unfold loadInitialBalances, saveInitialBalances.
    now rewrite lookup_insert_ne by congruence.
Qed.

End TrackerInitialBalances.

Section TrackerRounds.
Import Js Classifier History HistoryMore Balances DataCache CacheReads Tracker.

Lemma planTransactions_incremental (showLoading force : bool)
    (existingTxs : list Transaction) :
  isIncremental (planTransactions showLoading force existingTxs) = true
  <-> showLoading = false /\ force = false /\ existingTxs <> [].
Proof.
  unfold planTransactions. cbn [isIncremental].
  destruct showLoading, force, existingTxs; simpl; split; try discriminate;
    try (intros (? & ? & ?); congruence); intros; repeat split; congruence.
Qed.

(** X26. The plan of a round: the fetch is incremental exactly when it is
    a background refresh, no full fetch is forced and transfers are stored;
    it then asks for 10 transfers and a single page per wallet, since the
    time of the most recent stored transfer, so that no stored transfer is
    more recent than the since-timestamp. A full fetch asks for 20
    transfers and 3 pages, with no since-timestamp. *)
Theorem plan_of_a_round (showLoading force : bool) (existingTxs : list Transaction) :
  let plan := planTransactions showLoading force existingTxs in
  (isIncremental plan = true
   <-> showLoading = false /\ force = false /\ existingTxs <> []) /\
  (isIncremental plan = true ->
   TX_PER_WALLET plan = 10%nat /\ MAX_PAGES plan = 1%nat /\
   forall t, sinceTimestamp plan = Some t ->
     (exists tx, tx ∈ existingTxs /\ tx_timestamp tx = Some t) /\
     forall tx, tx ∈ existingTxs -> timeKey tx <= t) /\
  (isIncremental plan = false ->
   TX_PER_WALLET plan = 20%nat /\ MAX_PAGES plan = 3%nat /\ sinceTimestamp plan = None).
Proof.
  intros plan. split; [apply planTransactions_incremental|]. split.
  - intros Hinc. pose proof Hinc as Hwhen.
    apply planTransactions_incremental in Hwhen as (-> & -> & Hsome).
    subst plan. unfold planTransactions.
    destruct existingTxs as [|tx0 rest] eqn:Htxs; [now elim Hsome|].
    cbn [length Nat.eqb Nat.ltb Nat.leb orb negb andb TX_PER_WALLET MAX_PAGES
         sinceTimestamp].
    split; [reflexivity|]. split; [reflexivity|].
    intros t Ht.
    pose proof (sortNewestFirst_sorted (tx0 :: rest)) as Hsorted.
    pose proof (sortNewestFirst_perm (tx0 :: rest)) as Hperm.
    destruct (sortNewestFirst (tx0 :: rest)) as [|newest others]; [discriminate|].
    cbn [head mbind option_bind] in Ht. split.
    + exists newest. split; [|exact Ht]. rewrite <- Hperm. left.
    + intros tx Hin. rewrite <- Hperm in Hin.
      pose proof (newestFirst_head newest others Hsorted tx Hin) as Hle.
      unfold timeKey in Hle at 2. rewrite Ht in Hle. exact Hle.
  - intros Hfull. subst plan. unfold planTransactions in *. cbn [isIncremental] in Hfull.
    cbn [TX_PER_WALLET MAX_PAGES sinceTimestamp]. rewrite Hfull. cbn [andb].
    repeat split.
Qed.

Lemma fetchAll_nothing (ledgerOf : string -> Connection) (tokenMint : string)
    (plan : Plan) (known : gset string) (validWallets : list Wallet) :
  (forall wallet, wallet ∈ validWallets ->
     nothingNew (ledgerOf (w_address wallet)) (w_address wallet) tokenMint known) ->
  fetchAll ledgerOf tokenMint plan known validWallets = [].
Proof.
  unfold fetchAll. induction validWallets as [|wallet rest IH]; intros Hnothing;
    [reflexivity|].
  cbn [flat_map]. rewrite nothing_new_empty by (apply Hnothing; left).
  apply IH. intros w Hw. apply Hnothing. now right.
Qed.


End TrackerRounds.

Section TrackerExamples.
Import Js Classifier History HistoryMore Balances DataCache CacheReads WatchSet Status
  Tracker Fixtures.



Lemma known_signatures_skipped_ledger :
  exists f,
    run ledger walletA mintM 15 3 false None (Some {["s3"]}) = Completed f /\
    Forall (fun sig => sig ∉ ({["s3"]} : gset string)) (detailRequests (trace f)).
Proof.
  destruct (run ledger walletA mintM 15 3 false None (Some {["s3"]})) as [f| |] eqn:Hrun;
    [|vm_compute in Hrun; discriminate..].
  exists f. split; [reflexivity|].
  now destruct (known_signatures_skipped ledger walletA mintM 15 3 false None {["s3"]}
                  f Hrun).
Defined.

Lemma edits_keep_unique_import_remove :
  uniqueAddresses
    (fold_left edit
       [AddWallets [wallet "a" walletA; wallet "b" walletB]; RemoveWallet "a";
        AddWallets [wallet "c" walletA]] []).
Proof.
  apply edits_keep_unique.
  - constructor.
  - repeat apply Forall_cons_2; try apply Forall_nil_2;
      apply (bool_decide_unpack _); vm_compute; reflexivity.
Defined.

Lemma ledger_nothing_new :
  nothingNew ledger walletA mintM (list_to_set ["s3"; "s2"]).
Proof.
  intros n before limit page sig Hpage Hsig.
  destruct n as [|n]; injection Hpage as <-; [|inversion Hsig].
  unfold ledgerPage in Hsig.
  apply elem_of_cons in Hsig as [->|Hsig]; [left; set_solver|].
  apply elem_of_cons in Hsig as [->|Hsig]; [left; set_solver|].
  apply list_elem_of_singleton in Hsig as ->. right. reflexivity.
Qed.


End TrackerExamples.

(** ** Saved projects *)

Section ProjectsFacts.
Import Js Balances History Projects.
Context {TokenInfo : Type}.
Implicit Types (projects : list (Project TokenInfo)) (project : ProjectInput TokenInfo).

Lemma findIndex_Some {A : Type} (p : A -> bool) (l : list A) (i : nat) :
  findIndex p l = Some i -> exists x, l !! i = Some x /\ p x = true.
Proof.
  revert i. induction l as [|y l IH]; intros i; simpl; [discriminate|].
  destruct (p y) eqn:Hy.
  - intros [= <-]. exists y. now split.
  - destruct (findIndex p l) as [j|]; [|discriminate].
    intros [= <-]. destruct (IH j eq_refl) as (x & Hx & Hp). exists x. now split.
Qed.

Lemma findIndex_None {A : Type} (p : A -> bool) (l : list A) :
  findIndex p l = None -> forall x, x ∈ l -> p x = false.
Proof.
  induction l as [|y l IH]; simpl; intros Hnone x Hx; [inversion Hx|].
  destruct (p y) eqn:Hy; [discriminate|].
  destruct (findIndex p l); [discriminate|].
  apply elem_of_cons in Hx as [->|Hx]; [exact Hy|now apply IH].
Qed.

Lemma mintsOf_insert projects (i : nat) (existing stored : Project TokenInfo) :
  projects !! i = Some existing ->
  toLowerCase (p_tokenMint stored) = toLowerCase (p_tokenMint existing) ->
  mintsOf (<[i := stored]> projects) = mintsOf projects.
Proof.
  unfold mintsOf. revert i. induction projects as [|p ps IH]; intros i Hi Hmint;
    [discriminate|].
  destruct i as [|i]; simpl in *.
  - injection Hi as ->. now rewrite Hmint.
  - f_equal. now apply IH.
Qed.

(** X28. The saved projects hold at most one project per token (up to
    letter case), and saving and deleting keep it so: the token saved is
    among the projects afterwards, a token not saved before gets a new
    project at the front, and a token saved before has its project
    replaced in place by the new data with the creation date it had, no
    project being added. *)
Theorem saveProject_one_per_token (now later : Timestamp) (generated : string)
    projects project :
  let saved := saveProject now later generated projects project in
  let token := toLowerCase (in_tokenMint project) in
  (NoDup (mintsOf projects) ->
   NoDup (mintsOf saved.1) /\
   forall projectId, NoDup (mintsOf (deleteProject projects projectId))) /\
  token ∈ mintsOf saved.1 /\
  (token ∉ mintsOf projects -> saved.1 = saved.2 :: projects) /\
  (token ∈ mintsOf projects ->
   mintsOf saved.1 = mintsOf projects /\
   exists (i : nat) (existing : Project TokenInfo),
     projects !! i = Some existing /\
     toLowerCase (p_tokenMint existing) = token /\
     saved.1 = <[i := withCreatedAt saved.2 (p_createdAt existing)]> projects).
Proof.
  intros saved token.
  assert (Hdelete : NoDup (mintsOf projects) ->
            forall projectId, NoDup (mintsOf (deleteProject projects projectId))).
  { intros Hnd projectId. unfold mintsOf, deleteProject. now apply NoDup_map_filter. }
  subst saved. unfold saveProject.
  set (projectData := Build_Project _ _ _ _ _ _ _ _ _ _ _ _ _ _).
  assert (Hdata : toLowerCase (p_tokenMint projectData) = token) by reflexivity.
  clearbody projectData.
  destruct (findIndex (sameToken (in_tokenMint project)) projects) as [i|] eqn:Hfind.
  - destruct (findIndex_Some _ _ _ Hfind) as (existing & Hi & Hsame).
    unfold sameToken in Hsame. apply String.eqb_eq in Hsame. fold token in Hsame.
    rewrite Hi. cbn [fst snd].
    assert (Hmints : mintsOf (<[i := withCreatedAt projectData (p_createdAt existing)]>
                                projects) = mintsOf projects).
    { apply (mintsOf_insert projects i existing); [exact Hi|].
      cbn [withCreatedAt p_tokenMint]. congruence. }
    assert (Hin : token ∈ mintsOf projects).
    { unfold mintsOf. rewrite <- Hsame. apply list_elem_of_In.
      apply (in_map (fun p => toLowerCase (p_tokenMint p))).
      apply list_elem_of_In. now apply list_elem_of_lookup_2 in Hi. }
    rewrite Hmints. split; [auto|]. split; [exact Hin|]. split; [intros Hout; contradiction|].
    intros _. split; [reflexivity|]. exists i, existing. auto.
  - cbn [fst snd].
    assert (Hout : token ∉ mintsOf projects).
    { unfold mintsOf. intros Hin. apply list_elem_of_In, in_map_iff in Hin as (p & Hp & Hin).
      apply list_elem_of_In in Hin.
      pose proof (findIndex_None _ _ Hfind p Hin) as Hno. unfold sameToken in Hno.
      apply String.eqb_neq in Hno. now apply Hno. }
    unfold mintsOf at 2 4. cbn [map]. fold (mintsOf projects). rewrite Hdata.
    split; [intros Hnd; split; [apply NoDup_cons; now split|now apply Hdelete]|].
    split; [left|]. split; [reflexivity|]. intros Hin. contradiction.
Qed.

End ProjectsFacts.

(** ** Market data: the pair that is used *)

Section MarketFacts.
Import Js Market.

Local Abbreviation liquidity := (fun p : Pair => orZero (liquidityUsd p)).

Lemma head_insertByLiquidity (p : Pair) (sorted : list Pair) :
  head (insertByLiquidity p sorted)
    = match head sorted with
      | None => Some p
      | Some y => if Qle_bool (liquidity y) (liquidity p) then Some p else Some y
      end.
Proof.
  destruct sorted as [|y rest]; [reflexivity|]. simpl.
  now destruct (Qle_bool _ _).
Qed.

Lemma head_sortByLiquidity_None (pairs : list Pair) :
  head (sortByLiquidity pairs) = None -> pairs = [].
Proof.
  destruct pairs as [|p rest]; [reflexivity|].
  unfold sortByLiquidity. cbn [foldr]. rewrite head_insertByLiquidity.
  destruct (head _) as [y|]; [|discriminate].
  now destruct (Qle_bool _ _).
Qed.

Lemma head_sortByLiquidity (pairs : list Pair) :
  forall best : Pair,
    head (sortByLiquidity pairs) = Some best ->
    exists i : nat,
      pairs !! i = Some best /\
      (forall p, p ∈ pairs -> (liquidity p <= liquidity best)%Q) /\
      (forall (j : nat) p, (j < i)%nat -> pairs !! j = Some p ->
         (liquidity p < liquidity best)%Q).
Proof.
  induction pairs as [|x rest IH]; intros best; [discriminate|].
  unfold sortByLiquidity. cbn [foldr]. fold (sortByLiquidity rest).
  rewrite head_insertByLiquidity.
  destruct (head (sortByLiquidity rest)) as [y|] eqn:Hhead.
  - destruct (IH y eq_refl) as (i & Hi & Hmax & Hfirst).
    destruct (Qle_bool (liquidity y) (liquidity x)) eqn:Hle.
    + intros [= <-]. apply Qle_bool_iff in Hle. exists 0%nat.
      split; [reflexivity|]. split; [|intros j p Hj; lia].
      intros p Hp. apply elem_of_cons in Hp as [->|Hp]; [apply Qle_refl|].
      eapply Qle_trans; [now apply Hmax|exact Hle].
    + intros [= <-].
      assert (Hlt : (liquidity x < liquidity y)%Q).
      { apply Qnot_le_lt. intros Hyx. apply Qle_bool_iff in Hyx. congruence. }
      exists (S i). split; [exact Hi|]. split.
      * intros p Hp. apply elem_of_cons in Hp as [->|Hp]; [now apply Qlt_le_weak|].
        now apply Hmax.
      * intros [|j] p Hj Hp; simpl in Hp.
        -- now injection Hp as <-.
        -- apply (Hfirst j p); [lia|exact Hp].
  - apply head_sortByLiquidity_None in Hhead. subst rest.
    intros [= <-]. exists 0%nat. split; [reflexivity|].
    split; [|intros j p Hj; lia].
    intros p Hp. apply list_elem_of_singleton in Hp as ->. apply Qle_refl.
Qed.

(** X29. The pair the market data is taken from is one with the highest
    liquidity among the pairs reported (a missing figure counts as zero),
    and the first such pair in the reported order; the price reported is
    the price of that pair. There is such a pair whenever any pair is
    reported. *)
Theorem best_pair_highest_liquidity (pairs : list Pair) :
  (bestPairOf (Some pairs) = None <-> pairs = []) /\
  forall best : Pair,
    bestPairOf (Some pairs) = Some best ->
    po_price (getTokenPriceOnly (Some pairs)) = orZero (priceUsd best) /\
    exists i : nat,
      pairs !! i = Some best /\
      (forall p, p ∈ pairs -> (orZero (liquidityUsd p) <= orZero (liquidityUsd best))%Q) /\
      (forall (j : nat) p, (j < i)%nat -> pairs !! j = Some p ->
         (orZero (liquidityUsd p) < orZero (liquidityUsd best))%Q).
Proof.
  assert (Hbest : bestPairOf (Some pairs) = head (sortByLiquidity pairs)).
  { unfold bestPairOf. now destruct pairs. }
  split.
  - rewrite Hbest. split; [apply head_sortByLiquidity_None|now intros ->].
  - intros best Hfound. split.
    + unfold getTokenPriceOnly. now rewrite Hfound.
    + apply head_sortByLiquidity. now rewrite <- Hbest.
Qed.

End MarketFacts.

(** ** Address checks *)

Section AddressFacts.
Import Js History FileParser.

Lemma isBase58_not_space (c : ascii) : isBase58 c = true -> isSpace c = false.
Proof.
  destruct c as [[] [] [] [] [] [] [] []]; vm_compute; intros H; try reflexivity;
    discriminate.
Qed.

Lemma isBase58_not_ambiguous (c : ascii) :
  isBase58 c = true -> c <> "0"%char /\ c <> "O"%char /\ c <> "I"%char /\ c <> "l"%char.
Proof.
  intros Hc. repeat split; intros ->; vm_compute in Hc; discriminate.
Qed.

Lemma trimStart_id (s : string) :
  forallb isBase58 (String.list_ascii_of_string s) = true -> trimStart s = s.
Proof.
  destruct s as [|c r]; [reflexivity|]. simpl. intros Hall.
  apply andb_true_iff in Hall as [Hc _]. now rewrite (isBase58_not_space c Hc).
Qed.

Lemma trimEnd_id (s : string) :
  forallb isBase58 (String.list_ascii_of_string s) = true -> trimEnd s = s.
Proof.
  induction s as [|c r IH]; [reflexivity|]. simpl. intros Hall.
  apply andb_true_iff in Hall as [Hc Hr]. rewrite (IH Hr).
  destruct r; [now rewrite (isBase58_not_space c Hc)|reflexivity].
Qed.


End AddressFacts.
